(* ===== verification/_CoqProject ===== *)
-Q . S2P
Prelude.v
PyStr.v
VectorStore.v
AgentRuntime.v
React.v
Session.v
Memory.v
Chat.v
Startup.v
Turn.v
Typing.v
Cli.v
Agent.v
View.v
Document.v
Transcript.v
Loop.v
Tree.v
Program.v
Recall.v
Embedding.v
Concurrent.v
Interleave.v
Examples.v
Bots.v
Scenarios.v
