(* ===== verification/Prelude.v ===== *)
(** * LongChain_Agent: a verification development for [src/project_main.py]

    The program is a conversational agent of about 120 lines of Python.  Its
    own logic is glue between four collaborators: a persistent vector store
    (ChromaDB), an agent runtime (LangGraph's ReAct agent with an in-memory
    checkpointer), a web-search tool (Tavily) and a hosted language model.
    This library models the glue in full and the collaborators through the
    interfaces the glue calls, and proves what makes the glue correct.

    ** The program's parts and the files that model them

    - [Prelude] (this file).  Python's exceptions as values ([exn], [result]),
      the state-and-exception monad [SE] in which every method of the program
      is written (state survives a raised exception, as the heap does in
      Python), the monad's run equations as a rewrite database ([se]), the
      tactics [se_simp], [inv_ok] and [case_run], and the lemmas on strings
      and lists that the components share.
    - [PyStr].  The Python builtins the source calls on strings, integers and
      bytes: [str_of_nat] for the f-string [{len(...) + 1}] of
      [save_to_memory], [join] for ["\n".join], [strip] and [lower] of the
      command loop, [hex] for [os.urandom(4).hex()].  Strings are
      [String.string] (sequences of 8-bit characters); code points above 127
      are carried unchanged, which is what [strip] and [lower] do on the
      UTF-8 bytes of every non-ASCII character that is not Unicode white
      space or cased.  Theorems: parse/print round trip and injectivity of
      the decimal rendering, idempotence and characterisation of [strip] and
      [lower], length and injectivity of [hex]; the digits of [hex] are
      characters of [0123456789abcdef], a test on character codes that does
      not look at the table of [hex], and [unhex], which reads the value of
      a character from its code as [bytes.fromhex] does, gives the bytes
      back.
    - [VectorStore].  The Chroma collection.  [Collection] is the typeclass
      of what [project_main.py] relies on ([coll_get], [coll_add],
      [coll_query] and their laws); [ListStore] is an executable reference
      implementation (an append-only list of records ranked by a distance
      function) with the [Instance] that discharges the laws.  The client's
      theorems ([Memory], [Chat], [Cli]) are proved against the class only.
    - [AgentRuntime].  The LangGraph agent as the program sees it: messages
      and streamed chunks ([Lang.message], [Lang.chunk]), an agent run as a
      finite interaction script ([Graph.script]: yield a chunk, call a tool,
      finish, raise), the tools as named functions on the process state, and
      [Graph.for_stream], the [for] loop over the stream interleaved with
      the runtime.  [Graph.for_stream_emitted] resolves the tool calls of a
      run ahead of the loop when the tools only read.
    - [React].  The loop [create_react_agent] builds around the chat model
      (line 59), from the design: [react] asks the model ([policy], one
      query), runs the tools its message asks for ([act]), adds the
      observations to the conversation and asks again, under a guard on the
      number of queries.  [rounds] is the reference definition on lists to
      which the stream of [react] is proved equal, [run] the loop without a
      guard as a relation, [hangs] a model that asks for tools for ever.
      Theorems: the guarded loop is total and ends as [run] does or at the
      guard ([react_total]); it implements [run] under every guard a run
      stays below ([react_refines_run]); the model is always asked with the
      whole conversation ([run_query]); the guard fires at every value
      exactly on the conversations the model hangs on ([hangs_guard]).
    - [Session].  The process state [World] and [self], the record
      [ConversationalAgent] of the handles [__init__] stores, with the
      primitives the methods are written with ([print], the calls to the
      collection behind [self.collection], [require_env]) and what each
      does to the fields of [World]; the checkpointer is a map from thread
      ids to message lists in [World].
    - [Memory].  The methods [search_memory] and [save_to_memory], each a
      definition in the [SE] monad over [World].  Theorems: the result of
      each on every branch; [ids_wf], the ids of a collection are
      [conv_1 .. conv_n], under which a save appends the turn
      ([save_to_memory_appends]) and without which it can return and store
      nothing ([save_to_memory_collision]); what a save leaves alone.
    - [Chat].  The method [chat] with [self.tools] and the stream of
      [self.agent], composed the way the methods call each other.
      Theorems: [chat] equals the pure fold [chat_pure] over the chunks a
      run emits ([chat_eq_pure]); what a turn returns, prints and stores
      ([chat_returns]); the invariant [world_wf] (the collection exists and
      its ids are [conv_1 .. conv_n]), kept by every turn; read-only tool
      calls; thread isolation; what a turn that raises leaves behind.
    - [Startup].  The constructor [init] ([__init__]).  Theorems: its
      result on every environment, the state it leaves whether it returns
      or raises, that it establishes [world_wf] on a store the program
      wrote, and that a restart finds the records of the run before
      ([init_restart]).
    - [Turn].  One turn of [chat] as a state machine: the step relation
      [step] on configurations (START, INVOKING_AGENT, STREAMING_RESPONSE,
      PERSISTING, DONE, FAILED), deterministic and with progress.
      Theorems: [chat] computes the one final configuration the machine
      reaches ([chat_refines_turn]), the steps follow the transitions of
      the design ([step_phase]), and the store is written by the step into
      DONE alone ([steps_keep_disk]), the last two by induction on the
      rules.
    - [Typing].  The dynamic types of what the stream yields ([ty],
      [chunk_ty]) and the judgement [script_typed]: a run whose every
      [AIMessage] has a [str] content.  Theorems, in the style of a type
      soundness proof over the machine of [Turn]: typing is preserved by
      the steps, a typed turn fails only where the agent or the store
      raises ([typed_turn_failure], [chat_typed_error]), and a run that is
      not typed fails the turn with [TypeError] at [response += ...]
      ([ill_typed_TypeError]).  The loop of [React] is typed when it
      streams dictionaries, and when it streams objects and the answers of
      the model have [str] content ([react_updates_typed],
      [react_objects_typed]).
    - [Cli].  The function [main]: the banner, the thread id, and the loop
      with its prompt, [strip], the [exit] test and [try]/[except Exception]
      around [chat].  Theorems: a pass breaks exactly on a spelling of
      [exit] between white space and has then only written the prompt
      ([loop_body_break]); the loop runs on the thread [chat_] followed by
      the eight digits of the four bytes [main] drew ([main_thread_id]);
      which lines end the loop, what can leave it
      ([EOFError] of [input()] and exceptions outside [Exception]),
      progress to the first exit line, the invariant across a whole session,
      answers printed against records stored, the form of the thread id.
    - [Agent].  [chat] and [main] over the loop of [React], for every chat
      model and every guard.  Theorems: a turn that returns has run the
      loop to a final answer and leaves the whole conversation in the
      thread ([chat_react_returns]); streamed as dictionaries no run gives
      [chat] a response ([chat_react_updates]); a model that hangs fails
      the turn at the guard and nothing is stored ([chat_react_hangs]); the
      exception of the guard is one [main] catches
      ([turn_react_returns]); streamed as objects, an answer with content
      blocks fails the turn with [TypeError] ([chat_react_blocks]), and
      with answers of [str] content a turn fails by the model, the guard or
      the store only ([chat_react_typed_error]).
    - [View].  What a turn reads of its process, as a relation between two
      runs: [view] (the collection of [self] and the thread), the
      equivalence [same_view], the relation [related] between computations
      with its rules for the operations of the monad, and [Proper]
      instances for rewriting with [same_view].  Theorems: the answer, the
      output and the store after a turn are functions of the view
      ([chat_noninterference]); a session of [main] is a function of the
      stored collection, the credentials and the input, and the thread id
      drawn from [os.urandom] changes nothing ([main_deterministic]).
    - [Document].  The string [save_to_memory] stores for a turn (line 78)
      and a reader for it ([parse_document]).  Theorems: a turn whose
      message holds no line feed is read back from its document
      ([parse_turn_document]); reading is sound; in general two turns can
      share a document.
    - [Transcript].  The store and the screen after a session, tied
      together by the invariant [recorded] of the loop.  Theorem: the
      documents [main] adds to the collection are those of a list of turns
      of the input, they parse back to these turns, and the answer lines
      printed carry the answers of the same turns, in the same order
      ([main_transcript]).
    - [Loop].  [while True] with no bound: [while_True], by well-founded
      recursion on the lines left to read (Equations), and [main_None],
      [main] with that loop.  [main_bounded]: [Cli.main] computes the same;
      this lemma relates two definitions of the development, and says that
      the bound of [Cli.main] is enough, not that the loop is right.  The
      equations of [while_True] are proved without functional
      extensionality: the development rests on no axiom.
    - [Tree].  [main] as an interaction tree over the events of the process
      ([cliE]), the loop as [ITree.iter], and the handler [h_cli] that
      answers the events from a [World].  [main_tree_run]: interpreted, the
      tree is equivalent up to silent steps to the result of [main_None],
      so the loop that nothing forces to end does end.
    - [Program].  The module from its first line: the eleven import
      statements of lines 10-20 against the modules installed
      ([exec_imports]), [load_dotenv()] of line 23, the entry guard of
      lines 121-122, composed as [project_main].  Theorems: the first
      import that fails is what the program raises; a variable of the
      environment wins over the [.env] file; credentials from either place
      start the session; imported as a module the program does nothing but
      load; the whole program keeps the store's invariant and stores a
      record per answer printed.
    - [Recall].  The memory methods composed: a sequence of saves that
      return gives the ids [conv_1 .. conv_n] in order ([save_all_records],
      for every collection), and on the reference store every turn such a
      sequence stored, [search_memory] finds first ([save_then_search]).
    - [Embedding].  The distance of the reference store in the form it has
      in the index: the squared Euclidean distance [l2] of the embeddings
      of two texts, for any embedding function of a fixed dimension.
      Theorems: the distance is zero exactly on texts with one embedding;
      a turn that was saved is found again up to the embedding
      ([search_finds_embedding]), and is found itself when the embedding
      tells the stored documents apart.
    - [Concurrent].  [save_to_memory] split at its two calls to the store
      ([writer_step]: the [get] that counts, the [add] that writes), and
      several writers on one collection run under a schedule
      ([run_schedule]).  Theorems: every schedule keeps the ids
      [conv_1 .. conv_n] and only appends ([run_schedule_wf]); writers
      served one after the other store every turn ([serial_writers]); two
      writers that both count before either adds store one turn, and both
      return ([racing_writers]).
    - [Interleave].  An abstract machine for the writers (the documents
      added, and for each writer how many it had counted), which the
      writers of [Concurrent] are proved to follow under every schedule
      ([run_schedule_refines]).  Questions about all schedules are settled
      by running the machine: of the six interleavings of two writers the
      two serial ones store both turns and the four others one
      ([two_writers_classified]).
    - [Examples].  A concrete process ([Demo]): the reference store, a
      scripted model, a search provider that echoes.  The theorems of
      [Memory], [Chat], [Startup], [Turn], [Cli] and [Recall] that have a
      hypothesis are
      applied there to a state on which the hypotheses hold by evaluation,
      and [Demo.main_session] evaluates a whole session of [main].
    - [Bots].  Four chat models for the loop of [React], in the process of
      [Examples]: one that looks the memory up and answers with what it
      found, one that asks for a search whatever it is told, one that
      cannot be reached, one that writes its requests as content blocks;
      the theorems of [React] and [Agent] applied to them.
    - [Scenarios].  The same for [Typing], [View], [Document],
      [Transcript], [Program], [Embedding], [Concurrent] and [Interleave]
      ([Run]): a
      process whose credentials come from the
      [.env] file, an installation with a module missing, a typed run that
      fails, an ill-typed run, two processes with the same store and
      nothing else in common, two writers under the serial and the racing
      schedule.

    ** State

    The process state is the record [World] of [Session]: the Chroma
    directory (collections by name, the only part that survives a restart),
    the checkpointer's threads, standard input, standard output as a list of
    events, the entropy [os.urandom] reads, the process environment
    ([os.environ]), the variables of the [.env] file and the modules
    installed, each with the names it defines.  The
    fields of [self] that are object references ([self.collection],
    [self.memory]) are handles into [World], so the aliasing between
    [self.collection] and the client's store is the model's, not a copy.
    Two writers of [Concurrent] share the one collection of [World] in the
    same way.

    ** Bounds and fuel

    [str_of_nat] runs its digit loop on fuel [S n] for the number [n]; a
    number has at most [n + 1] decimal digits, and [str_of_nat_fuel] shows
    that any larger fuel gives the same string.  An agent run is an inductive
    [script], so a run is finite by construction: [Chat] covers every
    terminating run of the runtime.  The loop of [React] takes the number
    of queries it may make, [limit]; this is the guard the design asks
    for, and it is a parameter of every theorem.  The loop without a guard
    is the relation [React.run], which [react] computes under every guard
    above half the length of the run ([React.react_refines_run]).  A hung
    call is a conversation from which the model asks for tools for ever
    ([React.hangs], an infinite sequence given as a function): no guard is
    enough there, and [react] raises at each ([React.hangs_guard]).  The
    loop of [main] is defined three times.  [Cli.main_loop] is a [Fixpoint]
    on a bound of passes that answers [None] when the bound is met.  A pass
    that does not raise takes one line of input and a turn takes none, so a
    bound above the number of lines is never met ([Cli.main_loop_fuel]);
    [Cli.main] starts the loop with [S (length (stdin w))].
    [Loop.while_True] has no bound: it recurses on the length of the input
    left, and [Loop.main_bounded] shows that the bound of [Cli.main] changes
    nothing.  [Tree.loop_tree] is [ITree.iter], which no measure justifies,
    and [Tree.main_tree_run] proves that it ends with the same result.  The
    input is a finite list: a terminal that never closes and never sends
    [exit] is the one session outside the model.  A schedule of
    [Concurrent] is a finite list of writer indices; an index with no
    writer, or with one that has finished, is a step that does nothing.

    ** What the modelling found

    Behaviours of the code that differ from what its texts or the
    specification promise; each is a theorem.  [search_memory] never gives
    its second answer, because a query result holds one row per query text
    and is never empty ([Memory.search_memory_never_no_relevant]).  [chat]
    returns the empty string when the stream yields node updates, which are
    not [AIMessage] objects ([Chat.chat_no_AIMessage]), and fails with
    [TypeError] when an [AIMessage] carries content blocks
    ([Typing.ill_typed_TypeError]).  A failed save fails the turn
    ([Chat.chat_save_failure]).  A save whose id is taken returns and
    stores nothing ([Memory.save_to_memory_collision]), which is how two
    writers that interleave lose a turn ([Concurrent.racing_writers],
    [Interleave.two_writers_classified]).  The document of a turn, which
    the specification calls an irreversible concatenation, determines the
    turn for every message [main] passes
    ([Document.parse_turn_document]).  A search for a stored turn finds a
    document with its embedding, which is another document when more than
    two share it ([Embedding.search_finds_embedding]).  The loop of [main] ends on end of
    input and on an interrupt ([Cli.main_loop_escape]).  [load_dotenv()] does not replace a variable
    the environment already has ([Program.load_dotenv_environ]), a missing
    credential is reported by the constructor after the collection has been
    created ([Program.project_main_no_credential]), and a missing package
    stops the program before any of it runs
    ([Program.project_main_import]).

    ** Not modelled

    The language model's choice of words and tools (a [script], and in
    [React] a [policy], is universally quantified in every theorem; the
    model is a function of the messages of the thread, so sampling at
    temperature 0.7 is a choice of that function, made once), a call of
    the model that never returns (a call returns or raises), the search
    provider, the values of Chroma's embedding function (an embedding is
    a parameter of [Embedding], a distance a parameter of [ListStore]) and
    the approximation its index makes when it searches, the text
    that [print(chunk)] renders (the event carries the chunk), signals other
    than the exceptions listed in [exn_class], the code that runs inside the
    imported packages when they are imported (an import binds names or
    raises), the syntax of the [.env] file (the file is the map of its
    variables), and threads inside one process: the program starts none,
    and [Concurrent] interleaves the store calls of several writers, not
    the statements between them.  A store that cannot be opened is not
    modelled either: [chromadb.Client] and [get_or_create_collection]
    return in every state, so the error of the design for a directory out
    of reach has no path in [init], lines 49-63 build the tools and the
    agent without a failure of their own, and an [add] that raises leaves
    the collection as it was.  The process has one checkpointer, which
    [MemorySaver()] empties; [main] constructs the agent once, so no second
    checkpointer is observed.  The names and descriptions of the tools of
    the libraries are constants of the model.  Lines 1-9 of the source are
    its docstring. *)

From Stdlib Require Import Ascii.
From stdpp Require Import base tactics option list numbers strings.

Declare Scope py_scope.
Delimit Scope py_scope with py.

(** ** Exceptions as values *)

(** The exception classes the program can meet.  [OtherError] stands for the
    classes the libraries define (all of them subclasses of [Exception]). *)
Inductive exn_class : Type :=
| KeyboardInterrupt
| SystemExit
| EOFError
| TypeError
| ValueError
| OtherError (name : string).

Record exn : Type := Exn { exn_cls : exn_class; exn_msg : string }.

(** [isinstance(e, Exception)]: what [except Exception] catches. *)
Definition is_Exception (e : exn) : bool :=
  match exn_cls e with
  | KeyboardInterrupt | SystemExit => false
  | _ => true
  end.

#[global] Instance exn_class_eq_dec : EqDecision exn_class.
Proof. solve_decision. Defined.

#[global] Instance exn_eq_dec : EqDecision exn.
Proof. solve_decision. Defined.

Inductive result (A : Type) : Type :=
| Ok (a : A)
| Err (e : exn).
Arguments Ok {A} a.
Arguments Err {A} e.

#[global] Instance result_eq_dec {A} `{EqDecision A} : EqDecision (result A).
Proof. solve_decision. Defined.

#[global] Instance result_ret : MRet result := @Ok.

#[global] Instance result_bind : MBind result := λ A B f m,
  match m with Ok a => f a | Err e => Err e end.

#[global] Instance result_fmap : FMap result := λ A B f m,
  match m with Ok a => Ok (f a) | Err e => Err e end.

Definition is_Ok {A} (r : result A) : bool :=
  match r with Ok _ => true | Err _ => false end.

Definition result_to_option {A} (r : result A) : option A :=
  match r with Ok a => Some a | Err _ => None end.

(** ** The state-and-exception monad

    A computation takes the state and gives a result and the state it left:
    a raised exception keeps the writes made before it. *)
Definition SE (S A : Type) : Type := S → result A * S.

Section se.
Context {S : Type}.

Definition se_ret {A} (a : A) : SE S A := λ s, (Ok a, s).

Definition se_bind {A B} (f : A → SE S B) (m : SE S A) : SE S B := λ s,
  match m s with
  | (Ok a, s') => f a s'
  | (Err e, s') => (Err e, s')
  end.

Definition se_get : SE S S := λ s, (Ok s, s).

Definition se_gets {A} (f : S → A) : SE S A := λ s, (Ok (f s), s).

Definition se_put (s' : S) : SE S unit := λ _, (Ok tt, s').

Definition se_modify (f : S → S) : SE S unit := λ s, (Ok tt, f s).

Definition se_raise {A} (e : exn) : SE S A := λ s, (Err e, s).

(** A [result] computed without touching the state. *)
Definition se_lift {A} (r : result A) : SE S A := λ s, (r, s).

(** [try: m except Exception as e: h e].  An exception that is not an
    [Exception] passes through. *)
Definition se_try {A} (m : SE S A) (h : exn → SE S A) : SE S A := λ s,
  match m s with
  | (Ok a, s') => (Ok a, s')
  | (Err e, s') => if is_Exception e then h e s' else (Err e, s')
  end.

End se.

#[global] Instance se_mret {S} : MRet (SE S) := @se_ret S.
#[global] Instance se_mbind {S} : MBind (SE S) := @se_bind S.

(** ** Run equations *)

Section se_lemmas.
Context {S : Type}.
Implicit Types s : S.

Lemma run_ret {A} (a : A) s : (mret a : SE S A) s = (Ok a, s).
Proof. reflexivity. Qed.

Lemma run_bind {A B} (m : SE S A) (f : A → SE S B) s :
  (m ≫= f) s =
  match m s with (Ok a, s') => f a s' | (Err e, s') => (Err e, s') end.
Proof. reflexivity. Qed.

Lemma run_bind_ok {A B} (m : SE S A) (f : A → SE S B) s a s' :
  m s = (Ok a, s') → (m ≫= f) s = f a s'.
Proof. intros H. rewrite run_bind, H. reflexivity. Qed.

Lemma run_bind_err {A B} (m : SE S A) (f : A → SE S B) s e s' :
  m s = (Err e, s') → (m ≫= f) s = (Err e, s').
Proof. intros H. rewrite run_bind, H. reflexivity. Qed.

Lemma run_gets {A} (f : S → A) s : se_gets f s = (Ok (f s), s).
Proof. reflexivity. Qed.

Lemma run_modify (f : S → S) s : se_modify f s = (Ok tt, f s).
Proof. reflexivity. Qed.

Lemma run_raise {A} e s : (se_raise e : SE S A) s = (Err e, s).
Proof. reflexivity. Qed.

Lemma run_lift {A} (r : result A) s : se_lift r s = (r, s).
Proof. reflexivity. Qed.

Lemma run_try {A} (m : SE S A) h s :
  se_try m h s =
  match m s with
  | (Ok a, s') => (Ok a, s')
  | (Err e, s') => if is_Exception e then h e s' else (Err e, s')
  end.
Proof. reflexivity. Qed.

(** The monad laws, pointwise. *)
Lemma se_left_id {A B} (a : A) (f : A → SE S B) s : (mret a ≫= f) s = f a s.
Proof. reflexivity. Qed.

Lemma se_right_id {A} (m : SE S A) s : (m ≫= mret) s = m s.
Proof. rewrite run_bind. destruct (m s) as [[a|e] s']; reflexivity. Qed.

Lemma se_assoc {A B C} (m : SE S A) (f : A → SE S B) (g : B → SE S C) s :
  ((m ≫= f) ≫= g) s = (m ≫= (λ a, f a ≫= g)) s.
Proof. rewrite !run_bind. destruct (m s) as [[a|e] s']; reflexivity. Qed.

(** A bind that succeeds ran both halves. *)
Lemma run_bind_Ok_inv {A B} (m : SE S A) (f : A → SE S B) s b s2 :
  (m ≫= f) s = (Ok b, s2) →
  ∃ a s1, m s = (Ok a, s1) ∧ f a s1 = (Ok b, s2).
Proof.
  rewrite run_bind. destruct (m s) as [[a|e] s1]; [eauto | discriminate].
Qed.

(** A bind that fails failed in one of its halves. *)
Lemma run_bind_Err_inv {A B} (m : SE S A) (f : A → SE S B) s e s2 :
  (m ≫= f) s = (Err e, s2) →
  m s = (Err e, s2) ∨ ∃ a s1, m s = (Ok a, s1) ∧ f a s1 = (Err e, s2).
Proof.
  rewrite run_bind. destruct (m s) as [[a|e'] s1]; [eauto | intros [= -> ->]; eauto].
Qed.

(** [except Exception] never lets an [Exception] through when the handler
    itself returns. *)
Lemma run_try_caught {A} (m : SE S A) h s e s' :
  m s = (Err e, s') → is_Exception e = true → se_try m h s = h e s'.
Proof. intros Hm He. rewrite run_try, Hm, He. reflexivity. Qed.

Lemma run_try_passes {A} (m : SE S A) h s e s' :
  m s = (Err e, s') → is_Exception e = false → se_try m h s = (Err e, s').
Proof. intros Hm He. rewrite run_try, Hm, He. reflexivity. Qed.

End se_lemmas.

Create Rewrite HintDb se.
Create Rewrite HintDb pystr.
#[export] Hint Rewrite @run_ret @run_bind @run_gets @run_modify @run_raise
  @run_lift @run_try : se.

(** ** Tactics *)

(** Unfold the monad's operations in the goal and compute. *)
Ltac se_simp :=
  repeat (progress (autorewrite with se; cbn [fst snd]));
  try reflexivity.

(** Invert equations between results and between result/state pairs. *)
Ltac inv_ok :=
  repeat match goal with
  | H : Ok _ = Ok _ |- _ => injection H as H; subst
  | H : Err _ = Err _ |- _ => injection H as H; subst
  | H : (_, _) = (_, _) |- _ => injection H as ? ?; subst
  | H : Ok _ = Err _ |- _ => discriminate H
  | H : Err _ = Ok _ |- _ => discriminate H
  end.

(** Case analysis on the run of the computation the goal matches on. *)
Ltac case_run :=
  match goal with
  | |- context [match ?m ?s with (_, _) => _ end] =>
      let r := fresh "r" in let s' := fresh "s" in let E := fresh "Hrun" in
      destruct (m s) as [r s'] eqn:E; destruct r
  end.

(** A run is its result and the state it leaves. *)
Lemma run_eq_fst {S A} (p : result A * S) (r : result A) : p.1 = r → p = (r, p.2).
Proof. destruct p. cbn. by intros ->. Qed.

(** A closed goal, by evaluation.  Of an equation [m s = (r, (m s).2)] the
    result alone is evaluated: the states hold functions, whose normal
    forms are large. *)
Ltac by_compute :=
  first [ apply run_eq_fst; vm_compute; reflexivity | by vm_compute ].

(** ** Strings *)

Lemma string_app_cons (a : ascii) (s t : string) :
  String a s +:+ t = String a (s +:+ t).
Proof. reflexivity. Qed.

Lemma string_app_nil_r (s : string) : s +:+ "" = s.
Proof. induction s; [reflexivity | rewrite string_app_cons; by f_equal]. Qed.

Lemma string_app_nil_l (s : string) : "" +:+ s = s.
Proof. reflexivity. Qed.

Lemma string_app_assoc (s t u : string) : (s +:+ t) +:+ u = s +:+ (t +:+ u).
Proof. induction s; [reflexivity | rewrite !string_app_cons; by f_equal]. Qed.

Lemma string_app_length (s t : string) :
  String.length (s +:+ t) = String.length s + String.length t.
Proof. induction s; [reflexivity | rewrite string_app_cons; cbn; by f_equal]. Qed.

Lemma string_app_eq_nil (s t : string) : s +:+ t = "" → s = "" ∧ t = "".
Proof. destruct s; [rewrite string_app_nil_l; by intros -> | discriminate]. Qed.

(** Two concatenations that agree, with left parts of equal length, agree
    part by part. *)
Lemma string_app_inj_length (s1 s2 t1 t2 : string) :
  String.length s1 = String.length s2 →
  s1 +:+ t1 = s2 +:+ t2 → s1 = s2 ∧ t1 = t2.
Proof.
  revert s2. induction s1 as [|a s1 IH]; intros [|b s2] Hlen Heq;
    try discriminate; [by rewrite !string_app_nil_l in Heq|].
  rewrite !string_app_cons in Heq. injection Heq as -> Heq. injection Hlen as Hlen.
  destruct (IH _ Hlen Heq) as [-> ->]. done.
Qed.

#[export] Hint Rewrite string_app_nil_r string_app_nil_l string_app_cons
  string_app_assoc string_app_length : pystr.

(** ** Lists *)

(** The list [a, a+1, ..., a+n] is [a, ..., a+n-1] followed by [a+n]. *)
Lemma fmap_seq_snoc {B} (f : nat → B) (a n : nat) :
  f <$> seq a (S n) = (f <$> seq a n) ++ [f (a + n)].
Proof. by rewrite seq_S, fmap_app. Qed.

(** What holds of the elements of a list holds of those of a sublist. *)
Lemma Forall_sublist {A} (P : A → Prop) (l k : list A) :
  l `sublist_of` k → Forall P k → Forall P l.
Proof.
  induction 1 as [|x l k _ IH|x l k _ IH]; [done|..];
    intros [Hx Hk]%Forall_cons; [apply Forall_cons|]; auto.
Qed.

Lemma NoDup_fmap_seq {B} (f : nat → B) `{!Inj (=) (=) f} (a n : nat) :
  NoDup (f <$> seq a n).
Proof. apply NoDup_fmap_2; [done | apply NoDup_seq]. Qed.
