(* ===== verification/PyStr.v ===== *)
(** * PyStr: the Python builtins that [project_main.py] calls

    - [Dec]: [str(n)] for a non-negative integer, as the f-string of
      [save_to_memory] renders [len(ids) + 1] (line 79), with the parser
      [nat_of_str] ([int(s)] on a digit string) that inverts it.
    - [Text]: ["\n".join(xs)] (line 72), [s.strip()] (line 110) and
      [s.lower()] (line 111) on 8-bit characters.
    - [Hex]: [bytes.hex()] (line 107).

    Every function is executable; the theorems are the facts the components
    need: the decimal rendering is injective, [strip] and [lower] are
    idempotent and are characterised, [hex] doubles the length and is
    injective. *)

From Stdlib Require Import Ascii.
From Stdlib.Strings Require Import Byte.
From stdpp Require Import base tactics option list numbers strings.
From S2P Require Import Prelude.

(** ** Decimal rendering *)

Module Dec.

(** The character of a decimal digit; values above 9 do not occur. *)
Definition digit_char (d : nat) : ascii :=
  match d with
  | 0 => "0" | 1 => "1" | 2 => "2" | 3 => "3" | 4 => "4"
  | 5 => "5" | 6 => "6" | 7 => "7" | 8 => "8" | _ => "9"
  end%char.

(** The value of a digit character. *)
Definition digit_val (c : ascii) : option nat := Ascii.is_nat c.

(** The digit loop: the least significant digit is pushed in front of the
    accumulator until the number is below ten. *)
Fixpoint str_of_nat_go (fuel n : nat) (acc : string) : string :=
  match fuel with
  | 0 => acc
  | S fuel' =>
      let acc' := String (digit_char (n mod 10)) acc in
      if n <? 10 then acc' else str_of_nat_go fuel' (n / 10) acc'
  end.

(** [str(n)]. *)
Definition str_of_nat (n : nat) : string := str_of_nat_go (S n) n "".

(** [int(s)] on a string of decimal digits, most significant first. *)
Fixpoint nat_of_str_go (s : string) (acc : nat) : option nat :=
  match s with
  | "" => Some acc
  | String c s' => d ← digit_val c; nat_of_str_go s' (10 * acc + d)
  end.

Definition nat_of_str (s : string) : option nat :=
  match s with
  | "" => None
  | _ => nat_of_str_go s 0
  end.

(** Every character is a decimal digit. *)
Fixpoint all_digits (s : string) : bool :=
  match s with
  | "" => true
  | String c s' => bool_decide (is_Some (digit_val c)) && all_digits s'
  end.

(** *** Lemmas *)

Lemma digit_val_char (d : nat) : d < 10 → digit_val (digit_char d) = Some d.
Proof. intros H. do 10 (destruct d as [|d]; [reflexivity|]). lia. Qed.

Lemma digit_char_inj (d1 d2 : nat) :
  d1 < 10 → d2 < 10 → digit_char d1 = digit_char d2 → d1 = d2.
Proof.
  intros H1 H2 Heq. apply (f_equal digit_val) in Heq.
  rewrite !digit_val_char in Heq by done. congruence.
Qed.

(** The accumulator is a suffix of the loop's result. *)
Lemma str_of_nat_go_acc (fuel n : nat) (acc : string) :
  str_of_nat_go fuel n acc = str_of_nat_go fuel n "" +:+ acc.
Proof.
  revert n acc. induction fuel as [|fuel IH]; intros n acc; [reflexivity|].
  cbn [str_of_nat_go]. destruct (n <? 10); [reflexivity|].
  rewrite IH, (IH _ (String _ "")), string_app_assoc. reflexivity.
Qed.

(** One unfolding of the loop, with the fuel it needs. *)
Lemma str_of_nat_go_step (fuel n : nat) :
  n < fuel →
  str_of_nat_go fuel n "" =
  if n <? 10 then String (digit_char n) ""
  else str_of_nat_go (fuel - 1) (n / 10) "" +:+ String (digit_char (n mod 10)) "".
Proof.
  intros Hf. destruct fuel as [|fuel]; [lia|]. cbn [str_of_nat_go].
  replace (S fuel - 1) with fuel by lia.
  destruct (Nat.ltb_spec n 10) as [Hn|Hn].
  - by rewrite Nat.mod_small.
  - apply str_of_nat_go_acc.
Qed.

(** Fuel above the number is enough: more fuel changes nothing. *)
Lemma str_of_nat_go_fuel (fuel1 fuel2 n : nat) :
  n < fuel1 → n < fuel2 →
  str_of_nat_go fuel1 n "" = str_of_nat_go fuel2 n "".
Proof.
  revert fuel1 fuel2. induction (lt_wf n) as [n _ IH]. intros f1 f2 H1 H2.
  rewrite (str_of_nat_go_step f1), (str_of_nat_go_step f2) by done.
  destruct (Nat.ltb_spec n 10) as [Hn|Hn]; [reflexivity|].
  assert (n / 10 < n) by (apply Nat.div_lt; lia).
  f_equal. apply IH; lia.
Qed.

Lemma nat_of_str_go_snoc (s : string) (c : ascii) (acc : nat) :
  nat_of_str_go (s +:+ String c "") acc =
  v ← nat_of_str_go s acc; d ← digit_val c; Some (10 * v + d).
Proof.
  revert acc. induction s as [|c' s IH]; intros acc.
  - rewrite string_app_nil_l. cbn. by destruct (digit_val c).
  - rewrite string_app_cons. cbn [nat_of_str_go].
    destruct (digit_val c'); [apply IH | reflexivity].
Qed.

Lemma all_digits_app (s t : string) :
  all_digits (s +:+ t) = all_digits s && all_digits t.
Proof.
  induction s as [|c s IH]; [reflexivity|].
  rewrite string_app_cons. cbn [all_digits]. by rewrite IH, andb_assoc.
Qed.

(** Any fuel above the number computes [str_of_nat]. *)
Lemma str_of_nat_fuel (fuel n : nat) :
  n < fuel → str_of_nat_go fuel n "" = str_of_nat n.
Proof. intros H. apply str_of_nat_go_fuel; lia. Qed.

(** The loop with its accumulator computes the recursive definition: the
    rendering of [n / 10] followed by the last digit. *)
Lemma str_of_nat_unfold (n : nat) :
  str_of_nat n =
  if n <? 10 then String (digit_char n) ""
  else str_of_nat (n / 10) +:+ String (digit_char (n mod 10)) "".
Proof.
  unfold str_of_nat at 1. rewrite str_of_nat_go_step by lia.
  destruct (Nat.ltb_spec n 10) as [Hn|Hn]; [reflexivity|].
  f_equal. apply str_of_nat_fuel.
  assert (n / 10 < n) by (apply Nat.div_lt; lia). lia.
Qed.

Lemma str_of_nat_nonempty (n : nat) : str_of_nat n ≠ "".
Proof.
  rewrite str_of_nat_unfold. destruct (n <? 10); [done|].
  intros [_ [=]]%string_app_eq_nil.
Qed.

Lemma nat_of_str_go_of_nat (n : nat) : nat_of_str_go (str_of_nat n) 0 = Some n.
Proof.
  induction (lt_wf n) as [n _ IH]. rewrite str_of_nat_unfold.
  destruct (Nat.ltb_spec n 10) as [Hn|Hn].
  - cbn. rewrite digit_val_char by done. cbn. f_equal; lia.
  - rewrite nat_of_str_go_snoc, IH by (apply Nat.div_lt; lia).
    unfold mbind, option_bind.
    rewrite digit_val_char by (apply Nat.mod_upper_bound; lia).
    f_equal; symmetry; apply Nat.div_mod_eq.
Qed.

(** Round trip: parsing the decimal rendering of [n], as [int(str(n))]
    does, gives [n] back. *)
Theorem nat_of_str_of_nat (n : nat) : nat_of_str (str_of_nat n) = Some n.
Proof.
  pose proof (str_of_nat_nonempty n) as Hne.
  pose proof (nat_of_str_go_of_nat n) as Hgo.
  unfold nat_of_str. by destruct (str_of_nat n).
Qed.

(** The decimal rendering is injective: two counts never share a string. *)
#[global] Instance str_of_nat_inj : Inj (=) (=) str_of_nat.
Proof.
  intros n m Heq. apply (f_equal (λ s, nat_of_str_go s 0)) in Heq.
  rewrite !nat_of_str_go_of_nat in Heq. congruence.
Qed.

(** The rendering holds decimal digits only. *)
Lemma str_of_nat_all_digits (n : nat) : all_digits (str_of_nat n) = true.
Proof.
  induction (lt_wf n) as [n _ IH]. rewrite str_of_nat_unfold.
  destruct (Nat.ltb_spec n 10) as [Hn|Hn].
  - cbn. rewrite digit_val_char by done. reflexivity.
  - rewrite all_digits_app, IH by (apply Nat.div_lt; lia). cbn [all_digits].
    rewrite digit_val_char by (apply Nat.mod_upper_bound; lia). reflexivity.
Qed.

(** No leading zero, except for zero itself. *)
Lemma str_of_nat_leading (n : nat) :
  0 < n → ∃ c s, str_of_nat n = String c s ∧ c ≠ "0"%char.
Proof.
  induction (lt_wf n) as [n _ IH]. intros Hpos. rewrite str_of_nat_unfold.
  destruct (Nat.ltb_spec n 10) as [Hn|Hn].
  - eexists _, _. split; [reflexivity|].
    intros Hc. apply (digit_char_inj n 0) in Hc; lia.
  - destruct (IH (n / 10)) as (c & s & -> & Hc).
    + apply Nat.div_lt; lia.
    + apply Nat.div_str_pos; lia.
    + rewrite string_app_cons. eauto.
Qed.

Example str_of_nat_examples :
  str_of_nat 0 = "0" ∧ str_of_nat 7 = "7" ∧ str_of_nat 10 = "10" ∧
  str_of_nat 1203 = "1203".
Proof. by vm_compute. Qed.

End Dec.

(** ** Text: join, strip, lower *)

Module Text.

(** [sep.join(xs)]. *)
Definition join (sep : string) (xs : list string) : string :=
  String.concat sep xs.

(** [c.isspace()] on a code point below 256 that is ASCII: tab, line feed,
    vertical tab, form feed, carriage return, the four separators 28 to 31
    and the space. *)
Definition is_space (c : ascii) : bool :=
  let n := nat_of_ascii c in
  (9 <=? n) && (n <=? 13) || (28 <=? n) && (n <=? 32).

Fixpoint all_space (s : string) : bool :=
  match s with
  | "" => true
  | String c s' => is_space c && all_space s'
  end.

(** [s.lstrip()]: drop the leading white space. *)
Fixpoint lstrip (s : string) : string :=
  match s with
  | "" => ""
  | String c s' => if is_space c then lstrip s' else s
  end.

(** [s.rstrip()]: drop the trailing white space. *)
Fixpoint rstrip (s : string) : string :=
  match s with
  | "" => ""
  | String c s' =>
      match rstrip s' with
      | "" => if is_space c then "" else String c ""
      | r => String c r
      end
  end.

(** [s.strip()]. *)
Definition strip (s : string) : string := rstrip (lstrip s).

(** A string with no white space at either end. *)
Definition stripped (s : string) : Prop := lstrip s = s ∧ rstrip s = s.

(** [c.lower()] on an ASCII letter; any other character is kept. *)
Definition lower_char (c : ascii) : ascii :=
  let n := nat_of_ascii c in
  if (65 <=? n) && (n <=? 90) then ascii_of_nat (n + 32) else c.

(** [s.lower()]. *)
Fixpoint lower (s : string) : string :=
  match s with
  | "" => ""
  | String c s' => String (lower_char c) (lower s')
  end.

(** *** join *)

Lemma join_nil (sep : string) : join sep [] = "".
Proof. reflexivity. Qed.

Lemma join_singleton (sep x : string) : join sep [x] = x.
Proof. reflexivity. Qed.

Lemma join_cons (sep x y : string) (xs : list string) :
  join sep (x :: y :: xs) = x +:+ sep +:+ join sep (y :: xs).
Proof. reflexivity. Qed.

(** ["".join(x :: xs)] is [x] followed by ["".join(xs)]. *)
Lemma join_empty_cons (x : string) (xs : list string) :
  join "" (x :: xs) = x +:+ join "" xs.
Proof.
  destruct xs as [|y xs]; [by rewrite join_singleton, join_nil, string_app_nil_r|].
  by rewrite join_cons, string_app_nil_l.
Qed.

(** The length of a join: the parts and one separator between neighbours. *)
Lemma join_length (sep : string) (xs : list string) :
  String.length (join sep xs) =
  sum_list (String.length <$> xs) + String.length sep * (length xs - 1).
Proof.
  induction xs as [|x [|y xs] IH]; [cbn; lia | cbn; lia |].
  rewrite join_cons, !string_app_length, IH. cbn. lia.
Qed.

(** *** strip *)

Lemma all_space_app (s t : string) :
  all_space (s +:+ t) = all_space s && all_space t.
Proof.
  induction s as [|c s IH]; [reflexivity|].
  rewrite string_app_cons. cbn [all_space]. by rewrite IH, andb_assoc.
Qed.

Lemma lstrip_all_space (ws s : string) :
  all_space ws = true → lstrip (ws +:+ s) = lstrip s.
Proof.
  induction ws as [|c ws IH]; [done|]. cbn [all_space].
  intros [Hc Hws]%andb_prop. rewrite string_app_cons. cbn [lstrip].
  rewrite Hc. auto.
Qed.

Lemma rstrip_all_space_nil (ws : string) : all_space ws = true → rstrip ws = "".
Proof.
  induction ws as [|c ws IH]; [done|]. cbn [all_space rstrip].
  intros [Hc Hws]%andb_prop. by rewrite IH, Hc.
Qed.

Lemma rstrip_nil_all_space (s : string) : rstrip s = "" → all_space s = true.
Proof.
  induction s as [|c s IH]; [done|]. cbn [all_space rstrip].
  destruct (rstrip s); [|discriminate].
  destruct (is_space c); [auto | discriminate].
Qed.

Lemma rstrip_all_space (s ws : string) :
  all_space ws = true → rstrip (s +:+ ws) = rstrip s.
Proof.
  intros Hws. induction s as [|c s IH].
  - rewrite string_app_nil_l. by apply rstrip_all_space_nil.
  - rewrite string_app_cons. cbn [rstrip]. by rewrite IH.
Qed.

(** What [lstrip] removes is white space. *)
Lemma lstrip_decompose (s : string) :
  ∃ ws, all_space ws = true ∧ s = ws +:+ lstrip s.
Proof.
  induction s as [|c s (ws & Hws & IH)]; [by exists ""|]. cbn [lstrip].
  destruct (is_space c) eqn:Hc; [|by exists ""].
  exists (String c ws). cbn [all_space]. rewrite Hc, Hws, string_app_cons.
  by rewrite <- IH.
Qed.

(** What [rstrip] removes is white space. *)
Lemma rstrip_decompose (s : string) :
  ∃ ws, all_space ws = true ∧ s = rstrip s +:+ ws.
Proof.
  induction s as [|c s (ws & Hws & IH)]; [by exists ""|]. cbn [rstrip].
  destruct (rstrip s) as [|c' r] eqn:Hr.
  - rewrite string_app_nil_l in IH. subst ws.
    destruct (is_space c) eqn:Hc.
    + exists (String c s). cbn [all_space]. by rewrite Hc, Hws.
    + exists s. by rewrite string_app_cons.
  - exists ws. split; [done|]. by rewrite string_app_cons, <- IH.
Qed.

Lemma lstrip_idem (s : string) : lstrip (lstrip s) = lstrip s.
Proof.
  induction s as [|c s IH]; [done|]. cbn [lstrip].
  destruct (is_space c) eqn:Hc; [done|]. cbn [lstrip]. by rewrite Hc.
Qed.

Lemma rstrip_idem (s : string) : rstrip (rstrip s) = rstrip s.
Proof.
  induction s as [|c s IH]; [done|]. cbn [rstrip].
  destruct (rstrip s) as [|c' r] eqn:Hr.
  - destruct (is_space c) eqn:Hc; [done|]. cbn [rstrip]. by rewrite Hc.
  - cbn [rstrip] in *. rewrite IH. reflexivity.
Qed.

(** [rstrip] keeps a first character that is not white space. *)
Lemma lstrip_rstrip_fixed (s : string) : lstrip s = s → lstrip (rstrip s) = rstrip s.
Proof.
  destruct s as [|c s]; [done|]. cbn [lstrip rstrip].
  destruct (is_space c) eqn:Hc.
  - intros Heq. apply (f_equal String.length) in Heq.
    destruct (lstrip_decompose s) as (ws & _ & Hs).
    apply (f_equal String.length) in Hs. rewrite string_app_length in Hs.
    cbn in Heq. lia.
  - intros _. destruct (rstrip s); cbn [lstrip]; by rewrite Hc.
Qed.

(** The result of [strip] has no white space at either end. *)
Lemma strip_stripped (s : string) : stripped (strip s).
Proof.
  split; unfold strip.
  - apply lstrip_rstrip_fixed, lstrip_idem.
  - apply rstrip_idem.
Qed.

(** [strip] removes white space and nothing else. *)
Lemma strip_decompose (s : string) :
  ∃ ws1 ws2, all_space ws1 = true ∧ all_space ws2 = true ∧
             s = ws1 +:+ strip s +:+ ws2.
Proof.
  destruct (lstrip_decompose s) as (ws1 & H1 & Hs).
  destruct (rstrip_decompose (lstrip s)) as (ws2 & H2 & Hl).
  exists ws1, ws2. unfold strip. by rewrite <- Hl.
Qed.

(** White space around a stripped core is removed and the core is
    returned. *)
Lemma strip_app (ws1 core ws2 : string) :
  all_space ws1 = true → all_space ws2 = true → stripped core →
  strip (ws1 +:+ core +:+ ws2) = core.
Proof.
  intros H1 H2 [Hl Hr]. unfold strip.
  rewrite lstrip_all_space by done.
  destruct (lstrip_decompose (core +:+ ws2)) as (ws & Hws & Heq).
  destruct core as [|c core].
  - rewrite string_app_nil_l in *. rewrite rstrip_all_space_nil; [done|].
    rewrite Heq, all_space_app in H2. by apply andb_prop in H2 as [_ ?].
  - rewrite string_app_cons. cbn [lstrip] in Hl |- *.
    destruct (is_space c) eqn:Hc.
    + apply (f_equal String.length) in Hl.
      destruct (lstrip_decompose core) as (ws' & _ & Hcore).
      apply (f_equal String.length) in Hcore.
      rewrite string_app_length in Hcore. cbn in Hl. lia.
    + rewrite <- string_app_cons, rstrip_all_space by done. exact Hr.
Qed.

(** The characterisation of [str.strip]: the result is the one string with
    no white space at either end that the argument holds between two runs
    of white space. *)
Theorem strip_spec (s core : string) :
  strip s = core ↔
  stripped core ∧
  ∃ ws1 ws2, all_space ws1 = true ∧ all_space ws2 = true ∧
             s = ws1 +:+ core +:+ ws2.
Proof.
  split.
  - intros <-. split; [apply strip_stripped | apply strip_decompose].
  - intros (Hc & ws1 & ws2 & H1 & H2 & ->). by apply strip_app.
Qed.

(** [strip] is idempotent: a stripped line strips to itself. *)
Theorem strip_idem (s : string) : strip (strip s) = strip s.
Proof.
  destruct (strip_stripped s) as [Hl Hr]. unfold strip at 1. by rewrite Hl, Hr.
Qed.

(** A string of white space strips to the empty string, and only such a
    string does. *)
Lemma strip_nil_iff (s : string) : strip s = "" ↔ all_space s = true.
Proof.
  split.
  - intros H. destruct (strip_decompose s) as (ws1 & ws2 & H1 & H2 & Hs).
    rewrite Hs, H, string_app_nil_l, all_space_app, H1, H2. reflexivity.
  - intros H. unfold strip.
    destruct (lstrip_decompose s) as (ws & Hws & Heq).
    apply rstrip_all_space_nil.
    rewrite Heq, all_space_app in H. by apply andb_prop in H as [_ ?].
Qed.

(** *** lower *)

Lemma lower_char_idem (c : ascii) : lower_char (lower_char c) = lower_char c.
Proof. destruct c as [[] [] [] [] [] [] [] []]; reflexivity. Qed.

Lemma lower_idem (s : string) : lower (lower s) = lower s.
Proof.
  induction s as [|c s IH]; [done|]. cbn [lower].
  by rewrite lower_char_idem, IH.
Qed.

Lemma lower_length (s : string) : String.length (lower s) = String.length s.
Proof. induction s as [|c s IH]; [done|]. cbn. by rewrite IH. Qed.

Lemma lower_app (s t : string) : lower (s +:+ t) = lower s +:+ lower t.
Proof.
  induction s as [|c s IH]; [done|].
  rewrite string_app_cons. cbn [lower]. by rewrite IH, string_app_cons.
Qed.

(** The characters that [lower] sends to a given lower-case letter are the
    letter and its capital. *)
Lemma lower_char_letter (c l : ascii) :
  97 ≤ nat_of_ascii l ≤ 122 →
  lower_char c = l ↔ c = l ∨ nat_of_ascii c + 32 = nat_of_ascii l.
Proof.
  intros Hl. unfold lower_char.
  destruct ((65 <=? nat_of_ascii c) && (nat_of_ascii c <=? 90)) eqn:Hup.
  - apply andb_prop in Hup as [H1%Nat.leb_le H2%Nat.leb_le]. split.
    + intros <-. right. rewrite nat_ascii_embedding; lia.
    + intros [-> | Heq]; [lia|].
      rewrite Heq. apply ascii_nat_embedding.
  - split; [by left|]. intros [-> | Heq]; [done|].
    apply andb_false_iff in Hup as [H%Nat.leb_gt | H%Nat.leb_gt]; lia.
Qed.

End Text.

(** ** Hexadecimal rendering of bytes *)

Module Hex.

(** The lower-case hexadecimal digit of a value below sixteen. *)
Definition hex_digit (n : nat) : ascii :=
  match n with
  | 0 => "0" | 1 => "1" | 2 => "2" | 3 => "3" | 4 => "4" | 5 => "5"
  | 6 => "6" | 7 => "7" | 8 => "8" | 9 => "9" | 10 => "a" | 11 => "b"
  | 12 => "c" | 13 => "d" | 14 => "e" | _ => "f"
  end%char.

(** The characters [0] to [9] and [a] to [f], by their codes (48 to 57 and
    97 to 102): the alphabet of [bytes.hex()]. *)
Definition is_hex_lower (c : ascii) : bool :=
  let n := nat_of_ascii c in
  (48 <=? n) && (n <=? 57) || (97 <=? n) && (n <=? 102).

(** [int(c, 16)]: the value of a hexadecimal character, read from its
    code.  The letters count in both cases, as for [bytes.fromhex]. *)
Definition hex_val (c : ascii) : option nat :=
  let n := nat_of_ascii c in
  if (48 <=? n) && (n <=? 57) then Some (n - 48)
  else if (97 <=? n) && (n <=? 102) then Some (n - 87)
  else if (65 <=? n) && (n <=? 70) then Some (n - 55)
  else None.

(** Two digits per byte, the high nibble first. *)
Definition hex_byte (b : Byte.byte) : string :=
  let n := Byte.to_nat b in
  String (hex_digit (n / 16)) (String (hex_digit (n mod 16)) "").

(** [bs.hex()]. *)
Fixpoint hex (bs : list Byte.byte) : string :=
  match bs with
  | [] => ""
  | b :: bs' => hex_byte b +:+ hex bs'
  end.

(** [bytes.fromhex(s)]: the inverse, defined on strings of digit pairs. *)
Fixpoint unhex (s : string) : option (list Byte.byte) :=
  match s with
  | "" => Some []
  | String c1 (String c2 s') =>
      h ← hex_val c1; l ← hex_val c2;
      b ← Byte.of_nat (16 * h + l);
      bs ← unhex s'; Some (b :: bs)
  | _ => None
  end.

(** A string of characters of [0123456789abcdef]. *)
Fixpoint all_hex (s : string) : bool :=
  match s with
  | "" => true
  | String c s' => is_hex_lower c && all_hex s'
  end.

(** The digit of a value below sixteen is a character of the alphabet, and
    its value is read back from its code. *)
Lemma hex_digit_val (n : nat) :
  n < 16 → is_hex_lower (hex_digit n) = true ∧ hex_val (hex_digit n) = Some n.
Proof. intros Hn. do 16 (destruct n as [|n]; [done|]). lia. Qed.

(** The two halves of a byte are below sixteen. *)
Lemma nibbles_bound (b : Byte.byte) :
  Byte.to_nat b / 16 < 16 ∧ Byte.to_nat b mod 16 < 16 ∧
  16 * (Byte.to_nat b / 16) + Byte.to_nat b mod 16 = Byte.to_nat b.
Proof.
  pose proof (Byte.to_nat_bounded b) as Hb.
  pose proof (Nat.div_mod_eq (Byte.to_nat b) 16).
  pose proof (Nat.mod_upper_bound (Byte.to_nat b) 16).
  split; [apply Nat.Div0.div_lt_upper_bound|]; lia.
Qed.

Lemma hex_cons (b : Byte.byte) (bs : list Byte.byte) :
  hex (b :: bs) =
  String (hex_digit (Byte.to_nat b / 16))
    (String (hex_digit (Byte.to_nat b mod 16)) (hex bs)).
Proof. reflexivity. Qed.

Lemma unhex_hex_byte (b : Byte.byte) (s : string) :
  unhex (hex_byte b +:+ s) = bs ← unhex s; Some (b :: bs).
Proof.
  destruct (nibbles_bound b) as (Hh & Hl & Hb).
  unfold hex_byte. rewrite !string_app_cons, string_app_nil_l. cbn [unhex].
  rewrite (proj2 (hex_digit_val _ Hh)), (proj2 (hex_digit_val _ Hl)).
  cbn [mbind option_bind]. by rewrite Hb, Byte.of_to_nat.
Qed.

(** Round trip: [bytes.fromhex(bs.hex()) == bs]. *)
Theorem unhex_hex (bs : list Byte.byte) : unhex (hex bs) = Some bs.
Proof.
  induction bs as [|b bs IH]; [done|].
  cbn [hex]. by rewrite unhex_hex_byte, IH.
Qed.

#[global] Instance hex_inj : Inj (=) (=) hex.
Proof.
  intros bs1 bs2 Heq. apply (f_equal unhex) in Heq.
  rewrite !unhex_hex in Heq. congruence.
Qed.

(** Two characters per byte. *)
Lemma hex_length (bs : list Byte.byte) : String.length (hex bs) = 2 * length bs.
Proof.
  induction bs as [|b bs IH]; [done|]. rewrite hex_cons. cbn [String.length length].
  rewrite IH. lia.
Qed.

Lemma hex_all_hex (bs : list Byte.byte) : all_hex (hex bs) = true.
Proof.
  induction bs as [|b bs IH]; [done|]. rewrite hex_cons. cbn [all_hex].
  destruct (nibbles_bound b) as (Hh & Hl & _).
  by rewrite IH, (proj1 (hex_digit_val _ Hh)), (proj1 (hex_digit_val _ Hl)).
Qed.

End Hex.
