(* ===== verification/VectorStore.v ===== *)
(** * VectorStore: the Chroma collection behind [self.collection]

    [project_main.py] calls three methods of a Chroma collection:
    [get()] (line 79), [add(documents=..., ids=...)] (lines 77-80) and
    [query(query_texts=..., n_results=...)] (lines 67-70), and one of the
    client, [get_or_create_collection] (lines 34-36).

    - [Chroma] states what the program relies on as the typeclass
      [Collection]: the operations as functions that may raise, an
      observation [coll_records] (the records in insertion order) and the laws
      that relate them.  [Memory], [Chat] and [Cli] are proved against this
      class.
    - [ListStore] is an executable reference implementation: records in a
      list with a capacity, [add] that skips ids already present, [query]
      that ranks by a distance function with [merge_sort] and takes the
      first [n_results].  Its [Instance] discharges the laws; its own
      theorems show that the ranking is a top-k selection and that a stored
      document is found again. *)

From stdpp Require Import base tactics option list numbers strings sorting gmap.
From S2P Require Import Prelude.

Module Chroma.

(** What [collection.get()] returns: the ids and the documents, in insertion
    order. *)
Record GetResult : Type := {
  gr_ids : list string;
  gr_documents : list string
}.

(** What [collection.query(...)] returns: one row per query text.
    [qr_documents] is [None] when documents are not included. *)
Record QueryResult : Type := {
  qr_ids : list (list string);
  qr_documents : option (list (list string))
}.

(** The pairs of a batch whose id is not yet in the collection. *)
Definition fresh_pairs (old ids docs : list string) : list (string * string) :=
  filter (λ p, p.1 ∉ old) (zip ids docs).

(** A Chroma collection, as far as the program uses one. *)
Class Collection (C : Type) : Type := {
  (** a collection that was just created *)
  coll_empty : C;
  (** the records [(id, document)] in insertion order *)
  coll_records : C → list (string * string);
  (** [collection.get()] *)
  coll_get : C → result GetResult;
  (** [collection.add(documents=docs, ids=ids)] *)
  coll_add : list string → list string → C → result C;
  (** [collection.query(query_texts=texts, n_results=n)] *)
  coll_query : list string → nat → C → result QueryResult;

  coll_empty_records : coll_records coll_empty = [];
  coll_get_spec c g :
    coll_get c = Ok g →
    gr_ids g = (coll_records c).*1 ∧ gr_documents g = (coll_records c).*2;
  (** an add that returns appended the pairs with a new id and nothing else *)
  coll_add_spec docs ids c c' :
    coll_add docs ids c = Ok c' →
    length ids = length docs ∧
    coll_records c' =
      coll_records c ++ fresh_pairs (coll_records c).*1 ids docs;
  (** a query that returns has one row per query text, each row made of at
      most [n] stored documents and as many as the collection can give *)
  coll_query_spec texts n c r :
    coll_query texts n c = Ok r →
    ∃ rows, qr_documents r = Some rows ∧
            length rows = length texts ∧
            Forall (λ row, length row = n `min` length (coll_records c) ∧
                           row ⊆ (coll_records c).*2) rows
}.

#[global] Hint Mode Collection ! : typeclass_instances.

(** The ids and the documents of a collection. *)
Definition coll_ids `{Collection C} (c : C) : list string := (coll_records c).*1.
Definition coll_docs `{Collection C} (c : C) : list string := (coll_records c).*2.
Definition coll_count `{Collection C} (c : C) : nat := length (coll_records c).

(** The client: the collections of the persistent directory, by name. *)
Definition get_or_create_collection `{Collection C}
    (name : string) (client : gmap string C) : gmap string C :=
  match client !! name with
  | Some _ => client
  | None => <[name := coll_empty]> client
  end.

Section laws.
Context `{Collection C}.
Implicit Types c : C.

Lemma fresh_pairs_single_new (old : list string) (i d : string) :
  i ∉ old → fresh_pairs old [i] [d] = [(i, d)].
Proof. intros Hi. unfold fresh_pairs. cbn. by rewrite decide_True. Qed.

Lemma fresh_pairs_single_old (old : list string) (i d : string) :
  i ∈ old → fresh_pairs old [i] [d] = [].
Proof. intros Hi. unfold fresh_pairs. cbn. rewrite decide_False; [done|]. auto. Qed.

(** Adding one record under a new id appends it. *)
Lemma coll_add_new c c' (i d : string) :
  coll_add [d] [i] c = Ok c' → i ∉ coll_ids c →
  coll_records c' = coll_records c ++ [(i, d)].
Proof.
  intros [_ ->]%coll_add_spec Hi. by rewrite fresh_pairs_single_new.
Qed.

(** Adding one record under an id that is present changes nothing. *)
Lemma coll_add_old c c' (i d : string) :
  coll_add [d] [i] c = Ok c' → i ∈ coll_ids c →
  coll_records c' = coll_records c.
Proof.
  intros [_ ->]%coll_add_spec Hi.
  by rewrite fresh_pairs_single_old, app_nil_r.
Qed.

(** An add never removes or reorders what was stored. *)
Lemma coll_add_prefix c c' (docs ids : list string) :
  coll_add docs ids c = Ok c' → coll_records c `prefix_of` coll_records c'.
Proof. intros [_ ->]%coll_add_spec. by eexists. Qed.

Lemma coll_get_ids c g : coll_get c = Ok g → gr_ids g = coll_ids c.
Proof. by intros [? _]%coll_get_spec. Qed.

(** A query for one text returns exactly one row. *)
Lemma coll_query_single c (q : string) (n : nat) r :
  coll_query [q] n c = Ok r →
  ∃ row, qr_documents r = Some [row] ∧
         length row = n `min` coll_count c ∧ row ⊆ coll_docs c.
Proof.
  intros (rows & Hdocs & Hlen & Hall)%coll_query_spec.
  destruct rows as [|row [|??]]; try discriminate.
  apply Forall_singleton in Hall as [??]. eauto.
Qed.

Lemma get_or_create_lookup (name : string) (client : gmap string C) :
  is_Some (get_or_create_collection name client !! name).
Proof.
  unfold get_or_create_collection.
  destruct (client !! name) eqn:E; [by rewrite E | by rewrite lookup_insert_eq].
Qed.

(** An existing collection is returned as it is: creation is idempotent. *)
Lemma get_or_create_existing (name : string) (client : gmap string C) c :
  client !! name = Some c → get_or_create_collection name client = client.
Proof. intros E. unfold get_or_create_collection. by rewrite E. Qed.

Lemma get_or_create_fresh (name : string) (client : gmap string C) :
  client !! name = None →
  get_or_create_collection name client !! name = Some coll_empty.
Proof.
  intros E. unfold get_or_create_collection. by rewrite E, lookup_insert_eq.
Qed.

Lemma get_or_create_other (name other : string) (client : gmap string C) :
  name ≠ other →
  get_or_create_collection name client !! other = client !! other.
Proof.
  intros Hne. unfold get_or_create_collection.
  destruct (client !! name); [done | by rewrite lookup_insert_ne].
Qed.

Lemma get_or_create_idem (name : string) (client : gmap string C) :
  get_or_create_collection name (get_or_create_collection name client) =
  get_or_create_collection name client.
Proof.
  destruct (get_or_create_lookup name client) as [c Hc].
  by eapply get_or_create_existing.
Qed.

End laws.

End Chroma.

(** ** A reference implementation *)

Module ListStore.
Import Chroma.

(** The store: what it may hold and what it holds, oldest first. *)
Record t : Type := {
  capacity : nat;
  records : list (string * string)
}.

(** A distance that is zero exactly on equal strings: the mismatches,
    position by position, plus the difference of the lengths. *)
Fixpoint str_dist (q d : string) : nat :=
  match q, d with
  | "", _ => String.length d
  | _, "" => String.length q
  | String a q', String b d' => (if decide (a = b) then 0 else 1) + str_dist q' d'
  end.

Definition empty (cap : nat) : t := {| capacity := cap; records := [] |}.

Section with_dist.
(** The distance between a query text and a document: smaller is closer.
    It stands for the embedding function and the metric of the index. *)
Context (dist : string → string → nat).

(** [r1] is at least as close to [q] as [r2]. *)
Definition closer (q : string) (r1 r2 : string * string) : Prop :=
  dist q r1.2 ≤ dist q r2.2.

#[local] Instance closer_dec q : RelDecision (closer q).
Proof. intros r1 r2. unfold closer. apply _. Defined.

#[local] Instance closer_total q : Total (closer q).
Proof. intros r1 r2. unfold closer. lia. Qed.

#[local] Instance closer_trans q : Transitive (closer q).
Proof. intros r1 r2 r3. unfold closer. lia. Qed.

(** The records, closest to [q] first. *)
Definition rank (q : string) (rs : list (string * string)) :
    list (string * string) :=
  merge_sort (closer q) rs.

(** The [n] records closest to [q]. *)
Definition top (n : nat) (q : string) (s : t) : list (string * string) :=
  take n (rank q (records s)).

Definition get (s : t) : result GetResult :=
  Ok {| gr_ids := (records s).*1; gr_documents := (records s).*2 |}.

(** [add]: the batch must pair ids and documents, the ids of a batch must
    differ, and the new records must fit; ids already stored are skipped. *)
Definition add (docs ids : list string) (s : t) : result t :=
  if bool_decide (length ids = length docs) then
    if bool_decide (NoDup ids) then
      let new := fresh_pairs (records s).*1 ids docs in
      if bool_decide (length (records s) + length new ≤ capacity s) then
        Ok {| capacity := capacity s; records := records s ++ new |}
      else Err (Exn (OtherError "StorageWriteError") "the collection is full")
    else Err (Exn (OtherError "DuplicateIDError") "ids of a batch must differ")
  else Err (Exn ValueError "ids and documents differ in number").

(** [query]: one row per text, the [n] closest documents, closest first. *)
Definition query (texts : list string) (n : nat) (s : t) : result QueryResult :=
  if bool_decide (0 < n) then
    Ok {| qr_ids := (λ q, (top n q s).*1) <$> texts;
          qr_documents := Some ((λ q, (top n q s).*2) <$> texts) |}
  else Err (Exn ValueError "the number of requested results must be positive").

(** *** The ranking *)

Lemma rank_Permutation q rs : rank q rs ≡ₚ rs.
Proof. apply merge_sort_Permutation. Qed.

Lemma rank_sorted q rs : StronglySorted (closer q) (rank q rs).
Proof. apply StronglySorted_merge_sort; apply _. Qed.

Lemma rank_length q rs : length (rank q rs) = length rs.
Proof. by rewrite rank_Permutation. Qed.

Lemma top_length n q s : length (top n q s) = n `min` length (records s).
Proof. unfold top. by rewrite length_take, rank_length. Qed.

Lemma top_subseteq n q s : top n q s ⊆ records s.
Proof.
  intros r Hr. unfold top in Hr. apply elem_of_take in Hr as (i & Hr & _).
  rewrite <- (rank_Permutation q). by eapply list_elem_of_lookup_2.
Qed.

Lemma top_sorted n q s : StronglySorted (closer q) (top n q s).
Proof.
  unfold top. pose proof (rank_sorted q (records s)) as Hs.
  rewrite <- (take_drop n (rank q (records s))) in Hs.
  by apply StronglySorted_app_1_l in Hs.
Qed.

(** Top-k: a record that was left out is no closer than a record of the
    result. *)
Theorem top_closest n q s r r' :
  r ∈ top n q s → r' ∈ drop n (rank q (records s)) → closer q r r'.
Proof.
  intros Hr Hr'. pose proof (rank_sorted q (records s)) as Hs.
  rewrite <- (take_drop n (rank q (records s))) in Hs.
  by eapply StronglySorted_app_1_elem_of.
Qed.

(** The first record of a ranking is at least as close as any record. *)
Lemma rank_head_closest q rs r0 rest r :
  rank q rs = r0 :: rest → r ∈ rs → closer q r0 r.
Proof.
  intros Hrank Hr. pose proof (rank_sorted q rs) as Hs.
  rewrite <- (rank_Permutation q), Hrank in Hr. rewrite Hrank in Hs.
  apply StronglySorted_inv in Hs as [_ Hall].
  apply elem_of_cons in Hr as [-> | Hr]; [unfold closer; lia|].
  by eapply Forall_forall in Hall.
Qed.

(** *** The laws *)

Lemma get_spec s g :
  get s = Ok g → gr_ids g = (records s).*1 ∧ gr_documents g = (records s).*2.
Proof. by intros [= <-]. Qed.

Lemma add_spec docs ids s s' :
  add docs ids s = Ok s' →
  length ids = length docs ∧
  records s' = records s ++ fresh_pairs (records s).*1 ids docs.
Proof.
  unfold add. repeat case_bool_decide; try discriminate. by intros [= <-].
Qed.

Lemma query_spec texts n s r :
  query texts n s = Ok r →
  ∃ rows, qr_documents r = Some rows ∧
          length rows = length texts ∧
          Forall (λ row, length row = n `min` length (records s) ∧
                         row ⊆ (records s).*2) rows.
Proof.
  unfold query. case_bool_decide; [|discriminate]. intros [= <-].
  eexists. split; [reflexivity|]. split; [by rewrite length_fmap|].
  apply Forall_fmap, Forall_forall. intros q _. cbn. split.
  - by rewrite length_fmap, top_length.
  - intros d (r & -> & Hr)%list_elem_of_fmap.
    apply list_elem_of_fmap. exists r. split; [done|]. by eapply top_subseteq.
Qed.

(** The reference store is a [Collection]. *)
Definition collection (cap : nat) : Collection t := {|
  coll_empty := empty cap;
  coll_records := records;
  coll_get := get;
  coll_add := add;
  coll_query := query;
  coll_empty_records := eq_refl;
  coll_get_spec := get_spec;
  coll_add_spec := add_spec;
  coll_query_spec := query_spec
|}.

(** *** Totality: the reference store answers *)

Lemma add_total docs ids s :
  length ids = length docs → NoDup ids →
  length (records s) + length ids ≤ capacity s →
  ∃ s', add docs ids s = Ok s'.
Proof.
  intros Hlen Hnd Hcap. unfold add.
  rewrite !bool_decide_eq_true_2; [eauto | | done | done].
  unfold fresh_pairs. etrans; [|exact Hcap]. apply Nat.add_le_mono_l.
  etrans; [apply length_filter|]. rewrite length_zip_with. lia.
Qed.

Lemma query_total texts n s : 0 < n → ∃ r, query texts n s = Ok r.
Proof. intros Hn. unfold query. rewrite bool_decide_eq_true_2; eauto. Qed.

(** A query of a store that holds a record has a first answer, and no
    record of the store is closer to the query than it. *)
Lemma query_first_closest (q : string) (n : nat) (s : t) (r : string * string) :
  r ∈ records s → 0 < n →
  ∃ d0 row, query [q] n s = Ok {| qr_ids := [(top n q s).*1];
                                   qr_documents := Some [d0 :: row] |} ∧
            dist q d0 ≤ dist q r.2.
Proof.
  intros Hin Hn. unfold query. rewrite bool_decide_eq_true_2 by done.
  cbn [fmap list_fmap]. unfold top.
  destruct (rank q (records s)) as [|r0 rest] eqn:Hrank.
  - apply (f_equal length) in Hrank. rewrite rank_length in Hrank.
    apply list_elem_of_In, in_split in Hin as (l1 & l2 & Hin).
    rewrite Hin, length_app in Hrank. cbn in Hrank. lia.
  - pose proof (rank_head_closest _ _ _ _ _ Hrank Hin) as Hc.
    destruct n as [|n]; [lia|]. cbn. eauto.
Qed.

(** Insert, then query: a stored document is the first answer to a query
    for its own text, when the distance separates different strings. *)
Theorem query_finds_stored (i d : string) (n : nat) (s : t) :
  (∀ q x, dist q x = 0 ↔ q = x) →
  (i, d) ∈ records s → 0 < n →
  ∃ row, query [d] n s = Ok {| qr_ids := [(top n d s).*1];
                                qr_documents := Some [d :: row] |}.
Proof.
  intros Hdist Hin Hn.
  destruct (query_first_closest d n s (i, d) Hin Hn) as (d0 & row & Hq & Hc).
  cbn in Hc. rewrite (proj2 (Hdist d d) eq_refl) in Hc.
  assert (d0 = d) as -> by (symmetry; apply Hdist; lia). eauto.
Qed.

End with_dist.

Lemma str_dist_zero (q d : string) : str_dist q d = 0 ↔ q = d.
Proof.
  revert d. induction q as [|a q IH]; intros [|b d]; cbn; try done.
  case_decide as Hab.
  - subst b. rewrite Nat.add_0_l, IH. split; [by intros -> | by intros [= ->]].
  - split; [lia | congruence].
Qed.

End ListStore.
