(* ===== verification/AgentRuntime.v ===== *)
(** * AgentRuntime: what [self.agent.stream(...)] yields, and how

    The agent of [project_main.py] is built by [create_react_agent] (lines
    59-63) from a chat model, a list of tools and a checkpointer, and is used
    through one call, [self.agent.stream(input, config)] (lines 88-91), whose
    results [chat] iterates over.

    - [Lang]: the messages of a conversation and the values a stream yields
      ([chunk]), with the two operations [chat] applies to a chunk:
      [isinstance(chunk, AIMessage)] and [response += chunk.content].
    - [Graph]: a run of the agent as a [script], the finite tree of what the
      runtime does between two results (yield a chunk, call a tool and go on
      with its answer, finish, raise), the tools as named functions over the
      process state, and [for_stream], the [for] loop over a stream: the
      generator runs up to its next [yield], the loop body runs on the chunk,
      and a raise on either side ends both.

    The model and its choices are not modelled: every theorem of [Chat]
    and [Cli] holds for all scripts. *)

From stdpp Require Import base tactics option list numbers strings.
From S2P Require Import Prelude.

Module Lang.

(** The [content] of a message: a string, or a list of content blocks. *)
Inductive content : Type :=
| CStr (s : string)
| CList (blocks : list string).

(** A request of the model to run a tool. *)
Record tool_call : Type := { tc_name : string; tc_args : string }.

Inductive message : Type :=
| HumanMessage (c : content)
| AIMessage (c : content) (calls : list tool_call)
| ToolMessage (c : content) (tool : string)
| SystemMessage (c : content).

(** A value yielded by [agent.stream]: the update of a graph node
    ([{node: {"messages": [...]}}]) or a message object. *)
Inductive chunk : Type :=
| Update (node : string) (msgs : list message)
| Msg (m : message).

#[global] Instance content_eq_dec : EqDecision content.
Proof. solve_decision. Defined.

#[global] Instance tool_call_eq_dec : EqDecision tool_call.
Proof. solve_decision. Defined.

#[global] Instance message_eq_dec : EqDecision message.
Proof. solve_decision. Defined.

#[global] Instance chunk_eq_dec : EqDecision chunk.
Proof. solve_decision. Defined.

(** [isinstance(chunk, AIMessage)]. *)
Definition is_AIMessage (c : chunk) : bool :=
  match c with
  | Msg (AIMessage _ _) => true
  | _ => false
  end.

(** [m.content]. *)
Definition message_content (m : message) : content :=
  match m with
  | HumanMessage c | AIMessage c _ | ToolMessage c _ | SystemMessage c => c
  end.

(** [chunk.content]: an attribute of a message, not of a node update. *)
Definition chunk_content (c : chunk) : result content :=
  match c with
  | Msg m => Ok (message_content m)
  | Update _ _ =>
      Err (Exn (OtherError "AttributeError") "'dict' object has no attribute 'content'")
  end.

(** [response += x] for a string [response]: a string is appended, a list
    raises [TypeError]. *)
Definition str_iadd (response : string) (x : content) : result string :=
  match x with
  | CStr s => Ok (response +:+ s)
  | CList _ =>
      Err (Exn TypeError "can only concatenate str (not 'list') to str")
  end.

(** The messages a chunk carries. *)
Definition chunk_messages (c : chunk) : list message :=
  match c with
  | Update _ msgs => msgs
  | Msg m => [m]
  end.

(** The text of the chunks that are [AIMessage]s with string content. *)
Definition ai_text (c : chunk) : string :=
  match c with
  | Msg (AIMessage (CStr s) _) => s
  | _ => ""
  end.

(** An [AIMessage] whose content is a list of blocks. *)
Definition is_block_AIMessage (c : chunk) : bool :=
  match c with
  | Msg (AIMessage (CList _) _) => true
  | _ => false
  end.

Lemma is_AIMessage_Update node msgs : is_AIMessage (Update node msgs) = false.
Proof. reflexivity. Qed.

Lemma ai_text_not_AIMessage c : is_AIMessage c = false → ai_text c = "".
Proof. by destruct c as [|[]]. Qed.

Lemma str_iadd_assoc (r s t : string) :
  str_iadd r (CStr (s +:+ t)) = str_iadd r (CStr s) ≫= λ r', str_iadd r' (CStr t).
Proof. cbn. by rewrite string_app_assoc. Qed.

End Lang.

Module Graph.
Import Lang.

(** A run of the agent, from the consumer's side. *)
Inductive script : Type :=
| Yield (c : chunk) (k : script)
| CallTool (name arg : string) (k : result string → script)
| Finish
| Raise (e : exn).

(** A tool: a name, a description for the model and the function it runs
    on the process state. *)
Record Tool (W : Type) : Type := {
  tool_name : string;
  tool_description : string;
  tool_func : string → SE W string
}.
Arguments tool_name {W} _.
Arguments tool_description {W} _.
Arguments tool_func {W} _.

(** What a run emits when its tools answer by [answer]: the chunks in
    order, and the exception that ends the run, if one does. *)
Fixpoint emitted (answer : string → string → result string) (sc : script) :
    list chunk * option exn :=
  match sc with
  | Yield c k => let '(cs, fin) := emitted answer k in (c :: cs, fin)
  | CallTool name arg k => emitted answer (k (answer name arg))
  | Finish => ([], None)
  | Raise e => ([], Some e)
  end.

(** The number of steps of a run: its yields and its tool calls. *)
Fixpoint steps (answer : string → string → result string) (sc : script) : nat :=
  match sc with
  | Yield _ k => S (steps answer k)
  | CallTool name arg k => S (steps answer (k (answer name arg)))
  | Finish | Raise _ => 0
  end.

(** Answers that agree give the same emission. *)
Lemma emitted_ext (f g : string → string → result string) (sc : script) :
  (∀ name arg, f name arg = g name arg) → emitted f sc = emitted g sc.
Proof.
  intros Hfg. induction sc as [c k IH|name arg k IH| |e]; cbn [emitted];
    [by rewrite IH | rewrite Hfg; apply IH | done..].
Qed.

Section runtime.
Context {W : Type}.

(** The tool of a given name, the first one listed. *)
Definition find_tool (tools : list (Tool W)) (name : string) : option (Tool W) :=
  list_find (λ t, tool_name t = name) tools ≫= λ p, Some p.2.

(** Run a tool by name.  What the tool raises is handed to the agent as a
    value (the agent decides whether the run goes on); an unknown name is an
    error of the same kind. *)
Definition invoke_tool (tools : list (Tool W)) (name arg : string) :
    SE W (result string) := λ w,
  match find_tool tools name with
  | Some t => let '(r, w') := tool_func t arg w in (Ok r, w')
  | None => (Ok (Err (Exn (OtherError "ToolNotFound") name)), w)
  end.

(** [for chunk in stream: acc = body(acc, chunk)], the stream being the run
    [sc] of the agent.  [commit] is what the runtime writes when it emits a
    chunk (its checkpoint). *)
Fixpoint for_stream {A} (tools : list (Tool W)) (commit : chunk → SE W unit)
    (sc : script) (body : A → chunk → SE W A) (acc : A) : SE W A :=
  match sc with
  | Yield c k =>
      commit c;; acc' ← body acc c; for_stream tools commit k body acc'
  | CallTool name arg k =>
      r ← invoke_tool tools name arg; for_stream tools commit (k r) body acc
  | Finish => mret acc
  | Raise e => se_raise e
  end.

(** The same loop over the chunks of a run whose tool calls are resolved:
    [fin] is the exception that ends the run, if one does. *)
Fixpoint for_chunks {A} (commit : chunk → SE W unit) (cs : list chunk)
    (fin : option exn) (body : A → chunk → SE W A) (acc : A) : SE W A :=
  match cs with
  | [] => match fin with None => mret acc | Some e => se_raise e end
  | c :: cs' =>
      commit c;; acc' ← body acc c; for_chunks commit cs' fin body acc'
  end.

Lemma invoke_tool_ok tools name arg w :
  ∃ r w', invoke_tool tools name arg w = (Ok r, w').
Proof.
  unfold invoke_tool. destruct (find_tool tools name) as [t|]; [|eauto].
  destruct (tool_func t arg w). eauto.
Qed.

Lemma find_tool_Some tools name t :
  find_tool tools name = Some t → t ∈ tools ∧ tool_name t = name.
Proof.
  unfold find_tool. destruct (list_find _ tools) as [[i t']|] eqn:E; [|done].
  intros [= <-]. apply list_find_Some in E as (Hi & Hn & _).
  split; [by eapply list_elem_of_lookup_2 | done].
Qed.

(** Tool calls can be resolved ahead of the loop when the tools only read
    and what they read stays put: if, in every state that satisfies [P],
    a tool call answers by [answer] and leaves the state alone, and [P]
    survives the commit and the body, the loop over the run is the loop
    over its emitted chunks. *)
Lemma for_stream_emitted {A} tools commit (body : A → chunk → SE W A)
    (answer : string → string → result string) (P : W → Prop) :
  (∀ w name arg, P w → invoke_tool tools name arg w = (Ok (answer name arg), w)) →
  (∀ c w, P w → P (commit c w).2) →
  (∀ acc c w, P w → P (body acc c w).2) →
  ∀ sc acc w, P w →
    for_stream tools commit sc body acc w =
    for_chunks commit (emitted answer sc).1 (emitted answer sc).2 body acc w.
Proof.
  intros Htool Hcommit Hbody sc.
  induction sc as [c k IH|name arg k IH| |e]; intros acc w HP; cbn [for_stream emitted].
  - destruct (emitted answer k) as [cs fin] eqn:Hem. cbn [fst snd for_chunks] in *.
    rewrite !run_bind. pose proof (Hcommit c w HP) as HP1.
    destruct (commit c w) as [[[]|e] w1]; [|reflexivity]. cbn [snd] in HP1.
    rewrite !run_bind. pose proof (Hbody acc c w1 HP1) as HP2.
    destruct (body acc c w1) as [[acc'|e] w2]; [|reflexivity].
    by apply IH.
  - rewrite run_bind, Htool by done. by apply IH.
  - reflexivity.
  - reflexivity.
Qed.

Lemma emitted_length answer sc : length (emitted answer sc).1 ≤ steps answer sc.
Proof.
  induction sc as [c k IH|name arg k IH| |e]; cbn [emitted steps]; [| |done..].
  - destruct (emitted answer k). cbn in *. lia.
  - etrans; [apply IH|]. lia.
Qed.

End runtime.

End Graph.
