(* ===== verification/React.v ===== *)
(** * React: the loop of the agent [create_react_agent] builds (lines 59-63)

    [chat] sees the agent through the chunks of one stream.  Behind the
    stream is a loop: the runtime asks the chat model, which gives a final
    answer or asks for tools; the tools asked for are run, what they give
    is added to the conversation, and the model is asked again.  This file
    has that loop, as a run ([Graph.script]) that [chat] can iterate over.

    - [policy]: one query of the chat model, from the messages so far to a
      message, or to the exception the call raises;
    - [emission]: how the update of a node is streamed, as a dictionary
      ([updates]) or as the message objects [chat] tests for ([objects]);
    - [act]: the tools a message asks for are run in order, and each
      answer, or the error of the tool, becomes a [ToolMessage];
    - [react]: the loop, with a guard on the number of queries;
    - [rounds]: the reference definition, the same loop on lists, to which
      the stream of [react] is proved equal ([react_emitted]);
    - [run]: the loop without a guard, as a relation; the guarded loop
      computes it when the guard is large enough and whenever the guard
      does not fire ([run_rounds], [rounds_run]);
    - [hangs]: a model that asks for tools for ever, as an infinite
      sequence of conversations; these are the conversations on which the
      guard fires whatever its value ([hangs_guard]). *)

From stdpp Require Import base tactics option list numbers strings.
From S2P Require Import Prelude AgentRuntime.

Import Lang Graph.

(** One query of the chat model. *)
Definition policy : Type := list message → result message.

(** How the runtime streams what a node added to the conversation. *)
Definition emission : Type := string → list message → list chunk.

(** The update of a node as one dictionary, [{node: {"messages": [...]}}]. *)
Definition updates : emission := λ node msgs, [Update node msgs].

(** The messages of the node, one object each. *)
Definition objects : emission := λ _ msgs, Msg <$> msgs.

(** What the graph did in one step: the node that ran and the messages it
    added. *)
Definition update : Type := string * list message.

(** The tools a message asks for. *)
Definition calls_of (m : message) : list tool_call :=
  match m with
  | AIMessage _ calls => calls
  | _ => []
  end.

(** What the model is told of a tool call: the answer of the tool, or its
    error as text. *)
Definition observation (call : tool_call) (r : result string) : message :=
  ToolMessage
    (CStr match r with
          | Ok s => s
          | Err e => "Error: " +:+ exn_msg e
          end)
    (tc_name call).

(** The exception of the guard. *)
Definition recursion_error : exn :=
  Exn (OtherError "GraphRecursionError") "Recursion limit reached".

(** Yield the chunks, then go on. *)
Fixpoint yield_all (cs : list chunk) (k : script) : script :=
  match cs with
  | [] => k
  | c :: cs' => Yield c (yield_all cs' k)
  end.

(** The node [tools]: the calls of a message in order, each observation
    added to those before. *)
Fixpoint act (calls : list tool_call) (seen : list message)
    (k : list message → script) : script :=
  match calls with
  | [] => k seen
  | call :: rest =>
      CallTool (tc_name call) (tc_args call)
        (λ r, act rest (seen ++ [observation call r]) k)
  end.

(** The observations of a list of calls, when the tools answer by
    [answer]. *)
Definition observe (answer : string → string → result string)
    (calls : list tool_call) : list message :=
  (λ call, observation call (answer (tc_name call) (tc_args call))) <$> calls.

(** The chunks of a list of updates. *)
Definition streamed (emit : emission) (us : list update) : list chunk :=
  us ≫= uncurry emit.

(** The messages of a list of updates. *)
Definition added (us : list update) : list message := us ≫= snd.

(** An emission that streams the messages of an update, all of them and in
    their order. *)
Class Lossless (emit : emission) : Prop :=
  lossless node msgs : concat (chunk_messages <$> emit node msgs) = msgs.

Section react.
Context (model : policy) (emit : emission).

(** The loop: ask the model; a final answer ends the run; otherwise run
    the tools and ask again.  [limit] is the number of queries the guard
    allows. *)
Fixpoint react (limit : nat) (msgs : list message) : script :=
  match limit with
  | 0 => Raise recursion_error
  | S limit' =>
      match model msgs with
      | Err e => Raise e
      | Ok m =>
          yield_all (emit "agent" [m])
            match calls_of m with
            | [] => Finish
            | calls =>
                act calls [] (λ tms,
                  yield_all (emit "tools" tms)
                    (react limit' (msgs ++ m :: tms)))
            end
      end
  end.

Section answer.
Context (answer : string → string → result string).

(** The same loop on lists: the updates of the run and the exception that
    ends it, if one does. *)
Fixpoint rounds (limit : nat) (msgs : list message) :
    list update * option exn :=
  match limit with
  | 0 => ([], Some recursion_error)
  | S limit' =>
      match model msgs with
      | Err e => ([], Some e)
      | Ok m =>
          match calls_of m with
          | [] => ([("agent", [m])], None)
          | calls =>
              let tms := observe answer calls in
              let '(us, fin) := rounds limit' (msgs ++ m :: tms) in
              (("agent", [m]) :: ("tools", tms) :: us, fin)
          end
      end
  end.

(** The loop without a guard.  [run msgs us fin]: asked with [msgs], the
    agent makes the updates [us] and ends, with a final answer or with the
    exception [fin] of the model. *)
Inductive run : list message → list update → option exn → Prop :=
| run_answer msgs m :
    model msgs = Ok m → calls_of m = [] → run msgs [("agent", [m])] None
| run_raise msgs e :
    model msgs = Err e → run msgs [] (Some e)
| run_tools msgs m us fin :
    model msgs = Ok m → calls_of m ≠ [] →
    run (msgs ++ m :: observe answer (calls_of m)) us fin →
    run msgs (("agent", [m]) :: ("tools", observe answer (calls_of m)) :: us) fin.

(** A round that asks for tools: the conversation before and after. *)
Definition round (msgs msgs' : list message) : Prop :=
  ∃ m, model msgs = Ok m ∧ calls_of m ≠ [] ∧
       msgs' = msgs ++ m :: observe answer (calls_of m).

(** The model asks for tools for ever. *)
Definition hangs (msgs : list message) : Prop :=
  ∃ conv : nat → list message,
    conv 0 = msgs ∧ ∀ i, round (conv i) (conv (S i)).

(** The guard fired: the run has used its [limit] queries, each of them
    answered by a request for tools. *)
Definition guarded (limit : nat) (msgs : list message) : Prop :=
  (rounds limit msgs).2 = Some recursion_error ∧
  length (rounds limit msgs).1 = 2 * limit.

(** The conversation after a round, and after [n] rounds. *)
Definition next (msgs : list message) : list message :=
  match model msgs with
  | Ok m => msgs ++ m :: observe answer (calls_of m)
  | Err _ => msgs
  end.

Definition after (n : nat) (msgs : list message) : list message :=
  Nat.iter n next msgs.

(** ** The stream of the loop *)

Lemma emitted_yield_all cs k :
  emitted answer (yield_all cs k) =
  (cs ++ (emitted answer k).1, (emitted answer k).2).
Proof.
  induction cs as [|c cs IH]; cbn [yield_all emitted]; [by destruct (emitted _ _)|].
  by rewrite IH.
Qed.

Lemma emitted_act calls seen k :
  emitted answer (act calls seen k) = emitted answer (k (seen ++ observe answer calls)).
Proof.
  revert seen. induction calls as [|call calls IH]; intros seen; cbn [act emitted].
  - by rewrite app_nil_r.
  - by rewrite IH, <- app_assoc.
Qed.

Lemma next_Ok msgs m :
  model msgs = Ok m → next msgs = msgs ++ m :: observe answer (calls_of m).
Proof. unfold next. by intros ->. Qed.

Lemma rounds_S limit msgs :
  rounds (S limit) msgs =
  match model msgs with
  | Err e => ([], Some e)
  | Ok m =>
      if decide (calls_of m = []) then ([("agent", [m])], None)
      else (("agent", [m]) :: ("tools", observe answer (calls_of m)) ::
              (rounds limit (msgs ++ m :: observe answer (calls_of m))).1,
            (rounds limit (msgs ++ m :: observe answer (calls_of m))).2)
  end.
Proof.
  cbn [rounds]. destruct (model msgs) as [m|e]; [|done].
  destruct (calls_of m) as [|call calls] eqn:Hc; [done|].
  rewrite decide_False by done. by destruct (rounds limit _).
Qed.

Lemma react_S limit msgs :
  react (S limit) msgs =
  match model msgs with
  | Err e => Raise e
  | Ok m =>
      yield_all (emit "agent" [m])
        (if decide (calls_of m = []) then Finish
         else act (calls_of m) [] (λ tms,
                yield_all (emit "tools" tms) (react limit (msgs ++ m :: tms))))
  end.
Proof.
  cbn [react]. destruct (model msgs) as [m|e]; [|done].
  by destruct (calls_of m).
Qed.

(** The stream of the loop is the stream of the reference definition:
    whatever the model, the tools and the guard, the chunks [react] yields
    are the updates [rounds] lists, streamed in their order, and both end
    the same way. *)
Lemma react_emitted limit msgs :
  emitted answer (react limit msgs) =
  (streamed emit (rounds limit msgs).1, (rounds limit msgs).2).
Proof.
  revert msgs. induction limit as [|limit IH]; intros msgs; [done|].
  rewrite react_S, rounds_S. destruct (model msgs) as [m|e] eqn:Hm; [|done].
  rewrite emitted_yield_all. unfold streamed. case_decide; [done|].
  by rewrite emitted_act, emitted_yield_all, IH.
Qed.

(** ** The guard and the loop without one *)

Lemma rounds_length limit msgs : length (rounds limit msgs).1 ≤ 2 * limit.
Proof.
  revert msgs. induction limit as [|limit IH]; intros msgs; [done|].
  rewrite rounds_S. destruct (model msgs) as [m|e]; [|cbn; lia].
  case_decide; cbn; [lia|]. specialize (IH (msgs ++ m :: observe answer (calls_of m))).
  lia.
Qed.

Lemma guarded_S limit msgs :
  guarded (S limit) msgs ↔ round msgs (next msgs) ∧ guarded limit (next msgs).
Proof.
  unfold guarded, round. rewrite rounds_S.
  destruct (model msgs) as [m|e] eqn:Hm.
  - rewrite (next_Ok msgs m Hm). case_decide as Hc; cbn.
    + split; [intros [? _]; done | intros [(m' & [= <-] & ? & _) _]; done].
    + split.
      * intros [? ?]. split; [by exists m | split; [done | lia]].
      * intros [_ [? ?]]. split; [done | lia].
  - cbn. split; [intros [_ ?]; lia | intros [(m & ? & _) _]; done].
Qed.

(** The guarded loop ends as the loop without a guard does, and short of
    the guard, or the guard fires. *)
Lemma rounds_run limit msgs :
  (run msgs (rounds limit msgs).1 (rounds limit msgs).2 ∧
   length (rounds limit msgs).1 < 2 * limit) ∨
  guarded limit msgs.
Proof.
  revert msgs. induction limit as [|limit IH]; intros msgs; [by right|].
  rewrite guarded_S. unfold round. rewrite rounds_S.
  destruct (model msgs) as [m|e] eqn:Hm; [|left; split; [by constructor | cbn; lia]].
  rewrite (next_Ok msgs m Hm).
  case_decide; cbn [fst snd]; [left; split; [by constructor | cbn; lia]|].
  destruct (IH (msgs ++ m :: observe answer (calls_of m))) as [[Hrun Hlen] | Hg];
    [left; split; [by apply run_tools | cbn; lia] | right; eauto].
Qed.

(** A run of the loop without a guard is the run of the guarded loop, for
    every guard it stays under. *)
Lemma run_rounds msgs us fin limit :
  run msgs us fin → length us < 2 * limit → rounds limit msgs = (us, fin).
Proof.
  intros Hrun. revert limit.
  induction Hrun as [msgs m Hm Hc|msgs e Hm|msgs m us fin Hm Hc _ IH];
    intros [|limit] Hlen; cbn in Hlen; try lia; rewrite rounds_S, Hm; [| done |].
  - by rewrite decide_True.
  - rewrite decide_False by done. by rewrite IH by lia.
Qed.

(** The loop without a guard has one run at most. *)
Lemma run_deterministic msgs us fin us' fin' :
  run msgs us fin → run msgs us' fin' → us = us' ∧ fin = fin'.
Proof.
  intros H1 H2.
  apply (run_rounds _ _ _ (S (length us + length us'))) in H1; [|lia].
  apply (run_rounds _ _ _ (S (length us + length us'))) in H2; [|lia].
  rewrite H1 in H2. by injection H2.
Qed.

(** The model is always asked with the whole conversation: the messages it
    was given at the start and all that the run has added since. *)
Lemma run_query msgs us fin us1 m us2 :
  run msgs us fin → us = us1 ++ ("agent", [m]) :: us2 →
  model (msgs ++ added us1) = Ok m.
Proof.
  intros Hrun. revert us1.
  induction Hrun as [msgs m' Hm Hc|msgs e Hm|msgs m' us fin Hm Hc _ IH];
    intros [|u1 [|u2 us1]] Heq; simplify_list_eq; rewrite ?app_nil_r; try done.
  specialize (IH us1 eq_refl). by rewrite <- app_assoc in IH.
Qed.

(** When the guard does not fire, a larger guard changes nothing. *)
Lemma rounds_mono limit limit' msgs :
  limit ≤ limit' → ¬ guarded limit msgs → rounds limit' msgs = rounds limit msgs.
Proof.
  intros Hle Hg. destruct (rounds_run limit msgs) as [[Hrun Hlen]|]; [|done].
  rewrite (run_rounds _ _ _ limit' Hrun) by lia. by destruct (rounds limit msgs).
Qed.

(** ** A model that never answers *)

Lemma guarded_after limit msgs n :
  (∀ limit, guarded limit msgs) → guarded limit (after n msgs).
Proof.
  intros Hg. revert limit. induction n as [|n IH]; intros limit; [done|].
  by apply (guarded_S limit (after n msgs)), IH.
Qed.

Lemma hangs_guarded msgs limit : hangs msgs → guarded limit msgs.
Proof.
  intros (conv & H0 & Hstep). revert msgs conv H0 Hstep.
  induction limit as [|limit IH]; intros msgs conv <- Hstep; [done|].
  apply guarded_S. destruct (Hstep 0) as (m & Hm & Hc & Hnext).
  rewrite (next_Ok _ m Hm), <- Hnext.
  split; [by exists m | by apply (IH _ (λ i, conv (S i)))].
Qed.

Lemma guarded_hangs msgs : (∀ limit, guarded limit msgs) → hangs msgs.
Proof.
  intros Hg. exists (λ i, after i msgs). split; [done|]. intros i.
  by apply (guarded_S 0 (after i msgs)), guarded_after.
Qed.

(** A model that asks for tools whatever it is told hangs on every
    conversation. *)
Lemma always_asks_hangs msgs :
  (∀ msgs', ∃ m, model msgs' = Ok m ∧ calls_of m ≠ []) → hangs msgs.
Proof.
  intros Hask. exists (λ i, after i msgs). split; [done|]. intros i.
  destruct (Hask (after i msgs)) as (m & Hm & Hc). exists m.
  split_and!; [done..|].
  change (after (S i) msgs) with (next (after i msgs)). by rewrite (next_Ok _ m Hm).
Qed.

(** The loop without a guard has no run on them. *)
Lemma hangs_no_run msgs us fin : hangs msgs → run msgs us fin → False.
Proof.
  intros Hh Hrun. destruct (hangs_guarded msgs (S (length us)) Hh) as [_ Hlen].
  rewrite (run_rounds _ _ _ _ Hrun) in Hlen by lia. cbn in Hlen. lia.
Qed.

(** ** The loop, its guard and its specification *)

(** C15. The guarded loop is total and ends in one of two ways.  Whatever the
    model, the tools and the guard, the stream of [react] is the stream of
    at most [2 * limit] updates; either these are the run of the loop
    without a guard, which ends as the model ended it, or the guard fired
    after [limit] queries that all asked for tools. *)
Theorem react_total limit msgs :
  ∃ us fin,
    emitted answer (react limit msgs) = (streamed emit us, fin) ∧
    length us ≤ 2 * limit ∧
    (run msgs us fin ∨ (fin = Some recursion_error ∧ length us = 2 * limit)).
Proof.
  exists (rounds limit msgs).1, (rounds limit msgs).2.
  split; [apply react_emitted|]. split; [apply rounds_length|].
  destruct (rounds_run limit msgs) as [[? _] | ?]; [by left | by right].
Qed.

(** C22. The guarded loop implements the loop without a guard: a run of the
    latter is what [react] streams, under every guard the run stays below,
    and so whatever the guard when it is large enough. *)
Theorem react_refines_run msgs us fin limit :
  run msgs us fin → length us < 2 * limit →
  emitted answer (react limit msgs) = (streamed emit us, fin).
Proof. intros Hrun Hlen. by rewrite react_emitted, (run_rounds _ _ _ _ Hrun Hlen). Qed.

(** The guard fires whatever its value exactly on the conversations the
    model hangs on: those from which it asks for tools for ever.  On these
    the loop without a guard never returns. *)
Theorem hangs_guard msgs : hangs msgs ↔ ∀ limit, guarded limit msgs.
Proof. split; [intros ? ?; by apply hangs_guarded | apply guarded_hangs]. Qed.

End answer.
End react.

(** ** The two emissions *)

#[global] Instance updates_lossless : Lossless updates.
Proof. intros node msgs. cbn. by rewrite app_nil_r. Qed.

#[global] Instance objects_lossless : Lossless objects.
Proof.
  intros node msgs. unfold objects.
  induction msgs as [|m msgs IH]; [done|]. cbn. by f_equal.
Qed.

Lemma streamed_messages emit `{!Lossless emit} (us : list update) :
  concat (chunk_messages <$> streamed emit us) = added us.
Proof.
  unfold streamed, added. induction us as [|[node ms] us IH]; [done|].
  rewrite !bind_cons, fmap_app, concat_app, IH. cbn. by rewrite lossless.
Qed.

(** What ends a run of the guarded loop is the guard or the model. *)
Lemma rounds_fin model answer limit msgs e :
  (rounds model answer limit msgs).2 = Some e →
  e = recursion_error ∨ ∃ msgs', model msgs' = Err e.
Proof.
  revert msgs. induction limit as [|limit IH]; intros msgs.
  - intros [= <-]. by left.
  - rewrite rounds_S. destruct (model msgs) as [m|e'] eqn:Hm; [|intros [= <-]; eauto].
    case_decide; [done | apply IH].
Qed.

(** The dictionaries of [updates] are no [AIMessage] objects. *)
Lemma streamed_updates (us : list update) :
  Forall (λ ch, is_AIMessage ch = false) (streamed updates us).
Proof.
  unfold streamed. induction us as [|[node ms] us IH]; [done|].
  rewrite bind_cons. by constructor.
Qed.

