(* ===== verification/Session.v ===== *)
(** * Session: the process state and the handles of [ConversationalAgent]

    [World] is the process state the methods of the class act on: the Chroma
    directories, the checkpointer, the standard streams, the entropy, the
    environment, the [.env] file and the modules installed.
    [ConversationalAgent] is [self]: the configuration and the handles
    [__init__] stores.  The file has the primitives the methods are written
    with ([print], the calls to the collection behind [self.collection],
    [require_env]) and what they do to the fields of [World].  The methods
    are in the files of their components:

    - [Memory]    [search_memory], [save_to_memory]   (lines 65-80)
    - [Chat]      [chat], the tools and the agent      (lines 47-63, 82-98)
    - [Startup]   [__init__]                           (lines 26-45)

    The section is parametric in the collection type (any [Collection]). *)

From Stdlib Require Import Ascii.
From stdpp Require Import base tactics option list numbers strings gmap.
From S2P Require Import Prelude VectorStore AgentRuntime.

Import Chroma Lang Graph.

(** The line feed, and the texts the methods build with it. *)
Definition nl : string := String (ascii_of_nat 10) "".

(** What the process writes to standard output. *)
Inductive out : Type :=
| Print (s : string)
| PrintChunk (c : chunk)
| Prompt (s : string).

#[global] Instance out_eq_dec : EqDecision out.
Proof. solve_decision. Defined.

(** [Settings(persist_directory=..., is_persistent=...)]. *)
Record Settings : Type := {
  persist_directory : string;
  is_persistent : bool
}.

(** [ChatAnthropic(model_name=..., temperature=...)]; the temperature in
    tenths. *)
Record ChatAnthropic : Type := {
  model_name : string;
  temperature_tenths : nat
}.

(** [TavilySearchResults(max_results=...)]. *)
Record TavilySearchResults : Type := { max_results : nat }.

(** [self]: the attributes [__init__] sets.  [chroma_client], [collection]
    and [memory] are references: the directory, the collection's name in it
    and the checkpointer of the process.  [self.tools] and [self.agent] are
    the definitions [tools] and [agent_stream] below, which close over
    [self] as the bound method [self.search_memory] does. *)
Record ConversationalAgent : Type := {
  chroma_client : string;
  collection : string;
  model : ChatAnthropic;
  search : TavilySearchResults
}.

Section session.
Context `{Collection C}.

(** The process state. *)
Record World : Type := {
  (** the Chroma directories: the collections of each, by name *)
  disk : gmap string (gmap string C);
  (** the [MemorySaver]: the messages of each thread *)
  checkpoints : gmap string (list message);
  stdout : list out;
  (** the lines [input()] will read *)
  stdin : list string;
  (** what [os.urandom] returns, and how much of it was read *)
  entropy : nat → Byte.byte;
  entropy_pos : nat;
  (** [os.environ] *)
  environ : gmap string string;
  (** the bindings of the [.env] file [load_dotenv] finds, as it parses
      them; empty when there is no file *)
  dotenv : gmap string string;
  (** the modules the interpreter can import, by dotted name, each with the
      names it defines *)
  modules : gmap string (gset string)
}.

Definition set_disk (f : gmap string (gmap string C) → gmap string (gmap string C))
    (w : World) : World :=
  {| disk := f (disk w); checkpoints := checkpoints w; stdout := stdout w;
     stdin := stdin w; entropy := entropy w; entropy_pos := entropy_pos w;
     environ := environ w; dotenv := dotenv w; modules := modules w |}.

Definition set_checkpoints
    (f : gmap string (list message) → gmap string (list message))
    (w : World) : World :=
  {| disk := disk w; checkpoints := f (checkpoints w); stdout := stdout w;
     stdin := stdin w; entropy := entropy w; entropy_pos := entropy_pos w;
     environ := environ w; dotenv := dotenv w; modules := modules w |}.

Definition set_stdout (f : list out → list out) (w : World) : World :=
  {| disk := disk w; checkpoints := checkpoints w; stdout := f (stdout w);
     stdin := stdin w; entropy := entropy w; entropy_pos := entropy_pos w;
     environ := environ w; dotenv := dotenv w; modules := modules w |}.

Definition set_stdin (f : list string → list string) (w : World) : World :=
  {| disk := disk w; checkpoints := checkpoints w; stdout := stdout w;
     stdin := f (stdin w); entropy := entropy w; entropy_pos := entropy_pos w;
     environ := environ w; dotenv := dotenv w; modules := modules w |}.

Definition set_entropy_pos (f : nat → nat) (w : World) : World :=
  {| disk := disk w; checkpoints := checkpoints w; stdout := stdout w;
     stdin := stdin w; entropy := entropy w; entropy_pos := f (entropy_pos w);
     environ := environ w; dotenv := dotenv w; modules := modules w |}.

Definition set_environ (f : gmap string string → gmap string string)
    (w : World) : World :=
  {| disk := disk w; checkpoints := checkpoints w; stdout := stdout w;
     stdin := stdin w; entropy := entropy w; entropy_pos := entropy_pos w;
     environ := f (environ w); dotenv := dotenv w;
     modules := modules w |}.

(** ** Primitives *)

(** [print(s)]. *)
Definition print (s : string) : SE World unit :=
  se_modify (set_stdout (λ o, o ++ [Print s])).

(** [print(chunk)]. *)
Definition print_chunk (c : chunk) : SE World unit :=
  se_modify (set_stdout (λ o, o ++ [PrintChunk c])).

(** The collection a handle refers to. *)
Definition lookup_collection (dir name : string) (w : World) : option C :=
  disk w !! dir ≫= λ colls, colls !! name.

(** Write a collection back under its handle. *)
Definition store_collection (dir name : string) (c : C) (w : World) : World :=
  set_disk (λ d, <[dir := <[name := c]> (default ∅ (d !! dir))]> d) w.

(** Dereference [self.collection]; a handle to nothing raises. *)
Definition the_collection (self : ConversationalAgent) : SE World C := λ w,
  match lookup_collection (chroma_client self) (collection self) w with
  | Some c => (Ok c, w)
  | None =>
      (Err (Exn (OtherError "InvalidCollectionException") (collection self)), w)
  end.

(** [self.collection.get()]. *)
Definition collection_get (self : ConversationalAgent) : SE World GetResult :=
  c ← the_collection self; se_lift (coll_get c).

(** [self.collection.add(documents=docs, ids=ids)]. *)
Definition collection_add (self : ConversationalAgent)
    (docs ids : list string) : SE World unit :=
  c ← the_collection self;
  c' ← se_lift (coll_add docs ids c);
  se_modify (store_collection (chroma_client self) (collection self) c').

(** [self.collection.query(query_texts=texts, n_results=n)]. *)
Definition collection_query (self : ConversationalAgent)
    (texts : list string) (n : nat) : SE World QueryResult :=
  c ← the_collection self; se_lift (coll_query texts n c).

(** A constructor that reads a credential from the environment. *)
Definition require_env (key : string) : SE World unit := λ w,
  match environ w !! key with
  | Some _ => (Ok tt, w)
  | None => (Err (Exn (OtherError "ValidationError") key), w)
  end.
(** ** The world's fields under the primitives *)

Implicit Types (w : World) (self : ConversationalAgent) (c : C).

Lemma lookup_store_collection dir name c w :
  lookup_collection dir name (store_collection dir name c w) = Some c.
Proof.
  unfold lookup_collection, store_collection. cbn.
  rewrite lookup_insert_eq. cbn. by rewrite lookup_insert_eq.
Qed.

Lemma lookup_store_collection_ne dir name dir' name' c w :
  (dir, name) ≠ (dir', name') →
  lookup_collection dir' name' (store_collection dir name c w) =
  lookup_collection dir' name' w.
Proof.
  intros Hne. unfold lookup_collection, store_collection. cbn.
  destruct (decide (dir = dir')) as [<-|Hd].
  - rewrite lookup_insert_eq. cbn.
    rewrite lookup_insert_ne by congruence.
    by destruct (disk w !! dir).
  - by rewrite lookup_insert_ne.
Qed.

(** Storing a collection over itself changes nothing. *)
Lemma store_collection_id dir name c w :
  lookup_collection dir name w = Some c → store_collection dir name c w = w.
Proof.
  unfold lookup_collection, store_collection. intros Hl.
  destruct (disk w !! dir) as [colls|] eqn:Hd; [|done]. cbn in Hl.
  destruct w as [d ? ? ? ? ? ?]. unfold set_disk. cbn in *. f_equal.
  rewrite Hd. cbn. by rewrite (insert_id colls), insert_id.
Qed.

Lemma the_collection_run self w c :
  lookup_collection (chroma_client self) (collection self) w = Some c →
  the_collection self w = (Ok c, w).
Proof. intros Hl. unfold the_collection. by rewrite Hl. Qed.

Lemma the_collection_world self w : (the_collection self w).2 = w.
Proof. unfold the_collection. by case_match. Qed.

Lemma collection_get_run self w c :
  lookup_collection (chroma_client self) (collection self) w = Some c →
  collection_get self w = (coll_get c, w).
Proof.
  intros Hl. unfold collection_get. rewrite run_bind, (the_collection_run _ _ c Hl).
  reflexivity.
Qed.

Lemma collection_query_run self texts n w c :
  lookup_collection (chroma_client self) (collection self) w = Some c →
  collection_query self texts n w = (coll_query texts n c, w).
Proof.
  intros Hl. unfold collection_query.
  rewrite run_bind, (the_collection_run _ _ c Hl). reflexivity.
Qed.

Lemma collection_add_run self docs ids w c :
  lookup_collection (chroma_client self) (collection self) w = Some c →
  collection_add self docs ids w =
  match coll_add docs ids c with
  | Ok c' =>
      (Ok tt, store_collection (chroma_client self) (collection self) c' w)
  | Err e => (Err e, w)
  end.
Proof.
  intros Hl. unfold collection_add.
  rewrite run_bind, (the_collection_run _ _ c Hl), run_bind, run_lift.
  by destruct (coll_add docs ids c).
Qed.

(** A query never writes. *)
Lemma collection_query_world self texts n w :
  (collection_query self texts n w).2 = w.
Proof.
  unfold collection_query. rewrite run_bind. unfold the_collection.
  by destruct (lookup_collection _ _ w).
Qed.

(** A collection is looked up on the disk and nowhere else. *)
Lemma lookup_collection_disk dir name w1 w2 :
  disk w1 = disk w2 → lookup_collection dir name w1 = lookup_collection dir name w2.
Proof. unfold lookup_collection. by intros ->. Qed.

End session.
