(* ===== verification/Memory.v ===== *)
(** * Memory: [search_memory] and [save_to_memory] (lines 65-80 of
      [project_main.py])

    The two methods that read and write the collection behind
    [self.collection], as definitions in the monad [SE World], and what they
    do on every branch.

    - [search_memory]: one query for two results, the truth test of
      [results['documents']] and the two answers;
    - [save_to_memory]: [get()] for the count, the id [conv_(count+1)] and
      the document of the turn, then [add(...)];
    - [ids_wf]: the ids of a collection are [conv_1 .. conv_n], the
      invariant under which a save appends ([save_to_memory_appends]) and
      without which it can return and store nothing
      ([save_to_memory_collision]). *)

From stdpp Require Import base tactics option list numbers strings gmap.
From S2P Require Import Prelude PyStr VectorStore AgentRuntime Session.

Import Chroma Lang Graph.

Section memory.
Context `{Collection C}.

Local Abbreviation World := (@World C).

Implicit Types (w : World) (self : ConversationalAgent) (c : C).

(** ** [search_memory] *)

Definition related_header : string := "Related past conversations:" +:+ nl.
Definition no_relevant : string := "No relevant past conversations found.".

(** [results and results['documents']]: the result is a non-empty dict, so
    the test is that of the list of rows, which must be there and not
    empty. *)
Definition has_documents (results : QueryResult) : bool :=
  match qr_documents results with
  | Some (_ :: _) => true
  | _ => false
  end.

(** [results['documents'][0]], under [has_documents]. *)
Definition first_row (results : QueryResult) : list string :=
  match qr_documents results with
  | Some (row :: _) => row
  | _ => []
  end.

Definition search_memory (self : ConversationalAgent) (query : string) :
    SE World string :=
  results ← collection_query self [query] 2;
  if has_documents results then
    mret (related_header +:+ Text.join nl (first_row results))
  else mret no_relevant.

(** ** [save_to_memory] *)

(** [f"Human: {human_msg}\nAI: {ai_response}"]. *)
Definition turn_document (human_msg ai_response : string) : string :=
  "Human: " +:+ human_msg +:+ nl +:+ "AI: " +:+ ai_response.

(** [f"conv_{n}"]. *)
Definition conv_id (n : nat) : string := "conv_" +:+ Dec.str_of_nat n.

Definition save_to_memory (self : ConversationalAgent)
    (human_msg ai_response : string) : SE World unit :=
  let documents := [turn_document human_msg ai_response] in
  got ← collection_get self;
  let ids := [conv_id (length (gr_ids got) + 1)] in
  collection_add self documents ids.

(** ** [search_memory] *)

Lemma search_memory_run self q w c :
  lookup_collection (chroma_client self) (collection self) w = Some c →
  search_memory self q w =
  (results ← coll_query [q] 2 c;
   Ok (if has_documents results
       then related_header +:+ Text.join nl (first_row results)
       else no_relevant), w).
Proof.
  intros Hl. unfold search_memory.
  rewrite run_bind, (collection_query_run _ _ _ _ c Hl).
  destruct (coll_query [q] 2 c) as [r|e]; [|reflexivity].
  cbn. by destruct (has_documents r).
Qed.

(** [search_memory] reads: whatever it returns, the world is as it was. *)
Lemma search_memory_world self q w : (search_memory self q w).2 = w.
Proof.
  unfold search_memory. rewrite run_bind.
  pose proof (collection_query_world self [q] 2 w) as Hw.
  destruct (collection_query self [q] 2 w) as [[r|e] w1]; cbn in Hw; subst w1;
    [|reflexivity].
  by destruct (has_documents r).
Qed.

(** A query that returns has a first row: the test of [search_memory]
    holds. *)
Lemma query_has_documents c q n r :
  coll_query [q] n c = Ok r →
  has_documents r = true ∧ length (first_row r) = n `min` coll_count c ∧
  first_row r ⊆ coll_docs c.
Proof.
  intros (row & Hd & Hlen & Hsub)%coll_query_single.
  unfold has_documents, first_row. by rewrite Hd.
Qed.

Lemma related_ne_no_relevant (s : string) : related_header +:+ s ≠ no_relevant.
Proof. intros Heq. apply (f_equal (String.get 0)) in Heq. by vm_compute in Heq. Qed.

(** C9. When the query returns, [search_memory] answers with the header
    line followed by the documents of the first row, one per line: at most
    two of them, all stored in the collection, and the world is unchanged. *)
Theorem search_memory_related self q w c r :
  lookup_collection (chroma_client self) (collection self) w = Some c →
  coll_query [q] 2 c = Ok r →
  search_memory self q w =
    (Ok (related_header +:+ Text.join nl (first_row r)), w) ∧
  length (first_row r) = 2 `min` coll_count c ∧
  first_row r ⊆ coll_docs c.
Proof.
  intros Hl Hq. destruct (query_has_documents _ _ _ _ Hq) as (Hd & Hlen & Hsub).
  rewrite (search_memory_run _ _ _ c Hl), Hq. cbn. by rewrite Hd.
Qed.

(** C7. The answer "No relevant past conversations found." is never given:
    for every collection that keeps the laws, every query and every state,
    [search_memory] raises or answers with the header line. *)
Theorem search_memory_never_no_relevant self q w :
  (∃ e, (search_memory self q w).1 = Err e) ∨
  (∃ docs, (search_memory self q w).1 = Ok (related_header +:+ docs) ∧
           related_header +:+ docs ≠ no_relevant).
Proof.
  destruct (lookup_collection (chroma_client self) (collection self) w)
    as [c|] eqn:Hl.
  - rewrite (search_memory_run _ _ _ c Hl).
    destruct (coll_query [q] 2 c) as [r|e] eqn:Hq; [|left; by eexists].
    destruct (query_has_documents _ _ _ _ Hq) as (Hd & _). cbn. rewrite Hd.
    right. eexists. split; [done | apply related_ne_no_relevant].
  - unfold search_memory, collection_query, the_collection.
    rewrite !run_bind, Hl. left. by eexists.
Qed.

(** On an empty collection the answer is the header line alone. *)
Theorem search_memory_empty self q w c r :
  lookup_collection (chroma_client self) (collection self) w = Some c →
  coll_records c = [] → coll_query [q] 2 c = Ok r →
  search_memory self q w = (Ok related_header, w).
Proof.
  intros Hl He Hq. destruct (query_has_documents _ _ _ _ Hq) as (Hd & Hlen & _).
  rewrite (search_memory_run _ _ _ c Hl), Hq. cbn. rewrite Hd.
  unfold coll_count in Hlen. rewrite He in Hlen.
  destruct (first_row r); [|discriminate].
  by rewrite Text.join_nil, string_app_nil_r.
Qed.

(** ** [save_to_memory] *)

(** The ids of a collection are [conv_1 .. conv_n], oldest first. *)
Definition ids_wf (c : C) : Prop :=
  coll_ids c = conv_id <$> seq 1 (coll_count c).

#[global] Instance conv_id_inj : Inj (=) (=) conv_id.
Proof. intros n m Heq. unfold conv_id in Heq. by simplify_eq. Qed.

(** The next id is not among the ids given so far. *)
Lemma conv_id_fresh (n : nat) : conv_id (n + 1) ∉ conv_id <$> seq 1 n.
Proof.
  intros (m & Heq & Hm)%list_elem_of_fmap. apply conv_id_inj in Heq.
  apply elem_of_seq in Hm. lia.
Qed.

Lemma ids_wf_NoDup c : ids_wf c → NoDup (coll_ids c).
Proof. intros ->. apply NoDup_fmap_seq, _. Qed.

Lemma ids_wf_empty : ids_wf coll_empty.
Proof. unfold ids_wf, coll_ids, coll_count. by rewrite coll_empty_records. Qed.

Lemma save_to_memory_run self h a w c :
  lookup_collection (chroma_client self) (collection self) w = Some c →
  save_to_memory self h a w =
  match coll_get c with
  | Err e => (Err e, w)
  | Ok got =>
      match coll_add [turn_document h a] [conv_id (length (gr_ids got) + 1)] c with
      | Ok c' =>
          (Ok tt, store_collection (chroma_client self) (collection self) c' w)
      | Err e => (Err e, w)
      end
  end.
Proof.
  intros Hl. unfold save_to_memory.
  rewrite run_bind, (collection_get_run _ _ c Hl).
  destruct (coll_get c) as [got|e]; [|reflexivity].
  apply (collection_add_run _ _ _ _ c Hl).
Qed.

(** A save through a handle to nothing raises and writes nothing. *)
Lemma save_to_memory_no_collection self h a w :
  lookup_collection (chroma_client self) (collection self) w = None →
  save_to_memory self h a w =
  (Err (Exn (OtherError "InvalidCollectionException") (collection self)), w).
Proof.
  intros Hl. unfold save_to_memory, collection_get, the_collection.
  by rewrite !run_bind, Hl.
Qed.

(** A save that returned ran [get] and [add] on the collection. *)
Lemma save_to_memory_Ok_inv self h a w w' c :
  lookup_collection (chroma_client self) (collection self) w = Some c →
  save_to_memory self h a w = (Ok tt, w') →
  ∃ c', coll_add [turn_document h a] [conv_id (coll_count c + 1)] c = Ok c' ∧
        w' = store_collection (chroma_client self) (collection self) c' w.
Proof.
  intros Hl. rewrite (save_to_memory_run _ _ _ _ c Hl).
  destruct (coll_get c) as [got|e] eqn:Hg; [|discriminate].
  apply coll_get_ids in Hg. rewrite Hg. unfold coll_ids, coll_count.
  rewrite length_fmap.
  destruct (coll_add _ _ c) as [c'|e]; [|discriminate].
  intros [= <-]. eauto.
Qed.

(** Adding a document under the id [conv_(n+1)] to a collection with the ids
    [conv_1 .. conv_n] appends it and keeps the ids well formed. *)
Lemma coll_add_next c c' (d : string) :
  ids_wf c →
  coll_add [d] [conv_id (coll_count c + 1)] c = Ok c' →
  coll_records c' = coll_records c ++ [(conv_id (coll_count c + 1), d)] ∧
  ids_wf c'.
Proof.
  intros Hwf Hadd.
  apply coll_add_new in Hadd; [|rewrite Hwf; apply conv_id_fresh].
  split; [done|]. unfold ids_wf, coll_ids, coll_count in *.
  rewrite Hadd, fmap_app, length_app, Hwf. cbn [length].
  by rewrite Nat.add_1_r, fmap_seq_snoc.
Qed.

(** Adding it under an id given before changes nothing. *)
Lemma coll_add_stale c c' (d : string) (k : nat) :
  ids_wf c → 1 ≤ k ≤ coll_count c →
  coll_add [d] [conv_id k] c = Ok c' →
  coll_records c' = coll_records c ∧ ids_wf c'.
Proof.
  intros Hwf Hk Hadd.
  apply coll_add_old in Hadd;
    [|rewrite Hwf; apply list_elem_of_fmap_2, elem_of_seq; lia].
  split; [done|]. unfold ids_wf, coll_ids, coll_count in *. by rewrite Hadd.
Qed.

Lemma coll_add_turn c c' (h a : string) :
  ids_wf c →
  coll_add [turn_document h a] [conv_id (coll_count c + 1)] c = Ok c' →
  coll_records c' =
    coll_records c ++ [(conv_id (coll_count c + 1), turn_document h a)] ∧
  ids_wf c'.
Proof. apply coll_add_next. Qed.

(** The same for the turn saved in a state, the helper of [chat]'s lemmas. *)
Lemma save_to_memory_Ok_wf self h a w w' c :
  lookup_collection (chroma_client self) (collection self) w = Some c →
  ids_wf c →
  save_to_memory self h a w = (Ok tt, w') →
  ∃ c', w' = store_collection (chroma_client self) (collection self) c' w ∧
        coll_records c' =
          coll_records c ++ [(conv_id (coll_count c + 1), turn_document h a)] ∧
        ids_wf c'.
Proof.
  intros Hl Hwf (c' & Hadd & ->)%(save_to_memory_Ok_inv _ _ _ _ _ c Hl).
  exists c'. split; [done|]. by apply coll_add_turn.
Qed.

(** C4. A save that returns on a collection with ids [conv_1 .. conv_n]
    appends one record, the turn's document under the id [conv_(n+1)], and
    the ids are again well formed. *)
Theorem save_to_memory_appends self h a w w' c :
  lookup_collection (chroma_client self) (collection self) w = Some c →
  ids_wf c →
  save_to_memory self h a w = (Ok tt, w') →
  ∃ c', lookup_collection (chroma_client self) (collection self) w' = Some c' ∧
        coll_records c' =
          coll_records c ++ [(conv_id (coll_count c + 1), turn_document h a)] ∧
        ids_wf c'.
Proof.
  intros Hl Hwf (c' & Hadd & ->)%(save_to_memory_Ok_inv _ _ _ _ _ c Hl).
  exists c'. split; [apply lookup_store_collection|]. by apply coll_add_turn.
Qed.

(** A save that raises leaves the world as it was. *)
Theorem save_to_memory_error self h a w e w' :
  save_to_memory self h a w = (Err e, w') → w' = w.
Proof.
  destruct (lookup_collection (chroma_client self) (collection self) w)
    as [c|] eqn:Hl.
  - rewrite (save_to_memory_run _ _ _ _ c Hl).
    destruct (coll_get c); [|by intros [= _ <-]].
    destruct (coll_add _ _ c); [discriminate | by intros [= _ <-]].
  - rewrite save_to_memory_no_collection by done. by intros [= _ <-].
Qed.

(** C37. When the id [conv_(n+1)] is taken, a save that returns has stored
    nothing: the records of the collection are as they were. *)
Theorem save_to_memory_collision self h a w w' c :
  lookup_collection (chroma_client self) (collection self) w = Some c →
  conv_id (coll_count c + 1) ∈ coll_ids c →
  save_to_memory self h a w = (Ok tt, w') →
  ∃ c', lookup_collection (chroma_client self) (collection self) w' = Some c' ∧
        coll_records c' = coll_records c.
Proof.
  intros Hl Hin (c' & Hadd & ->)%(save_to_memory_Ok_inv _ _ _ _ _ c Hl).
  exists c'. split; [apply lookup_store_collection|]. by eapply coll_add_old.
Qed.

(** *** What [save_to_memory] leaves alone *)

Lemma save_to_memory_frame self h a w :
  let w' := (save_to_memory self h a w).2 in
  checkpoints w' = checkpoints w ∧ stdout w' = stdout w ∧ stdin w' = stdin w ∧
  entropy w' = entropy w ∧ entropy_pos w' = entropy_pos w ∧
  environ w' = environ w.
Proof.
  destruct (save_to_memory self h a w) as [[[]|e] w'] eqn:Hs; cbn.
  - destruct (lookup_collection (chroma_client self) (collection self) w)
      as [c|] eqn:Hl.
    + by destruct (save_to_memory_Ok_inv _ _ _ _ _ c Hl Hs) as (c' & _ & ->).
    + rewrite save_to_memory_no_collection in Hs by done. discriminate.
  - by apply save_to_memory_error in Hs as ->.
Qed.

Lemma save_to_memory_other self h a w dir name :
  (chroma_client self, collection self) ≠ (dir, name) →
  lookup_collection dir name (save_to_memory self h a w).2 =
  lookup_collection dir name w.
Proof.
  intros Hne. destruct (save_to_memory self h a w) as [[[]|e] w'] eqn:Hs; cbn.
  - destruct (lookup_collection (chroma_client self) (collection self) w)
      as [c|] eqn:Hl.
    + destruct (save_to_memory_Ok_inv _ _ _ _ _ c Hl Hs) as (c' & _ & ->).
      by apply lookup_store_collection_ne.
    + rewrite save_to_memory_no_collection in Hs by done. discriminate.
  - by apply save_to_memory_error in Hs as ->.
Qed.

(** The answers depend on the disk only. *)
Lemma search_memory_disk self q w1 w2 :
  disk w1 = disk w2 → (search_memory self q w1).1 = (search_memory self q w2).1.
Proof.
  intros Hd. unfold search_memory, collection_query, the_collection,
    lookup_collection. rewrite !run_bind, Hd.
  destruct (disk w2 !! chroma_client self ≫= _) as [c|]; [|reflexivity].
  rewrite !run_lift. destruct (coll_query [q] 2 c) as [r|e]; [|reflexivity].
  by destruct (has_documents r).
Qed.

End memory.
