(* ===== verification/Chat.v ===== *)
(** * Chat: the method [chat] (lines 82-98 of [project_main.py]), with the
      tools and the agent it runs (lines 47-63)

    [chat] is a definition in the monad [SE World], composed as the source
    composes it: the stream of the agent, the [for] loop over it with the
    body of lines 92-94, [save_to_memory], the return.

    - [tools], [agent_stream]: [self.tools] and [self.agent.stream(...)];
    - [chat_body], [chat]: the body of the loop and the method;
    - [chat_pure]: the fold of the body over the chunks a run emits, which
      [chat] is proved to compute ([chat_eq_pure]);
    - what a turn returns ([chat_returns]), what it can raise and what it
      has written when it does ([chat_error_no_write], [chat_save_failure]);
    - [world_wf]: the collection exists and its ids are [conv_1 .. conv_n],
      kept by every turn ([chat_preserves_wf]); what a turn leaves alone
      (the other threads, the other collections, the input).

    The section is parametric in the collection type (any [Collection]), in
    the policy [llm] of the hosted model (from the messages of a thread to a
    run of the agent) and in the search provider [tavily]: the theorems hold
    for all of them. *)

From stdpp Require Import base tactics option list numbers strings gmap.
From S2P Require Import Prelude PyStr VectorStore AgentRuntime Session Memory.

Import Chroma Lang Graph.

Section chat.
Context `{Collection C}.
(** The hosted model with the graph around it: from the messages of the
    thread, the new one included, to a run. *)
Context (llm : list message → script).
(** The search provider: from [max_results] and a query to its answer. *)
Context (tavily : nat → string → result string).

Local Abbreviation World := (@World C).

Implicit Types (w : World) (self : ConversationalAgent) (c : C).

(** ** The tools and the agent *)

(** [self.search] as a tool.  The name and the description are those of
    the library class, of which the source gives neither; the description
    is its first sentence.  No theorem reads the description. *)
Definition tavily_tool (s : TavilySearchResults) : Tool World := {|
  tool_name := "tavily_search_results_json";
  tool_description := "A search engine optimized for comprehensive, accurate, and trusted results.";
  tool_func := λ query, se_lift (tavily (max_results s) query)
|}.

(** [self.tools]. *)
Definition tools (self : ConversationalAgent) : list (Tool World) :=
  [ tavily_tool (search self);
    {| tool_name := "memory_search";
       tool_description := "Search through past conversations";
       tool_func := search_memory self |} ].

(** The messages of a thread. *)
Definition thread_messages (thread_id : string) (w : World) : list message :=
  default [] (checkpoints w !! thread_id).

(** What the runtime writes when it emits a chunk: the chunk's messages, at
    the end of the thread. *)
Definition commit (thread_id : string) (c : chunk) : SE World unit :=
  se_modify (set_checkpoints (λ cp,
    <[thread_id := default [] (cp !! thread_id) ++ chunk_messages c]> cp)).

(** [self.agent.stream({"messages": [HumanMessage(content=message)]},
    config)]: the input joins the thread, and the run is the model's answer
    to the thread. *)
Definition agent_stream (self : ConversationalAgent)
    (message : string) (thread_id : string) : SE World script :=
  commit thread_id (Msg (HumanMessage (CStr message)));;
  se_gets (λ w, llm (thread_messages thread_id w)).

(** ** [chat] *)

(** The body of the loop: accumulate the content of an [AIMessage], print
    the chunk. *)
Definition chat_body (response : string) (c : chunk) : SE World string :=
  response' ←
    (if is_AIMessage c then
       content ← se_lift (chunk_content c); se_lift (str_iadd response content)
     else mret response);
  print_chunk c;;
  mret response'.

Definition chat (self : ConversationalAgent) (message thread_id : string) :
    SE World string :=
  let config := thread_id in
  let response := "" in
  stream ← agent_stream self message config;
  response ← for_stream (tools self) (commit config) stream chat_body response;
  save_to_memory self message response;;
  mret response.

(** [chat(message)], the thread id left to its default. *)
Definition chat_default (self : ConversationalAgent) (message : string) :
    SE World string :=
  chat self message "default".

(** ** The tools *)

(** What a tool of [self.tools] answers in a state: the search provider's
    answer, the answer of [search_memory], or the error for a name that is
    not listed. *)
Definition tool_answer self w (name arg : string) : result string :=
  if decide (name = "tavily_search_results_json")
  then tavily (max_results (search self)) arg
  else if decide (name = "memory_search")
  then (search_memory self arg w).1
  else Err (Exn (OtherError "ToolNotFound") name).

(** A tool call of the agent answers by [tool_answer] and leaves the
    process state as it was. *)
Lemma invoke_tool_run self name arg w :
  invoke_tool (tools self) name arg w = (Ok (tool_answer self w name arg), w).
Proof.
  unfold invoke_tool, find_tool, tools, tool_answer. cbn [list_find tool_name].
  repeat case_decide; simplify_eq; cbn; try reflexivity.
  pose proof (search_memory_world self arg w) as Hw.
  destruct (search_memory self arg w) as [r w']. cbn in *. by subst.
Qed.

(** The tools of the agent only read.  [memory_search] hands the
    agent what [search_memory] answers or raises, the search tool what the
    provider answers, every other name an error; none changes the state. *)
Theorem invoke_tool_tools self arg w :
  invoke_tool (tools self) "memory_search" arg w =
    (Ok (search_memory self arg w).1, w) ∧
  invoke_tool (tools self) "tavily_search_results_json" arg w =
    (Ok (tavily (max_results (search self)) arg), w) ∧
  ∀ name, name ∉ ["tavily_search_results_json"; "memory_search"] →
    invoke_tool (tools self) name arg w =
      (Ok (Err (Exn (OtherError "ToolNotFound") name)), w).
Proof.
  split; [by rewrite invoke_tool_run|]. split; [by rewrite invoke_tool_run|].
  intros name Hn. rewrite invoke_tool_run. unfold tool_answer.
  repeat case_decide; set_solver.
Qed.

Lemma tool_answer_disk self w1 w2 name arg :
  disk w1 = disk w2 → tool_answer self w1 name arg = tool_answer self w2 name arg.
Proof.
  intros Hd. unfold tool_answer. repeat case_decide; try reflexivity.
  by apply search_memory_disk.
Qed.

(** ** [chat] *)

(** The effect of [commit] on the world. *)
Definition commit_w (thread_id : string) (c : chunk) (w : World) : World :=
  set_checkpoints (λ cp,
    <[thread_id := default [] (cp !! thread_id) ++ chunk_messages c]> cp) w.

(** The effect of the loop body on the response. *)
Definition absorb (response : string) (c : chunk) : result string :=
  if is_AIMessage c then chunk_content c ≫= str_iadd response else Ok response.

(** The loop of [chat] over a list of chunks, as a function of the world. *)
Fixpoint stream_pure (thread_id : string) (cs : list chunk) (fin : option exn)
    (response : string) (w : World) : result string * World :=
  match cs with
  | [] => (match fin with None => Ok response | Some e => Err e end, w)
  | c :: cs' =>
      let w1 := commit_w thread_id c w in
      match absorb response c with
      | Ok response' =>
          stream_pure thread_id cs' fin response'
            (set_stdout (λ o, o ++ [PrintChunk c]) w1)
      | Err e => (Err e, w1)
      end
  end.

(** [chat] with the run of the agent resolved to the chunks it emits. *)
Definition chat_pure self (message thread_id : string) (w : World) :
    result string * World :=
  let w1 := commit_w thread_id (Msg (HumanMessage (CStr message))) w in
  let '(cs, fin) :=
    emitted (tool_answer self w) (llm (thread_messages thread_id w1)) in
  match stream_pure thread_id cs fin "" w1 with
  | (Ok response, w2) =>
      match save_to_memory self message response w2 with
      | (Ok _, w3) => (Ok response, w3)
      | (Err e, w3) => (Err e, w3)
      end
  | (Err e, w2) => (Err e, w2)
  end.

Lemma chat_body_run response (c : chunk) w :
  chat_body response c w =
  match absorb response c with
  | Ok response' => (Ok response', set_stdout (λ o, o ++ [PrintChunk c]) w)
  | Err e => (Err e, w)
  end.
Proof.
  unfold chat_body, absorb.
  destruct (is_AIMessage c); [|reflexivity].
  destruct (chunk_content c) as [[s|blocks]|e]; reflexivity.
Qed.

Lemma chat_body_disk response (c : chunk) w : disk (chat_body response c w).2 = disk w.
Proof. rewrite chat_body_run. by destruct (absorb response c). Qed.

Lemma for_chunks_chat thread_id cs fin response w :
  for_chunks (commit thread_id) cs fin chat_body response w =
  stream_pure thread_id cs fin response w.
Proof.
  revert response w. induction cs as [|c cs IH]; intros response w.
  - by destruct fin.
  - cbn [for_chunks stream_pure]. rewrite !run_bind. unfold commit at 1.
    rewrite run_modify. fold (commit_w thread_id c w).
    rewrite run_bind, chat_body_run.
    destruct (absorb response c); [apply IH | reflexivity].
Qed.

(** The loop of [chat] over the agent's run is the pure loop over the
    chunks the run emits: the tool calls in between change nothing. *)
Lemma for_stream_chat self thread_id sc response w :
  for_stream (tools self) (commit thread_id) sc chat_body response w =
  stream_pure thread_id (emitted (tool_answer self w) sc).1
    (emitted (tool_answer self w) sc).2 response w.
Proof.
  rewrite <- for_chunks_chat.
  apply (for_stream_emitted _ _ _ _ (λ w', disk w' = disk w)); [| | |done].
  - intros w' name arg Hd. rewrite invoke_tool_run. do 2 f_equal.
    by apply tool_answer_disk.
  - intros c w' Hd. exact Hd.
  - intros acc c w' Hd. by rewrite chat_body_disk.
Qed.

(** *** The pure loop *)

(** ["".join] of the texts of the [AIMessage] chunks. *)
Definition ai_texts (cs : list chunk) : string := Text.join "" (ai_text <$> cs).

(** The checkpointer after the runtime emitted the chunks [cs] on a
    thread. *)
Definition committed (thread_id : string) (cs : list chunk)
    (cp : gmap string (list message)) : gmap string (list message) :=
  foldl (λ cp ch,
    <[thread_id := default [] (cp !! thread_id) ++ chunk_messages ch]> cp) cp cs.

Lemma absorb_Ok response (ch : chunk) response' :
  absorb response ch = Ok response' ↔
  is_block_AIMessage ch = false ∧ response' = response +:+ ai_text ch.
Proof.
  clear. unfold absorb. destruct ch as [node msgs|[x|[s|blocks] calls|x tool|x]];
    cbn; rewrite ?string_app_nil_r; intuition congruence.
Qed.

Lemma absorb_Err response (ch : chunk) e :
  absorb response ch = Err e → is_block_AIMessage ch = true ∧ exn_cls e = TypeError.
Proof.
  unfold absorb. destruct ch as [node msgs|[x|[s|blocks] calls|x tool|x]]; cbn;
    try discriminate. by intros [= <-].
Qed.

Lemma ai_texts_cons (ch : chunk) cs : ai_texts (ch :: cs) = ai_text ch +:+ ai_texts cs.
Proof. unfold ai_texts. by rewrite fmap_cons, Text.join_empty_cons. Qed.

Lemma ai_texts_no_AIMessage cs :
  Forall (λ ch, is_AIMessage ch = false) cs → ai_texts cs = "".
Proof.
  clear. induction 1 as [|ch cs Hch _ IH]; [done|].
  by rewrite ai_texts_cons, IH, ai_text_not_AIMessage.
Qed.

(** The loop writes the checkpointer and standard output only. *)
Lemma stream_pure_frame thread_id cs fin response w :
  let w' := (stream_pure thread_id cs fin response w).2 in
  disk w' = disk w ∧ stdin w' = stdin w ∧ entropy w' = entropy w ∧
  entropy_pos w' = entropy_pos w ∧ environ w' = environ w.
Proof.
  revert response w. induction cs as [|ch cs IH]; intros response w; [done|].
  cbn [stream_pure]. destruct (absorb response ch); [|done].
  apply (IH _ (set_stdout _ (commit_w thread_id ch w))).
Qed.

(** A loop that returns saw no exception: the run ended by itself, no
    chunk was an [AIMessage] with a list for content, the response is the
    texts of the [AIMessage] chunks in order, and every chunk was committed
    and printed. *)
Lemma stream_pure_Ok thread_id cs fin response w r w' :
  stream_pure thread_id cs fin response w = (Ok r, w') →
  fin = None ∧ Forall (λ ch, is_block_AIMessage ch = false) cs ∧
  r = response +:+ ai_texts cs ∧
  stdout w' = stdout w ++ (PrintChunk <$> cs) ∧
  checkpoints w' = committed thread_id cs (checkpoints w).
Proof.
  revert response w. induction cs as [|ch cs IH]; intros response w.
  - cbn. destruct fin; [discriminate|]. intros [= <- <-].
    by rewrite string_app_nil_r, app_nil_r.
  - cbn [stream_pure]. destruct (absorb response ch) as [response'|e] eqn:Ha;
      [|discriminate].
    apply absorb_Ok in Ha as [Hb ->].
    intros (-> & Hall & -> & Hout & Hcp)%IH. cbn in Hout, Hcp.
    rewrite ai_texts_cons, string_app_assoc, fmap_cons, Hout, Hcp, <- app_assoc.
    by repeat split; [constructor|..].
Qed.

(** Conversely, such a run is absorbed to the end. *)
Lemma stream_pure_total thread_id cs fin response w :
  Forall (λ ch, is_block_AIMessage ch = false) cs →
  (stream_pure thread_id cs fin response w).1 =
    match fin with None => Ok (response +:+ ai_texts cs) | Some e => Err e end ∧
  stdout (stream_pure thread_id cs fin response w).2 =
    stdout w ++ (PrintChunk <$> cs).
Proof.
  revert response w. induction cs as [|ch cs IH]; intros response w Hall.
  - cbn. rewrite string_app_nil_r, app_nil_r. by destruct fin.
  - apply Forall_cons in Hall as [Hb Hall]. cbn [stream_pure].
    destruct (absorb_Ok response ch (response +:+ ai_text ch)) as [_ ->]; [|done].
    destruct (IH (response +:+ ai_text ch)
                (set_stdout (λ o, o ++ [PrintChunk ch]) (commit_w thread_id ch w))
                Hall) as [-> ->].
    rewrite ai_texts_cons, string_app_assoc, fmap_cons. cbn.
    by rewrite <- app_assoc.
Qed.

(** The first chunk that is an [AIMessage] with a list for content ends
    the loop with a [TypeError]. *)
Lemma stream_pure_Err thread_id cs fin response w e w' :
  stream_pure thread_id cs fin response w = (Err e, w') →
  fin = Some e ∨ (exn_cls e = TypeError ∧ Exists (λ ch, is_block_AIMessage ch = true) cs).
Proof.
  revert response w. induction cs as [|ch cs IH]; intros response w.
  - cbn. destruct fin; [|discriminate]. intros [= <- _]. by left.
  - cbn [stream_pure]. destruct (absorb response ch) as [response'|e'] eqn:Ha.
    + intros [?|[??]]%IH; [by left | right]. split; [done | by constructor].
    + apply absorb_Err in Ha as [Hb He]. intros [= <- _]. right.
      split; [done | by constructor].
Qed.

Lemma committed_cons thread_id (ch : chunk) cs cp :
  committed thread_id (ch :: cs) cp =
  committed thread_id cs
    (<[thread_id := default [] (cp !! thread_id) ++ chunk_messages ch]> cp).
Proof. reflexivity. Qed.

(** Other threads are not written. *)
Lemma committed_other thread_id other cs cp :
  thread_id ≠ other → committed thread_id cs cp !! other = cp !! other.
Proof.
  intros Hne. revert cp. induction cs as [|ch cs IH]; intros cp; [done|].
  by rewrite committed_cons, IH, lookup_insert_ne.
Qed.

(** The thread gains the messages of the chunks, in order. *)
Lemma committed_thread thread_id cs cp :
  default [] (committed thread_id cs cp !! thread_id) =
  default [] (cp !! thread_id) ++ concat (chunk_messages <$> cs).
Proof.
  revert cp. induction cs as [|ch cs IH]; intros cp; [by rewrite app_nil_r|].
  rewrite committed_cons, IH, lookup_insert_eq. cbn. by rewrite <- app_assoc.
Qed.

Lemma stream_pure_checkpoints thread_id cs fin response w :
  ∃ n, checkpoints (stream_pure thread_id cs fin response w).2 =
       committed thread_id (take n cs) (checkpoints w).
Proof.
  revert response w. induction cs as [|ch cs IH]; intros response w.
  - by exists 0.
  - cbn [stream_pure]. destruct (absorb response ch) as [response'|e].
    + destruct (IH response'
                  (set_stdout (λ o, o ++ [PrintChunk ch]) (commit_w thread_id ch w)))
        as [n Hn]. exists (S n). by rewrite Hn.
    + by exists 1.
Qed.

(** *** [chat]: the turn *)

(** What the agent emits for a message on a thread, in a state. *)
Definition chat_run self (message thread_id : string) (w : World) :
    list chunk * option exn :=
  emitted (tool_answer self w)
    (llm (thread_messages thread_id w ++ [HumanMessage (CStr message)])).

(** The state in which the loop of [chat] starts. *)
Definition chat_start (message thread_id : string) (w : World) : World :=
  commit_w thread_id (Msg (HumanMessage (CStr message))) w.

Lemma thread_messages_commit thread_id (ch : chunk) w :
  thread_messages thread_id (commit_w thread_id ch w) =
  thread_messages thread_id w ++ chunk_messages ch.
Proof. unfold thread_messages, commit_w. cbn. by rewrite lookup_insert_eq. Qed.

(** [chat] in terms of the run, the pure loop and the save. *)
Lemma chat_unfold self message thread_id w :
  chat self message thread_id w =
  match stream_pure thread_id (chat_run self message thread_id w).1
          (chat_run self message thread_id w).2 ""
          (chat_start message thread_id w) with
  | (Ok response, w2) =>
      match save_to_memory self message response w2 with
      | (Ok _, w3) => (Ok response, w3)
      | (Err e, w3) => (Err e, w3)
      end
  | (Err e, w2) => (Err e, w2)
  end.
Proof.
  unfold chat, agent_stream, chat_run, chat_start. rewrite !run_bind.
  unfold commit at 1. rewrite run_modify, run_gets.
  fold (commit_w thread_id (Msg (HumanMessage (CStr message))) w).
  rewrite thread_messages_commit. cbn [chunk_messages].
  set (w1 := commit_w _ _ w). rewrite run_bind, for_stream_chat.
  rewrite (emitted_ext (tool_answer self w1) (tool_answer self w))
    by (intros; by apply tool_answer_disk).
  destruct (stream_pure thread_id _ _ "" w1) as [[response|e] w2]; [|reflexivity].
  rewrite run_bind. by destruct (save_to_memory self message response w2) as [[[]|e] w3].
Qed.

(** C2. [chat] is [chat_pure]: the effectful loop over the generator, with
    its tool calls, computes what the pure fold over the emitted chunks
    computes, result and final state. *)
Theorem chat_eq_pure self message thread_id w :
  chat self message thread_id w = chat_pure self message thread_id w.
Proof.
  rewrite chat_unfold. unfold chat_pure, chat_run, chat_start.
  rewrite thread_messages_commit. cbn [chunk_messages].
  by destruct (emitted _ _).
Qed.

(** A turn that returns: the loop returned and then the save did. *)
Lemma chat_Ok_inv self message thread_id w r w' :
  chat self message thread_id w = (Ok r, w') →
  ∃ w2, stream_pure thread_id (chat_run self message thread_id w).1
          (chat_run self message thread_id w).2 ""
          (chat_start message thread_id w) = (Ok r, w2) ∧
        save_to_memory self message r w2 = (Ok tt, w').
Proof.
  rewrite chat_unfold.
  destruct (stream_pure _ _ _ _ _) as [[response|e] w2];
    [destruct (save_to_memory self message response w2) as [[[]|e] w3] eqn:Hs|];
    intros Heq; inv_ok; eauto.
Qed.

(** A turn that raises: the loop raised, or it returned and the save
    raised. *)
Lemma chat_Err_inv self message thread_id w e w' :
  chat self message thread_id w = (Err e, w') →
  stream_pure thread_id (chat_run self message thread_id w).1
    (chat_run self message thread_id w).2 ""
    (chat_start message thread_id w) = (Err e, w') ∨
  ∃ response,
    stream_pure thread_id (chat_run self message thread_id w).1
      (chat_run self message thread_id w).2 ""
      (chat_start message thread_id w) = (Ok response, w') ∧
    save_to_memory self message response w' = (Err e, w').
Proof.
  rewrite chat_unfold.
  destruct (stream_pure _ _ _ _ _) as [[response|e'] w2];
    [|intros Heq; inv_ok; by left].
  destruct (save_to_memory self message response w2) as [[[]|e'] w3] eqn:Hs;
    intros Heq; inv_ok.
  pose proof (save_to_memory_error _ _ _ _ _ _ Hs) as ->. right. eauto.
Qed.

(** *** What a turn can raise *)

(** A model whose runs end, if by an exception, by an [Exception]. *)
Definition model_raises_Exception : Prop :=
  ∀ msgs answer e, (emitted answer (llm msgs)).2 = Some e → is_Exception e = true.

(** A store whose [get] and [add] raise nothing but [Exception]s. *)
Definition store_raises_Exception : Prop :=
  (∀ (c : C) e, coll_get c = Err e → is_Exception e = true) ∧
  (∀ docs ids (c : C) e, coll_add docs ids c = Err e → is_Exception e = true).

Lemma save_to_memory_raises self h a w e w' :
  store_raises_Exception →
  save_to_memory self h a w = (Err e, w') → is_Exception e = true.
Proof.
  intros [Hget Hadd].
  destruct (lookup_collection (chroma_client self) (collection self) w)
    as [c|] eqn:Hl.
  - rewrite (save_to_memory_run _ _ _ _ c Hl).
    destruct (coll_get c) as [got|e1] eqn:Hg; [|intros [= <- _]; eauto].
    destruct (coll_add _ _ c) as [c'|e1] eqn:Ha; [discriminate|].
    intros [= <- _]; eauto.
  - rewrite save_to_memory_no_collection by done. by intros [= <- _].
Qed.

(** With such a model and such a store, a turn raises nothing but
    [Exception]s: the loop adds a [TypeError] at most. *)
Lemma chat_raises_Exception self message thread_id w e w' :
  model_raises_Exception → store_raises_Exception →
  chat self message thread_id w = (Err e, w') → is_Exception e = true.
Proof.
  intros Hm Hs [Hloop | (response & _ & Hsave)]%chat_Err_inv.
  - apply stream_pure_Err in Hloop as [Hfin | [Hcls _]].
    + by apply (Hm _ _ _ Hfin).
    + unfold is_Exception. by rewrite Hcls.
  - by eapply save_to_memory_raises.
Qed.

(** The record a turn that returns stores. *)
Lemma chat_Ok_collection self message thread_id w r w' c :
  lookup_collection (chroma_client self) (collection self) w = Some c →
  ids_wf c →
  chat self message thread_id w = (Ok r, w') →
  ∃ c', lookup_collection (chroma_client self) (collection self) w' = Some c' ∧
        coll_records c' =
          coll_records c ++ [(conv_id (coll_count c + 1), turn_document message r)] ∧
        ids_wf c'.
Proof.
  intros Hl Hwf (w2 & Hloop & Hsave)%chat_Ok_inv.
  pose proof (stream_pure_frame thread_id (chat_run self message thread_id w).1
    (chat_run self message thread_id w).2 "" (chat_start message thread_id w))
    as (Hd & _). rewrite Hloop in Hd. cbn in Hd.
  rewrite (lookup_collection_disk _ _ w w2) in Hl by done.
  destruct (save_to_memory_Ok_wf _ _ _ _ _ _ Hl Hwf Hsave) as (c' & -> & ? & ?).
  exists c'. split; [apply lookup_store_collection | done].
Qed.

(** C1. A turn that returns gives the texts of the agent's [AIMessage]
    chunks, joined in the order of emission; it printed every chunk; and
    it stored exactly one record, the document of the message and that
    response, under the next id. *)
Theorem chat_returns self message thread_id w r w' c :
  lookup_collection (chroma_client self) (collection self) w = Some c →
  ids_wf c →
  chat self message thread_id w = (Ok r, w') →
  (chat_run self message thread_id w).2 = None ∧
  r = ai_texts (chat_run self message thread_id w).1 ∧
  stdout w' = stdout w ++ (PrintChunk <$> (chat_run self message thread_id w).1) ∧
  ∃ c', lookup_collection (chroma_client self) (collection self) w' = Some c' ∧
        coll_records c' =
          coll_records c ++ [(conv_id (coll_count c + 1), turn_document message r)] ∧
        ids_wf c'.
Proof.
  intros Hl Hwf Hc.
  pose proof (chat_Ok_collection _ _ _ _ _ _ _ Hl Hwf Hc) as Hcoll.
  apply chat_Ok_inv in Hc as (w2 & Hloop & Hsave).
  apply stream_pure_Ok in Hloop as (Hfin & _ & Hr & Hout & _).
  rewrite string_app_nil_l in Hr.
  pose proof (save_to_memory_frame self message r w2) as (_ & Hout' & _).
  rewrite Hsave in Hout'. cbn in Hout'. rewrite Hout', Hout. eauto 10.
Qed.

(** A turn that raises wrote nothing to the store: whether the agent
    failed, a chunk could not be appended or the save failed, the disk is as
    it was. *)
Lemma chat_Err_disk self message thread_id w e w' :
  chat self message thread_id w = (Err e, w') → disk w' = disk w.
Proof.
  pose proof (stream_pure_frame thread_id (chat_run self message thread_id w).1
    (chat_run self message thread_id w).2 "" (chat_start message thread_id w))
    as (Hd & _).
  intros [Hloop | (response & Hloop & _)]%chat_Err_inv;
    rewrite Hloop in Hd; exact Hd.
Qed.

(** An exception that ends the loop ends [chat]: the turn is not saved. *)
Lemma chat_loop_Err self message thread_id w e w' :
  stream_pure thread_id (chat_run self message thread_id w).1
    (chat_run self message thread_id w).2 ""
    (chat_start message thread_id w) = (Err e, w') →
  chat self message thread_id w = (Err e, w') ∧ disk w' = disk w.
Proof.
  intros Hloop.
  assert (chat self message thread_id w = (Err e, w')) as Hc
    by (by rewrite chat_unfold, Hloop).
  split; [done | by eapply chat_Err_disk].
Qed.

(** When the agent raises, [chat] raises the same exception after printing
    the chunks emitted before it. *)
Theorem chat_agent_error self message thread_id w e :
  (chat_run self message thread_id w).2 = Some e →
  Forall (λ ch, is_block_AIMessage ch = false) (chat_run self message thread_id w).1 →
  (chat self message thread_id w).1 = Err e ∧
  stdout (chat self message thread_id w).2 =
    stdout w ++ (PrintChunk <$> (chat_run self message thread_id w).1).
Proof.
  intros Hfin Hall. rewrite chat_unfold.
  destruct (stream_pure_total thread_id _ (chat_run self message thread_id w).2
              "" (chat_start message thread_id w) Hall) as [Hr Hout].
  destruct (stream_pure _ _ _ _ _) as [r w2]. cbn in Hr, Hout.
  rewrite Hfin in Hr. by subst r.
Qed.

(** C38. When the store refuses the record, [chat] raises: the response that was
    assembled is not returned. *)
Theorem chat_save_failure self message thread_id w c got e :
  lookup_collection (chroma_client self) (collection self) w = Some c →
  (chat_run self message thread_id w).2 = None →
  Forall (λ ch, is_block_AIMessage ch = false) (chat_run self message thread_id w).1 →
  coll_get c = Ok got →
  coll_add [turn_document message (ai_texts (chat_run self message thread_id w).1)]
           [conv_id (length (gr_ids got) + 1)] c = Err e →
  (chat self message thread_id w).1 = Err e.
Proof.
  intros Hl Hfin Hall Hget Hadd. rewrite chat_unfold.
  destruct (stream_pure_total thread_id _ (chat_run self message thread_id w).2
              "" (chat_start message thread_id w) Hall) as [Hr _].
  pose proof (stream_pure_frame thread_id (chat_run self message thread_id w).1
    (chat_run self message thread_id w).2 "" (chat_start message thread_id w))
    as (Hd & _).
  destruct (stream_pure _ _ _ _ _) as [r w2]. cbn in Hr, Hd.
  rewrite Hfin, string_app_nil_l in Hr. subst r.
  rewrite (lookup_collection_disk _ _ w w2) in Hl by done.
  by rewrite (save_to_memory_run _ _ _ _ c Hl), Hget, Hadd.
Qed.

(** C10. When no chunk of the stream is an [AIMessage] object, as when the
    runtime streams the updates of its nodes, a turn that returns gives the
    empty string and stores a document with no answer in it. *)
Theorem chat_no_AIMessage self message thread_id w :
  Forall (λ ch, is_AIMessage ch = false) (chat_run self message thread_id w).1 →
  (chat self message thread_id w).1 = Ok "" ∨
  ∃ e, (chat self message thread_id w).1 = Err e.
Proof.
  intros Hall.
  destruct (chat self message thread_id w) as [[r|e] w'] eqn:Hc;
    [left | right; by eexists].
  apply chat_Ok_inv in Hc as (w2 & Hloop & _).
  apply stream_pure_Ok in Hloop as (_ & _ & -> & _).
  rewrite string_app_nil_l. cbn. f_equal. by apply ai_texts_no_AIMessage.
Qed.

(** *** What a turn leaves alone *)

(** The state after a turn is the state after the loop, or the state after
    a save in it. *)
Lemma chat_world self message thread_id w :
  let w2 := (stream_pure thread_id (chat_run self message thread_id w).1
               (chat_run self message thread_id w).2 ""
               (chat_start message thread_id w)).2 in
  (chat self message thread_id w).2 = w2 ∨
  ∃ response, (chat self message thread_id w).2 =
              (save_to_memory self message response w2).2.
Proof.
  rewrite chat_unfold.
  destruct (stream_pure _ _ _ _ _) as [[response|e] w2]; cbn; [|by left].
  right. exists response.
  by destruct (save_to_memory self message response w2) as [[[]|e] w3].
Qed.

(** A turn reads no input, draws no entropy and leaves the environment. *)
Lemma chat_frame self message thread_id w :
  let w' := (chat self message thread_id w).2 in
  stdin w' = stdin w ∧ entropy w' = entropy w ∧
  entropy_pos w' = entropy_pos w ∧ environ w' = environ w.
Proof.
  pose proof (stream_pure_frame thread_id (chat_run self message thread_id w).1
    (chat_run self message thread_id w).2 "" (chat_start message thread_id w))
    as (_ & H1 & H2 & H3 & H4). cbv zeta.
  destruct (chat_world self message thread_id w) as [-> | [response ->]]; [done|].
  pose proof (save_to_memory_frame self message response
    (stream_pure thread_id (chat_run self message thread_id w).1
       (chat_run self message thread_id w).2 "" (chat_start message thread_id w)).2)
    as (_ & _ & -> & -> & -> & ->). done.
Qed.

(** C8. A turn that raises wrote nothing to the store and took nothing
    from the process: the disk, the input, the entropy and the environment
    are as they were; what changed is the thread and the output. *)
Theorem chat_error_no_write self message thread_id w e w' :
  chat self message thread_id w = (Err e, w') →
  disk w' = disk w ∧ stdin w' = stdin w ∧ entropy w' = entropy w ∧
  entropy_pos w' = entropy_pos w ∧ environ w' = environ w.
Proof.
  intros Hc. pose proof (chat_frame self message thread_id w) as Hf.
  cbv zeta in Hf. rewrite Hc in Hf. split; [by eapply chat_Err_disk | exact Hf].
Qed.

(** What the loop prints is a prefix of the chunks, each by [print(chunk)]. *)
Lemma stream_pure_stdout thread_id cs fin response w :
  ∃ n, stdout (stream_pure thread_id cs fin response w).2 =
       stdout w ++ (PrintChunk <$> take n cs).
Proof.
  revert response w. induction cs as [|ch cs IH]; intros response w.
  - exists 0. cbn. by rewrite app_nil_r.
  - cbn [stream_pure]. destruct (absorb response ch) as [response'|e].
    + destruct (IH response' (set_stdout (λ o, o ++ [PrintChunk ch])
                                (commit_w thread_id ch w))) as [n ->].
      exists (S n). cbn. by rewrite <- app_assoc.
    + exists 0. cbn. by rewrite app_nil_r.
Qed.

(** A turn prints chunks of the run and nothing else. *)
Lemma chat_stdout self message thread_id w :
  ∃ n, stdout (chat self message thread_id w).2 =
       stdout w ++ (PrintChunk <$> take n (chat_run self message thread_id w).1).
Proof.
  destruct (stream_pure_stdout thread_id (chat_run self message thread_id w).1
    (chat_run self message thread_id w).2 "" (chat_start message thread_id w))
    as [n Hn].
  exists n. destruct (chat_world self message thread_id w) as [-> | [response ->]];
    [done|].
  pose proof (save_to_memory_frame self message response
    (stream_pure thread_id (chat_run self message thread_id w).1
       (chat_run self message thread_id w).2 "" (chat_start message thread_id w)).2)
    as (_ & -> & _). done.
Qed.

(** The checkpointer after a turn: the chunks the loop got to, committed on
    the thread after the message. *)
Lemma chat_checkpoints self message thread_id w :
  ∃ n, checkpoints (chat self message thread_id w).2 =
       committed thread_id (take n (chat_run self message thread_id w).1)
         (checkpoints (chat_start message thread_id w)).
Proof.
  destruct (stream_pure_checkpoints thread_id (chat_run self message thread_id w).1
    (chat_run self message thread_id w).2 "" (chat_start message thread_id w))
    as [n Hcp].
  exists n. destruct (chat_world self message thread_id w) as [-> | [response ->]];
    [done|].
  by destruct (save_to_memory_frame self message response
    (stream_pure thread_id (chat_run self message thread_id w).1
       (chat_run self message thread_id w).2 "" (chat_start message thread_id w)).2)
    as (-> & _).
Qed.

(** C24. Threads are isolated: a turn on one thread leaves the messages of
    every other thread as they were. *)
Theorem chat_thread_isolation self message thread_id other w :
  thread_id ≠ other →
  checkpoints (chat self message thread_id w).2 !! other = checkpoints w !! other.
Proof.
  intros Hne. destruct (chat_checkpoints self message thread_id w) as [n ->].
  rewrite committed_other by done. cbn. by rewrite lookup_insert_ne.
Qed.

(** The thread of the turn keeps its messages and gains the new one. *)
Theorem chat_thread_grows self message thread_id w :
  thread_messages thread_id w ++ [HumanMessage (CStr message)]
    `prefix_of` thread_messages thread_id (chat self message thread_id w).2.
Proof.
  destruct (chat_checkpoints self message thread_id w) as [n Heq].
  unfold thread_messages at 2. rewrite Heq, committed_thread.
  fold (thread_messages thread_id (chat_start message thread_id w)).
  unfold chat_start. rewrite thread_messages_commit. by eexists.
Qed.

(** A turn touches no collection but its own. *)
Theorem chat_other_collections self message thread_id w dir name :
  (chroma_client self, collection self) ≠ (dir, name) →
  lookup_collection dir name (chat self message thread_id w).2 =
  lookup_collection dir name w.
Proof.
  intros Hne.
  pose proof (stream_pure_frame thread_id (chat_run self message thread_id w).1
    (chat_run self message thread_id w).2 "" (chat_start message thread_id w))
    as (Hd & _).
  destruct (chat_world self message thread_id w) as [-> | [response ->]].
  - by apply lookup_collection_disk.
  - rewrite save_to_memory_other by done. by apply lookup_collection_disk.
Qed.

(** The invariant of the process: the handle of [self] refers to a
    collection whose ids are [conv_1 .. conv_n]. *)
Definition world_wf self w : Prop :=
  ∃ c, lookup_collection (chroma_client self) (collection self) w = Some c ∧
       ids_wf c.

(** The invariant depends on the disk alone. *)
Lemma world_wf_disk self w1 w2 :
  disk w1 = disk w2 → world_wf self w1 → world_wf self w2.
Proof.
  intros Hd (c & Hl & Hwf). exists c.
  by rewrite (lookup_collection_disk _ _ w2 w1).
Qed.

(** The collection after a turn: well formed again, with one record more
    when the turn returned and the same records when it raised. *)
Lemma chat_collection self message thread_id w c :
  lookup_collection (chroma_client self) (collection self) w = Some c →
  ids_wf c →
  ∃ c', lookup_collection (chroma_client self) (collection self)
          (chat self message thread_id w).2 = Some c' ∧
        ids_wf c' ∧
        coll_count c' =
          coll_count c + (if is_Ok (chat self message thread_id w).1 then 1 else 0).
Proof.
  intros Hl Hwf.
  destruct (chat self message thread_id w) as [[r|e] w'] eqn:Hc; cbn.
  - destruct (chat_Ok_collection _ _ _ _ _ _ _ Hl Hwf Hc) as (c' & ? & Hr & ?).
    exists c'. split; [done|]. split; [done|].
    unfold coll_count. by rewrite Hr, length_app.
  - apply chat_Err_disk in Hc. exists c. split; [|split; [done|lia]].
    by rewrite (lookup_collection_disk _ _ w' w).
Qed.

(** C11. Every turn keeps the invariant, whether it returns or raises. *)
Theorem chat_preserves_wf self message thread_id w :
  world_wf self w → world_wf self (chat self message thread_id w).2.
Proof.
  intros (c & Hl & Hwf).
  destruct (chat_collection self message thread_id w c Hl Hwf) as (c' & ? & ? & _).
  by exists c'.
Qed.

(** The number of records after a turn: one more when it returns, the same
    when it raises. *)
Theorem chat_count self message thread_id w c :
  lookup_collection (chroma_client self) (collection self) w = Some c →
  ids_wf c →
  ∃ c', lookup_collection (chroma_client self) (collection self)
          (chat self message thread_id w).2 = Some c' ∧
        coll_count c' =
          coll_count c + (if is_Ok (chat self message thread_id w).1 then 1 else 0).
Proof.
  intros Hl Hwf.
  destruct (chat_collection self message thread_id w c Hl Hwf) as (c' & ? & _ & ?).
  by exists c'.
Qed.

End chat.
