(* ===== verification/Startup.v ===== *)
(** * Startup: [__init__] (lines 26-45 of [project_main.py])

    The constructor of [ConversationalAgent]: the Chroma client on the
    directory [vector_store], the collection [conversation_history], a new
    checkpointer, and the two constructors that read a credential from the
    environment.

    - [init]: the statements of [__init__] in their order;
    - [init_run]: the result on every environment, and the state
      [init_world] the constructor leaves, whether it returns or raises;
    - a restart finds the records of the run before ([init_restart]) and
      the invariant of the store ([init_establishes_wf]). *)

From stdpp Require Import base tactics option list numbers strings gmap.
From S2P Require Import Prelude VectorStore AgentRuntime Session Memory Chat.

Import Chroma Lang Graph.

Section startup.
Context `{Collection C}.

Local Abbreviation World := (@World C).

Implicit Types (w : World) (self : ConversationalAgent) (c : C).

(** ** [__init__] *)

(** [chromadb.Client(settings)]: open the directory, creating it if there
    is none. *)
Definition chromadb_Client (settings : Settings) : SE World string :=
  se_modify (set_disk (λ d,
    match d !! persist_directory settings with
    | Some _ => d
    | None => <[persist_directory settings := ∅]> d
    end));;
  mret (persist_directory settings).

(** [client.get_or_create_collection(name=name)]. *)
Definition client_get_or_create_collection (client name : string) :
    SE World string :=
  se_modify (set_disk (λ d,
    <[client := get_or_create_collection name (default ∅ (d !! client))]> d));;
  mret name.

(** [MemorySaver()]: a checkpointer with no thread. *)
Definition MemorySaver : SE World unit :=
  se_modify (set_checkpoints (λ _, ∅)).

Definition init : SE World ConversationalAgent :=
  client ← chromadb_Client
    {| persist_directory := "vector_store"; is_persistent := true |};
  coll ← client_get_or_create_collection client "conversation_history";
  MemorySaver;;
  require_env "ANTHROPIC_API_KEY";;
  let model :=
    {| model_name := "claude-3-sonnet-20240229"; temperature_tenths := 7 |} in
  require_env "TAVILY_API_KEY";;
  let search := {| max_results := 3 |} in
  mret {| chroma_client := client; collection := coll;
          model := model; search := search |}.

(** ** [__init__] *)

(** The object [__init__] builds. *)
Definition the_agent : ConversationalAgent := {|
  chroma_client := "vector_store";
  collection := "conversation_history";
  model := {| model_name := "claude-3-sonnet-20240229"; temperature_tenths := 7 |};
  search := {| max_results := 3 |}
|}.

(** The state [__init__] leaves: the directory and the collection are there,
    the checkpointer is new. *)
Definition init_world (w : World) : World :=
  set_checkpoints (λ _, ∅)
    (set_disk (λ d,
       <["vector_store" :=
           get_or_create_collection "conversation_history"
             (default ∅ (d !! "vector_store"))]> d) w).

Lemma init_run w :
  init w =
  match environ w !! "ANTHROPIC_API_KEY", environ w !! "TAVILY_API_KEY" with
  | Some _, Some _ => (Ok the_agent, init_world w)
  | None, _ => (Err (Exn (OtherError "ValidationError") "ANTHROPIC_API_KEY"),
                init_world w)
  | Some _, None => (Err (Exn (OtherError "ValidationError") "TAVILY_API_KEY"),
                     init_world w)
  end.
Proof.
  assert (∀ d : gmap string (gmap string C),
    <["vector_store" := get_or_create_collection "conversation_history"
        (default ∅ (match d !! "vector_store" with
                    | Some _ => d
                    | None => <["vector_store" := ∅]> d
                    end !! "vector_store"))]>
      match d !! "vector_store" with
      | Some _ => d
      | None => <["vector_store" := ∅]> d
      end =
    <["vector_store" := get_or_create_collection "conversation_history"
        (default ∅ (d !! "vector_store"))]> d) as Hd.
  { intros d. destruct (d !! "vector_store") as [colls|] eqn:E.
    - by rewrite E.
    - by rewrite lookup_insert_eq, insert_insert_eq. }
  unfold init, chromadb_Client, client_get_or_create_collection, MemorySaver,
    require_env, init_world, the_agent.
  unfold se_modify, mbind, mret, se_mbind, se_mret, se_bind, se_ret,
    set_checkpoints, set_disk.
  cbn -[get_or_create_collection]. rewrite Hd.
  destruct (environ w !! "ANTHROPIC_API_KEY");
    cbn -[get_or_create_collection]; [|reflexivity].
  by destruct (environ w !! "TAVILY_API_KEY").
Qed.

(** The state after [__init__], whether it returned or raised. *)
Lemma init_state w : (init w).2 = init_world w.
Proof.
  rewrite init_run.
  by destruct (environ w !! "ANTHROPIC_API_KEY"), (environ w !! "TAVILY_API_KEY").
Qed.

(** With both credentials in the environment, [__init__] returns. *)
Theorem init_returns w :
  is_Some (environ w !! "ANTHROPIC_API_KEY") →
  is_Some (environ w !! "TAVILY_API_KEY") →
  init w = (Ok the_agent, init_world w).
Proof. intros [k1 H1] [k2 H2]. by rewrite init_run, H1, H2. Qed.

(** Without a credential, [__init__] raises, after the store was opened. *)
Theorem init_no_credential w :
  environ w !! "ANTHROPIC_API_KEY" = None ∨ environ w !! "TAVILY_API_KEY" = None →
  ∃ key, init w = (Err (Exn (OtherError "ValidationError") key), init_world w).
Proof.
  intros Hk. rewrite init_run.
  destruct (environ w !! "ANTHROPIC_API_KEY"), (environ w !! "TAVILY_API_KEY");
    eauto; by destruct Hk.
Qed.

(** The collection after [__init__]: the one that was stored, or a new one. *)
Lemma init_world_lookup w :
  lookup_collection "vector_store" "conversation_history" (init_world w) =
  Some (default coll_empty
          (lookup_collection "vector_store" "conversation_history" w)).
Proof.
  unfold lookup_collection, init_world. cbn -[get_or_create_collection].
  rewrite lookup_insert_eq. cbn -[get_or_create_collection].
  destruct (disk w !! "vector_store") as [colls|]; cbn -[get_or_create_collection].
  - destruct (colls !! "conversation_history") as [c|] eqn:E.
    + by rewrite (get_or_create_existing _ _ c).
    + by rewrite get_or_create_fresh.
  - by rewrite get_or_create_fresh.
Qed.

(** Restart: the records of an earlier run are found again by
    [__init__], and the threads of the checkpointer are not. *)
Theorem init_restart w c :
  lookup_collection "vector_store" "conversation_history" w = Some c →
  lookup_collection "vector_store" "conversation_history" (init w).2 = Some c ∧
  checkpoints (init w).2 = ∅.
Proof. intros Hl. by rewrite init_state, init_world_lookup, Hl. Qed.

(** [__init__] establishes the invariant when the stored collection, if
    there is one, has it; a new collection has it. *)
Theorem init_establishes_wf w :
  (∀ c, lookup_collection "vector_store" "conversation_history" w = Some c →
        ids_wf c) →
  world_wf the_agent (init w).2.
Proof.
  intros Hwf. rewrite init_state. eexists. split; [apply init_world_lookup|].
  destruct (lookup_collection _ _ w) as [c|]; [by apply Hwf | apply ids_wf_empty].
Qed.

End startup.
