(* ===== verification/Turn.v ===== *)
(** * Turn: one turn of [chat] as a state machine

    [chat] (lines 82-98 of [project_main.py]) goes through the states
    START, INVOKING_AGENT, STREAMING_RESPONSE, PERSISTING and DONE, with
    FAILED reachable on the way.  Here the turn is a step relation on
    configurations, one rule for each thing that can happen next: the agent
    is invoked, a tool is called, a chunk is absorbed or refused, the run
    finishes or raises, the save returns or raises.

    - [step] is deterministic, and every configuration that is not final
      has a step ([step_deterministic], [step_progress]);
    - [chat] computes the final configuration of the machine, and the
      machine reaches no other ([chat_refines_turn]);
    - the phases of the steps follow [phase_step], the transitions the
      design allows ([step_phase]);
    - the store is written by the last step into DONE and by no other
      ([steps_keep_disk]). *)

From stdpp Require Import base tactics option list numbers strings gmap relations.
From S2P Require Import Prelude VectorStore AgentRuntime Session Memory Chat.

Import Chroma Lang Graph.

(** The states of a turn. *)
Inductive phase : Type :=
| START
| INVOKING_AGENT
| STREAMING_RESPONSE
| PERSISTING
| DONE
| FAILED.

#[global] Instance phase_eq_dec : EqDecision phase.
Proof. solve_decision. Defined.

(** The transitions between the states: the line from START to DONE, the
    agent and the stream staying where they are while they work, and FAILED
    from every state in which something runs. *)
Inductive phase_step : phase → phase → Prop :=
| ps_invoke : phase_step START INVOKING_AGENT
| ps_invoking : phase_step INVOKING_AGENT INVOKING_AGENT
| ps_stream : phase_step INVOKING_AGENT STREAMING_RESPONSE
| ps_streaming : phase_step STREAMING_RESPONSE STREAMING_RESPONSE
| ps_silent : phase_step INVOKING_AGENT PERSISTING
| ps_persist : phase_step STREAMING_RESPONSE PERSISTING
| ps_done : phase_step PERSISTING DONE
| ps_invoke_failed : phase_step INVOKING_AGENT FAILED
| ps_stream_failed : phase_step STREAMING_RESPONSE FAILED
| ps_persist_failed : phase_step PERSISTING FAILED.

Section turn.
Context `{Collection C}.
Context (llm : list message → script) (tavily : nat → string → result string).
Context (self : ConversationalAgent) (message thread_id : string).

Local Abbreviation World := (@World C).

(** A turn under way: what is left of the agent's run, the response so far
    and the process state. *)
Inductive config : Type :=
| Start (w : World)
| Running (streamed : bool) (sc : script) (response : string) (w : World)
| Persisting (response : string) (w : World)
| Done (response : string) (w : World)
| Failed (e : exn) (w : World).

Definition phase_of (c : config) : phase :=
  match c with
  | Start _ => START
  | Running false _ _ _ => INVOKING_AGENT
  | Running true _ _ _ => STREAMING_RESPONSE
  | Persisting _ _ => PERSISTING
  | Done _ _ => DONE
  | Failed _ _ => FAILED
  end.

Definition world_of (c : config) : World :=
  match c with
  | Start w | Running _ _ _ w | Persisting _ w | Done _ w | Failed _ w => w
  end.

Definition is_final (c : config) : bool :=
  match c with
  | Done _ _ | Failed _ _ => true
  | _ => false
  end.

(** The configuration in which a computation of [SE World string] ends. *)
Definition outcome (r : result string * World) : config :=
  match r with
  | (Ok response, w) => Done response w
  | (Err e, w) => Failed e w
  end.

(** The same for the loop, which leaves the save to do. *)
Definition streamed (r : result string * World) : config :=
  match r with
  | (Ok response, w) => Persisting response w
  | (Err e, w) => Failed e w
  end.

Inductive step : config → config → Prop :=
| step_start w :
    step (Start w)
      (Running false
         (llm (thread_messages thread_id (chat_start message thread_id w)))
         "" (chat_start message thread_id w))
| step_tool b name arg k response w :
    step (Running b (CallTool name arg k) response w)
      (Running b (k (tool_answer tavily self w name arg)) response w)
| step_chunk b c k response response' w :
    absorb response c = Ok response' →
    step (Running b (Yield c k) response w)
      (Running true k response'
         (set_stdout (λ o, o ++ [PrintChunk c]) (commit_w thread_id c w)))
| step_chunk_error b c k response e w :
    absorb response c = Err e →
    step (Running b (Yield c k) response w) (Failed e (commit_w thread_id c w))
| step_finish b response w :
    step (Running b Finish response w) (Persisting response w)
| step_raise b e response w :
    step (Running b (Raise e) response w) (Failed e w)
| step_saved response w w' :
    save_to_memory self message response w = (Ok tt, w') →
    step (Persisting response w) (Done response w')
| step_save_error response w e w' :
    save_to_memory self message response w = (Err e, w') →
    step (Persisting response w) (Failed e w').

(** ** The machine *)

Lemma step_deterministic c c1 c2 : step c c1 → step c c2 → c1 = c2.
Proof. intros H1 H2. destruct H1; inversion H2; congruence. Qed.

Lemma final_no_step c c' : is_final c = true → ¬ step c c'.
Proof. intros Hf Hs. by destruct Hs. Qed.

Lemma step_progress c : is_final c = false → ∃ c', step c c'.
Proof.
  destruct c as [w|b [ch k|name arg k| |e] r w|r w|r w|e w]; intros Hf;
    try discriminate; try by (eexists; constructor).
  - destruct (absorb r ch) as [r'|e] eqn:Ha; eexists;
      [by apply step_chunk | by apply step_chunk_error].
  - destruct (save_to_memory self message r w) as [[[]|e] w'] eqn:Hs; eexists;
      [by apply step_saved | by apply step_save_error].
Qed.

(** Two runs of a configuration to final configurations end in the same
    one. *)
Lemma steps_final_unique c c1 c2 :
  rtc step c c1 → rtc step c c2 →
  is_final c1 = true → is_final c2 = true → c1 = c2.
Proof.
  intros H1. revert c2. induction H1 as [c|c c' c1 Hs _ IH]; intros c2 H2 Hf1 Hf2.
  - inversion H2 as [|? c' ? Hs' _]; subst; [done|].
    by destruct (final_no_step c c').
  - inversion H2 as [|? c'' ? Hs' H2']; subst;
      [by destruct (final_no_step c2 c')|].
    rewrite (step_deterministic _ _ _ Hs' Hs) in H2'. by apply IH.
Qed.

(** ** [chat] runs the machine *)

(** The loop of [chat] over what is left of a run takes the machine to the
    save, or to FAILED. *)
Lemma running_steps b sc response w :
  rtc step (Running b sc response w)
    (streamed (for_stream (tools tavily self) (commit thread_id) sc chat_body
                 response w)).
Proof.
  revert b response w.
  induction sc as [ch k IH|name arg k IH| |e]; intros b response w;
    cbn [for_stream].
  - rewrite run_bind. unfold commit at 1. rewrite run_modify.
    fold (commit_w thread_id ch w). rewrite run_bind, chat_body_run.
    destruct (absorb response ch) as [response'|e] eqn:Ha.
    + eapply rtc_l; [by apply step_chunk | apply IH].
    + apply rtc_once. by apply step_chunk_error.
  - rewrite run_bind, invoke_tool_run.
    eapply rtc_l; [apply step_tool | apply IH].
  - apply rtc_once, step_finish.
  - apply rtc_once, step_raise.
Qed.

Lemma chat_steps w :
  rtc step (Start w) (outcome (chat llm tavily self message thread_id w)).
Proof.
  eapply rtc_l; [apply step_start|].
  unfold chat, agent_stream. rewrite !run_bind. unfold commit at 1.
  rewrite run_modify, run_gets.
  fold (commit_w thread_id (Msg (HumanMessage (CStr message))) w).
  fold (chat_start message thread_id w). rewrite run_bind.
  pose proof (running_steps false
    (llm (thread_messages thread_id (chat_start message thread_id w))) ""
    (chat_start message thread_id w)) as Hrun.
  destruct (for_stream _ _ _ _ _ _) as [[r|e] w2]; [|exact Hrun].
  rewrite run_bind.
  destruct (save_to_memory self message r w2) as [[[]|e] w3] eqn:Hs;
    (eapply rtc_r; [exact Hrun|]); [by apply step_saved | by apply step_save_error].
Qed.

(** C3. [chat] refines the machine: the final configurations the machine
    reaches from START are one, the outcome of [chat]. *)
Theorem chat_refines_turn w c :
  is_final c = true →
  rtc step (Start w) c ↔ c = outcome (chat llm tavily self message thread_id w).
Proof.
  intros Hf. split; [|intros ->; apply chat_steps].
  intros Hc. apply (steps_final_unique (Start w)); [done | apply chat_steps | done|].
  by destruct (chat llm tavily self message thread_id w) as [[r|e] w'].
Qed.

(** Every turn ends: the machine reaches a final configuration from START. *)
Theorem turn_terminates w : ∃ c, rtc step (Start w) c ∧ is_final c = true.
Proof.
  exists (outcome (chat llm tavily self message thread_id w)).
  split; [apply chat_steps|].
  by destruct (chat llm tavily self message thread_id w) as [[r|e] w'].
Qed.

(** ** The phases *)

(** Every step of the machine is a transition between the states of a
    turn. *)
Theorem step_phase c c' : step c c' → phase_step (phase_of c) (phase_of c').
Proof. intros Hs. destruct Hs; try destruct b; constructor. Qed.

(** ** The store *)

Lemma step_keeps_disk c c' :
  step c c' → phase_of c' ≠ DONE → disk (world_of c') = disk (world_of c).
Proof.
  intros Hs Hd. destruct Hs as [| | | | | | |r w e w' Hsave]; try done.
  by apply save_to_memory_error in Hsave as ->.
Qed.

(** The store is written by the step into DONE and by no other: in every
    configuration the machine reaches before, and in FAILED, the disk is the
    one the turn started with. *)
Theorem steps_keep_disk c c' :
  rtc step c c' → phase_of c' ≠ DONE → disk (world_of c') = disk (world_of c).
Proof.
  intros Hs. induction Hs as [c|c c1 c' Hs Hrest IH]; intros Hd; [done|].
  rewrite IH by done. apply step_keeps_disk; [done|].
  intros Hdone. inversion Hrest as [|? c2 ? Hs' _]; subst; [done|].
  destruct c1 as [?|[|] ? ? ?|? ?|r w|? ?]; try discriminate.
  by destruct (final_no_step (Done r w) c2).
Qed.

End turn.
