(* ===== verification/Typing.v ===== *)
(** * Typing: the Python types the loop of [chat] relies on

    Lines 92-93 of [project_main.py] test [isinstance(chunk, AIMessage)] and
    then run [response += chunk.content], which is defined when the content
    is a [str] and raises [TypeError] when it is a list of content blocks.
    Nothing in the source says which it is: the stream is typed by the
    runtime.

    - [ty], [content_ty], [chunk_ty]: the classes of the values of the loop;
    - [accepted]: the chunks whose class the body of the loop is defined on;
    - [script_typed], [config_typed]: runs of the agent, and configurations
      of a turn, that yield accepted chunks only;
    - preservation ([step_typed], [steps_typed]) and soundness
      ([typed_failure], [typed_turn_failure]): a turn on a typed run never
      takes the step of the [TypeError]; when it fails, the agent raised
      or the store did;
    - the types are needed: a turn on a run with a chunk that is not accepted
      fails with [TypeError] before anything is stored
      ([ill_typed_TypeError]);
    - the loop of [React] is a typed run when it streams dictionaries
      ([react_updates_typed]), and when it streams objects and the answers
      of the model have [str] content ([react_objects_typed]); an answer
      with content blocks streamed as an object is not accepted
      ([react_objects_ill_typed]). *)

From stdpp Require Import base tactics option list numbers strings gmap relations.
From S2P Require Import Prelude VectorStore AgentRuntime React Session Memory Chat.
From S2P Require Import Turn.

Import Chroma Lang Graph.

(** The classes of the values the loop handles: [str], [list], [dict], and
    the message classes with the class of their content. *)
Inductive ty : Type :=
| Tstr
| Tlist
| Tdict
| TAIMessage (content : ty)
| TBaseMessage (content : ty).

#[global] Instance ty_eq_dec : EqDecision ty.
Proof. solve_decision. Defined.

(** [type(x)] of a content. *)
Definition content_ty (x : content) : ty :=
  match x with
  | CStr _ => Tstr
  | CList _ => Tlist
  end.

(** [type(chunk)], with the class of [chunk.content] for a message. *)
Definition chunk_ty (c : chunk) : ty :=
  match c with
  | Update _ _ => Tdict
  | Msg (AIMessage x _) => TAIMessage (content_ty x)
  | Msg m => TBaseMessage (content_ty (message_content m))
  end.

(** The classes on which lines 92-93 are defined: every class but that of
    an [AIMessage] whose content is not a [str]. *)
Definition accepted (t : ty) : bool :=
  match t with
  | TAIMessage Tstr => true
  | TAIMessage _ => false
  | _ => true
  end.

(** A run whose yields are all accepted, whatever its tools answer. *)
Inductive script_typed : script → Prop :=
| typed_Yield c k :
    accepted (chunk_ty c) = true → script_typed k → script_typed (Yield c k)
| typed_CallTool name arg k :
    (∀ r, script_typed (k r)) → script_typed (CallTool name arg k)
| typed_Finish : script_typed Finish
| typed_Raise e : script_typed (Raise e).

(** ** The operations of the loop, by class *)

(** [isinstance(chunk, AIMessage)] is a test of the class. *)
Lemma is_AIMessage_ty (c : chunk) :
  is_AIMessage c = true ↔ ∃ t, chunk_ty c = TAIMessage t.
Proof.
  destruct c as [node msgs|[x|x calls|x tool|x]]; cbn;
    split; try discriminate; eauto; by intros [t [=]].
Qed.

(** Canonical forms: a content of class [str] is a string, and [+=] is
    defined on it. *)
Lemma content_ty_str (x : content) : content_ty x = Tstr ↔ ∃ s, x = CStr s.
Proof. destruct x; cbn; split; try discriminate; eauto; by intros [s' [=]]. Qed.

Lemma str_iadd_ty (response : string) (x : content) :
  content_ty x = Tstr ↔ ∃ response', str_iadd response x = Ok response'.
Proof. destruct x; cbn; split; try discriminate; eauto; by intros [s' [=]]. Qed.

Lemma accepted_block (c : chunk) :
  accepted (chunk_ty c) = negb (is_block_AIMessage c).
Proof. by destruct c as [node msgs|[x|[s|blocks] calls|x tool|x]]. Qed.

(** The body of the loop is defined on the accepted chunks and on no
    other. *)
Theorem absorb_accepted (response : string) (c : chunk) :
  accepted (chunk_ty c) = true ↔ absorb response c = Ok (response +:+ ai_text c).
Proof.
  rewrite accepted_block, negb_true_iff, absorb_Ok. tauto.
Qed.

(** What a typed run emits is accepted. *)
Lemma script_typed_emitted answer sc :
  script_typed sc →
  Forall (λ ch, accepted (chunk_ty ch) = true) (emitted answer sc).1.
Proof.
  induction 1 as [c k Hc _ IH|name arg k _ IH| |e]; cbn [emitted]; [|done..].
  destruct (emitted answer k). by constructor.
Qed.

(** ** The turn on a typed run *)

Section typing.
Context `{Collection C}.
Context (llm : list message → script) (tavily : nat → string → result string).
Context (self : ConversationalAgent) (message thread_id : string).

Local Abbreviation World := (@World C).
Local Abbreviation config := (@config C).
Local Abbreviation step := (step llm tavily self message thread_id).

Implicit Types (w : World) (c : config).

(** A configuration is typed when the run it is to consume is. *)
Definition config_typed c : Prop :=
  match c with
  | Start w =>
      script_typed (llm (thread_messages thread_id (chat_start message thread_id w)))
  | Running _ sc _ _ => script_typed sc
  | Persisting _ _ | Done _ _ | Failed _ _ => True
  end.

(** What makes a typed turn fail: the agent raised, or the store did. *)
Inductive failure : config → exn → Prop :=
| agent_raised b e response w : failure (Running b (Raise e) response w) e
| store_raised response w e w' :
    save_to_memory self message response w = (Err e, w') →
    failure (Persisting response w) e.

(** Preservation: a step of a typed configuration gives a typed one. *)
Lemma step_typed c c' : config_typed c → step c c' → config_typed c'.
Proof.
  intros Ht Hs. destruct Hs; cbn in *; try done; by inversion Ht.
Qed.

(** Typing is kept along a turn: every configuration the machine
    reaches from a typed one is typed, so the run that is left yields
    accepted chunks only, whatever the tools answered on the way. *)
Theorem steps_typed c c' : config_typed c → rtc step c c' → config_typed c'.
Proof. intros Ht Hs. induction Hs; eauto using step_typed. Qed.

(** A typed configuration does not take the step of the [TypeError]: it
    fails by the agent or by the store. *)
Lemma typed_failure c e w' : config_typed c → step c (Failed e w') → failure c e.
Proof.
  intros Ht Hs. inversion Hs as [| |
    |b ch k response e' w Ha| |b e' response w| |response w e' w1 Hsave]; subst.
  - inversion Ht as [? ? Hch _| | |]; subst.
    apply (absorb_accepted response) in Hch. congruence.
  - constructor.
  - by econstructor.
Qed.

(** C18. Soundness: a turn on a typed run never fails at line 93.  When it
    ends in FAILED, its last step was the raise of the agent or that of the
    store. *)
Theorem typed_turn_failure w e w' :
  config_typed (Start w) → rtc step (Start w) (Failed e w') →
  ∃ c, rtc step (Start w) c ∧ step c (Failed e w') ∧ failure c e.
Proof.
  intros Ht [[=]|(c & Hc & Hs)]%rtc_inv_r. exists c.
  eauto using typed_failure, steps_typed.
Qed.

(** ** [chat] on typed and on ill-typed runs *)

(** The loop stops at the first chunk that is not accepted. *)
Lemma stream_pure_ill_typed cs fin response w :
  Exists (λ ch, accepted (chunk_ty ch) = false) cs →
  ∃ e w', stream_pure thread_id cs fin response w = (Err e, w') ∧
          exn_cls e = TypeError.
Proof.
  intros Hex. revert response w.
  induction Hex as [ch cs Hch|ch cs _ IH]; intros response w; cbn [stream_pure];
    destruct (absorb response ch) as [response'|e] eqn:Ha;
    try (apply absorb_Err in Ha as [_ He]; by eauto); [|by apply IH].
  apply absorb_Ok in Ha as [Hb _]. by rewrite accepted_block, Hb in Hch.
Qed.

(** On a typed run [chat] raises nothing of its own: an exception
    that leaves it ended the run of the agent, or was raised by the store
    when the turn was saved. *)
Theorem chat_typed_error w e w' :
  script_typed (llm (thread_messages thread_id w ++ [HumanMessage (CStr message)])) →
  chat llm tavily self message thread_id w = (Err e, w') →
  (chat_run llm tavily self message thread_id w).2 = Some e ∨
  ∃ response, save_to_memory self message response w' = (Err e, w').
Proof.
  intros Ht [Hloop | (response & _ & Hsave)]%chat_Err_inv; [|by eauto].
  apply stream_pure_Err in Hloop as [Hfin | [_ Hex]]; [by left|].
  apply (script_typed_emitted (tool_answer tavily self w)) in Ht.
  apply Exists_exists in Hex as (ch & Hin & Hb).
  rewrite Forall_forall in Ht. specialize (Ht ch Hin).
  by rewrite accepted_block, Hb in Ht.
Qed.

(** C33. The types are needed: when the run emits a chunk that is not accepted,
    an [AIMessage] whose content is a list of blocks, [chat] raises
    [TypeError] and the store is as it was. *)
Theorem ill_typed_TypeError w :
  Exists (λ ch, accepted (chunk_ty ch) = false)
    (chat_run llm tavily self message thread_id w).1 →
  ∃ e w', chat llm tavily self message thread_id w = (Err e, w') ∧
          exn_cls e = TypeError ∧ disk w' = disk w.
Proof.
  intros Hex.
  destruct (stream_pure_ill_typed _ (chat_run llm tavily self message thread_id w).2
              "" (chat_start message thread_id w) Hex) as (e & w' & Hloop & He).
  apply chat_loop_Err in Hloop as [Hc Hd]. by exists e, w'.
Qed.

End typing.

(** ** The loop of [React], typed *)

(** The messages the loop of [chat] accepts when they are streamed as
    objects. *)
Definition message_accepted (m : message) : bool := accepted (chunk_ty (Msg m)).

(** A chat model all of whose answers have [str] content. *)
Definition policy_typed (model : policy) : Prop :=
  ∀ msgs m, model msgs = Ok m → message_accepted m = true.

Lemma yield_all_typed (cs : list chunk) (k : script) :
  Forall (λ ch, accepted (chunk_ty ch) = true) cs → script_typed k →
  script_typed (yield_all cs k).
Proof. induction 1; cbn; [done|]. intros Hk. constructor; auto. Qed.

Section react_typing.
(** [Q] holds of the messages the model and the tools add, and the
    emission streams accepted chunks for such messages. *)
Context (model : policy) (emit : emission) (Q : message → Prop).
Hypothesis model_Q : ∀ msgs m, model msgs = Ok m → Q m.
Hypothesis observation_Q : ∀ call r, Q (observation call r).
Hypothesis emit_Q : ∀ node msgs,
  Forall Q msgs → Forall (λ ch, accepted (chunk_ty ch) = true) (emit node msgs).

Lemma act_typed calls seen (k : list message → script) :
  Forall Q seen → (∀ tms, Forall Q tms → script_typed (k tms)) →
  script_typed (act calls seen k).
Proof using observation_Q.
  revert seen. induction calls as [|call rest IH]; intros seen Hseen Hk; cbn; [auto|].
  constructor. intros r. apply IH; [|done].
  apply Forall_app. split; [done|]. by repeat constructor.
Qed.

Lemma react_typed_by limit msgs : script_typed (react model emit limit msgs).
Proof using All.
  revert msgs. induction limit as [|limit IH]; intros msgs; cbn [react]; [constructor|].
  destruct (model msgs) as [m|e] eqn:Hm; [|constructor].
  apply yield_all_typed; [apply emit_Q; repeat constructor; by eapply model_Q|].
  destruct (calls_of m) as [|call rest]; [constructor|].
  apply act_typed; [constructor|]. intros tms Htms.
  apply yield_all_typed; [by apply emit_Q | apply IH].
Qed.

End react_typing.

(** Streamed as dictionaries the loop is typed, whatever the model
    answers: no chunk is an [AIMessage]. *)
Theorem react_updates_typed (model : policy) limit msgs :
  script_typed (react model updates limit msgs).
Proof.
  apply (react_typed_by model updates (λ _, True)); [done..|].
  intros node ms _. by repeat constructor.
Qed.

(** Streamed as objects the loop is typed when the answers of the model
    have [str] content: the observations of the tools always have. *)
Theorem react_objects_typed (model : policy) limit msgs :
  policy_typed model → script_typed (react model objects limit msgs).
Proof.
  intros Hp. apply (react_typed_by model objects (λ m, message_accepted m = true));
    [done | done |].
  intros node ms Hms. unfold objects. by apply Forall_fmap.
Qed.

(** And only then: an answer of the model with content blocks is a chunk
    the loop of [chat] is not defined on. *)
Theorem react_objects_ill_typed (model : policy) answer limit msgs m :
  model msgs = Ok m → message_accepted m = false →
  Exists (λ ch, accepted (chunk_ty ch) = false)
    (emitted answer (react model objects (S limit) msgs)).1.
Proof.
  intros Hm Hacc. rewrite react_emitted, rounds_S, Hm.
  destruct (calls_of m); cbn; by left.
Qed.
