(* ===== verification/Cli.v ===== *)
(** * Cli: the function [main] of [project_main.py] (lines 100-119)

    [main] builds the agent, prints a banner, draws the thread id of the
    session from [os.urandom] and loops: read a line, leave on [exit], else
    run a turn and print its answer or its error.

    - [input], [urandom]: the two builtins [main] calls, on the standard
      input and the entropy of [World];
    - [make_thread_id], [is_exit]: the thread id and the test of line 111;
    - [loop_body]: one pass through the body of [while True], which answers
      whether the loop goes on;
    - [main_loop]: the loop, with a bound on its passes.  A pass that does
      not raise reads one line, so [S (length (stdin w))] passes are enough
      ([main_loop_fuel]): [main] starts the loop with that bound, and
      [None], the answer of a loop that ran out of passes, is not an answer
      of [main] ([main_total]). *)

From Stdlib Require Import Ascii.
From Stdlib.Strings Require Import Byte.
From stdpp Require Import base tactics option list numbers strings gmap.
From S2P Require Import Prelude PyStr VectorStore AgentRuntime Session Memory.
From S2P Require Import Chat Startup.

Import Chroma Lang Graph.

(** ** Texts *)

(** The first nine bytes of the banner, as the source file has them. *)
Definition banner_mark : string :=
  String "195" (String "176" (String "197" (String "184" (String "194"
    (String "164" (String "226" (String "128" (String "147" ""))))))))%char.

Definition banner : string :=
  banner_mark +:+ " Conversational Agent initialized! (Type 'exit' to quit)".

(** The second line of the banner: fifty-one hyphens. *)
Definition rule : string := Text.join "" (replicate 51 "-").

Definition prompt : string := nl +:+ "You: ".

(** [print("\nAI:", response)]: the arguments joined by a space. *)
Definition answer_line (response : string) : string :=
  nl +:+ "AI:" +:+ " " +:+ response.

(** [f"\nError: {str(e)}"]. *)
Definition error_line (e : exn) : string := nl +:+ "Error: " +:+ exn_msg e.

Definition eof_error : exn := Exn EOFError "EOF when reading a line".

(** ["chat_" + bytes.hex()]. *)
Definition make_thread_id (bytes : list Byte.byte) : string :=
  "chat_" +:+ Hex.hex bytes.

(** [user_input.lower() == 'exit']. *)
Definition is_exit (user_input : string) : bool :=
  bool_decide (Text.lower user_input = "exit").

(** The lines of output that carry an answer. *)
Definition is_answer (o : out) : bool :=
  match o with
  | Print s => String.prefix (nl +:+ "AI:") s
  | _ => false
  end.

Definition answers (o : list out) : nat := length (filter is_answer o).

(** The sixteen spellings of [exit]. *)
Definition exit_spellings : list string :=
  (a ← ["e"; "E"]; b ← ["x"; "X"]; c ← ["i"; "I"]; d ← ["t"; "T"];
   [String a (String b (String c (String d EmptyString)))])%char.

(** ** The thread id *)

Lemma make_thread_id_length bytes :
  String.length (make_thread_id bytes) = 5 + 2 * length bytes.
Proof. unfold make_thread_id. by rewrite string_app_length, Hex.hex_length. Qed.

#[global] Instance make_thread_id_inj : Inj (=) (=) make_thread_id.
Proof.
  intros a b Hab. apply (inj Hex.hex). unfold make_thread_id in Hab.
  rewrite !string_app_cons, !string_app_nil_l in Hab. by simplify_eq.
Qed.

(** ** The exit test *)

Lemma lower_char_cases (c l u : ascii) :
  97 ≤ nat_of_ascii l ≤ 122 → nat_of_ascii u + 32 = nat_of_ascii l →
  Text.lower_char c = l → c = l ∨ c = u.
Proof.
  intros Hl Hu Hc. apply (Text.lower_char_letter c l Hl) in Hc as [-> | Hc];
    [by left | right].
  rewrite <- (ascii_nat_embedding c), <- (ascii_nat_embedding u). f_equal. lia.
Qed.

Local Ltac lower_cases H c l u :=
  apply (lower_char_cases c l u) in H as [-> | ->]; [| |vm_compute; lia..].

(** The test of line 111 holds of the sixteen spellings and of nothing
    else. *)
Theorem is_exit_spec (s : string) : is_exit s = true ↔ s ∈ exit_spellings.
Proof.
  unfold is_exit. rewrite bool_decide_eq_true. split.
  - destruct s as [|a [|b [|c [|d [|? ?]]]]]; cbn; try discriminate.
    intros [= Ha Hb Hc Hd].
    lower_cases Ha a "e"%char "E"%char; lower_cases Hb b "x"%char "X"%char;
    lower_cases Hc c "i"%char "I"%char; lower_cases Hd d "t"%char "T"%char;
    apply (bool_decide_unpack _); by vm_compute.
  - intros Hs. vm_compute in Hs.
    repeat (apply elem_of_cons in Hs as [-> | Hs]; [by vm_compute|]).
    by apply elem_of_nil in Hs.
Qed.

Lemma exit_spellings_stripped (s : string) : s ∈ exit_spellings → Text.stripped s.
Proof.
  intros Hs. vm_compute in Hs.
  repeat (apply elem_of_cons in Hs as [-> | Hs]; [by vm_compute|]).
  by apply elem_of_nil in Hs.
Qed.

(** A line is an exit line exactly when it is a spelling of [exit] between
    white space. *)
Theorem exit_line_spec (line : string) :
  is_exit (Text.strip line) = true ↔
  ∃ ws1 word ws2, line = ws1 +:+ word +:+ ws2 ∧ Text.all_space ws1 = true ∧
                  Text.all_space ws2 = true ∧ word ∈ exit_spellings.
Proof.
  split.
  - intros Hx. destruct (Text.strip_decompose line) as (ws1 & ws2 & H1 & H2 & Hl).
    exists ws1, (Text.strip line), ws2. by rewrite <- is_exit_spec.
  - intros (ws1 & word & ws2 & -> & H1 & H2 & Hw).
    rewrite Text.strip_app; [by apply is_exit_spec | done.. |].
    by apply exit_spellings_stripped.
Qed.

(** ** Answers in the output *)

Lemma answers_app (o1 o2 : list out) : answers (o1 ++ o2) = answers o1 + answers o2.
Proof. unfold answers. by rewrite filter_app, length_app. Qed.

Lemma answers_PrintChunk (cs : list chunk) : answers (PrintChunk <$> cs) = 0.
Proof. by induction cs. Qed.

Lemma answers_answer_line r : answers [Print (answer_line r)] = 1.
Proof. by vm_compute. Qed.

Lemma answers_error_line e : answers [Print (error_line e)] = 0.
Proof. by vm_compute. Qed.

Lemma answers_try_again : answers [Print "Please try again."] = 0.
Proof. by vm_compute. Qed.

Lemma answers_Prompt p : answers [Prompt p] = 0.
Proof. reflexivity. Qed.

Section cli.
Context `{Collection C}.
Context (llm : list message → script) (tavily : nat → string → result string).

Local Abbreviation World := (@World C).

Implicit Types (w : World) (agent : ConversationalAgent).

(** ** Builtins *)

(** [input(prompt)]: write the prompt, read a line; [EOFError] at the end
    of the input. *)
Definition input (p : string) : SE World string := λ w,
  let w1 := set_stdout (λ o, o ++ [Prompt p]) w in
  match stdin w1 with
  | [] => (Err eof_error, w1)
  | line :: rest => (Ok line, set_stdin (λ _, rest) w1)
  end.

(** [os.urandom(n)]: the next [n] bytes of the entropy. *)
Definition urandom (n : nat) : SE World (list Byte.byte) := λ w,
  (Ok (entropy w <$> seq (entropy_pos w) n), set_entropy_pos (λ p, p + n) w).

(** ** The loop *)

(** Lines 114-119: a turn, its answer printed, or its error. *)
Definition turn agent (user_input thread_id : string) : SE World unit :=
  se_try
    (response ← chat llm tavily agent user_input thread_id;
     print (answer_line response))
    (λ e, print (error_line e);; print "Please try again.").

(** Lines 110-119: one pass; [false] is [break]. *)
Definition loop_body agent (thread_id : string) : SE World bool :=
  line ← input prompt;
  let user_input := Text.strip line in
  if is_exit user_input then mret false
  else turn agent user_input thread_id;; mret true.

(** Lines 109-119: [while True], at most [fuel] passes. *)
Fixpoint main_loop (fuel : nat) agent (thread_id : string) :
    SE World (option unit) :=
  match fuel with
  | 0 => mret None
  | S fuel' =>
      continue ← loop_body agent thread_id;
      if continue : bool then main_loop fuel' agent thread_id
      else mret (Some tt)
  end.

Definition main : SE World (option unit) :=
  agent ← init;
  print banner;;
  print rule;;
  bytes ← urandom 4;
  let thread_id := make_thread_id bytes in
  fuel ← se_gets (λ w, S (length (stdin w)));
  main_loop fuel agent thread_id.

(** ** Run equations *)

(** The state after the prompt is written and a line is taken. *)
Definition prompted (rest : list string) w : World :=
  set_stdin (λ _, rest) (set_stdout (λ o, o ++ [Prompt prompt]) w).

Lemma input_line p w line rest :
  stdin w = line :: rest →
  input p w = (Ok line, set_stdin (λ _, rest) (set_stdout (λ o, o ++ [Prompt p]) w)).
Proof. unfold input. cbn. by intros ->. Qed.

Lemma input_eof p w :
  stdin w = [] → input p w = (Err eof_error, set_stdout (λ o, o ++ [Prompt p]) w).
Proof. unfold input. cbn. by intros ->. Qed.

Lemma turn_run agent u t w :
  turn agent u t w =
  match chat llm tavily agent u t w with
  | (Ok r, w') => (Ok tt, set_stdout (λ o, o ++ [Print (answer_line r)]) w')
  | (Err e, w') =>
      if is_Exception e
      then (Ok tt, set_stdout (λ o, o ++ [Print "Please try again."])
                     (set_stdout (λ o, o ++ [Print (error_line e)]) w'))
      else (Err e, w')
  end.
Proof.
  unfold turn. se_simp.
  destruct (chat llm tavily agent u t w) as [[r|e] w']; [reflexivity|].
  by destruct (is_Exception e).
Qed.

Lemma loop_body_run agent t w :
  loop_body agent t w =
  match stdin w with
  | [] => (Err eof_error, set_stdout (λ o, o ++ [Prompt prompt]) w)
  | line :: rest =>
      if is_exit (Text.strip line) then (Ok false, prompted rest w)
      else
        match turn agent (Text.strip line) t (prompted rest w) with
        | (Ok _, w') => (Ok true, w')
        | (Err e, w') => (Err e, w')
        end
  end.
Proof.
  unfold loop_body. rewrite run_bind.
  destruct (stdin w) as [|line rest] eqn:Hin.
  - by rewrite input_eof.
  - rewrite (input_line _ _ line rest Hin). fold (prompted rest w).
    destruct (is_exit (Text.strip line)); [reflexivity|].
    rewrite run_bind. by destruct (turn _ _ _ _) as [[[]|e] w'].
Qed.

Lemma main_loop_S fuel agent t w :
  main_loop (S fuel) agent t w =
  match loop_body agent t w with
  | (Ok true, w') => main_loop fuel agent t w'
  | (Ok false, w') => (Ok (Some tt), w')
  | (Err e, w') => (Err e, w')
  end.
Proof.
  cbn [main_loop]. se_simp. by case_run; [destruct a|].
Qed.

(** ** A turn *)

(** No [Exception] leaves a turn: what [chat] raises is printed, and only
    an exception outside [Exception] goes on. *)
Lemma turn_escape agent u t w e w' :
  turn agent u t w = (Err e, w') →
  is_Exception e = false ∧ chat llm tavily agent u t w = (Err e, w').
Proof.
  rewrite turn_run. destruct (chat llm tavily agent u t w) as [[r|e'] w2];
    [discriminate|].
  destruct (is_Exception e') eqn:He; [discriminate|]. by intros [= <- <-].
Qed.

(** A turn writes to the output and nowhere else, after [chat]. *)
Lemma turn_frame agent u t w :
  let w1 := (chat llm tavily agent u t w).2 in
  let w' := (turn agent u t w).2 in
  disk w' = disk w1 ∧ checkpoints w' = checkpoints w1 ∧ stdin w' = stdin w ∧
  entropy w' = entropy w ∧ entropy_pos w' = entropy_pos w ∧
  environ w' = environ w.
Proof.
  pose proof (chat_frame llm tavily agent u t w) as Hf. cbv zeta in *.
  rewrite turn_run. destruct (chat llm tavily agent u t w) as [[r|e] w1];
    [|destruct (is_Exception e)]; cbn in *; intuition congruence.
Qed.

(** A turn prints one answer when [chat] returns and none when it raises. *)
Lemma turn_answers agent u t w :
  answers (stdout (turn agent u t w).2) =
  answers (stdout w) + (if is_Ok (chat llm tavily agent u t w).1 then 1 else 0).
Proof.
  destruct (chat_stdout llm tavily agent u t w) as [n Hn]. rewrite turn_run.
  destruct (chat llm tavily agent u t w) as [[r|e] w1];
    [|destruct (is_Exception e)]; cbn -[answers] in *; rewrite ?Hn, <- ?app_assoc;
    rewrite ?answers_app, ?answers_PrintChunk; cbn [app];
    rewrite ?answers_answer_line, ?answers_error_line, ?answers_try_again; lia.
Qed.

(** ** One pass of the loop *)

(** An exit line ends the loop before any turn: the prompt is
    written, the line is taken, and nothing else changes. *)
Theorem loop_body_exit agent t w line rest :
  stdin w = line :: rest → is_exit (Text.strip line) = true →
  loop_body agent t w = (Ok false, prompted rest w).
Proof. intros Hin Hx. by rewrite loop_body_run, Hin, Hx. Qed.

(** At the end of the input, [input] raises and the pass with it. *)
Theorem loop_body_eof agent t w :
  stdin w = [] →
  loop_body agent t w =
  (Err eof_error, set_stdout (λ o, o ++ [Prompt prompt]) w).
Proof. intros Hin. by rewrite loop_body_run, Hin. Qed.

(** A pass that does not raise takes one line, and goes on unless it is an
    exit line. *)
Lemma loop_body_reads agent t w b w' :
  loop_body agent t w = (Ok b, w') →
  ∃ line, stdin w = line :: stdin w' ∧ b = negb (is_exit (Text.strip line)).
Proof.
  rewrite loop_body_run. destruct (stdin w) as [|line rest] eqn:Hin; [discriminate|].
  destruct (is_exit (Text.strip line)) eqn:Hx.
  - intros [= <- <-]. exists line. by rewrite Hx.
  - pose proof (turn_frame agent (Text.strip line) t (prompted rest w))
      as (_ & _ & Hs & _).
    destruct (turn _ _ _ _) as [[[]|e] w2]; intros [= <- <-].
    exists line. cbn in Hs. by rewrite Hs, Hx.
Qed.

(** C16. The exit test of a pass.  A pass of the loop breaks exactly when
    the line read is a spelling of [exit], in either case of each letter,
    between white space.  It has then written the prompt and taken the
    line and done nothing else: [chat] was not called, nothing was
    printed, stored or added to a thread. *)
Theorem loop_body_break agent t w line rest :
  stdin w = line :: rest →
  ((loop_body agent t w).1 = Ok false ↔
   ∃ ws1 word ws2, line = ws1 +:+ word +:+ ws2 ∧ Text.all_space ws1 = true ∧
                   Text.all_space ws2 = true ∧ word ∈ exit_spellings) ∧
  ((loop_body agent t w).1 = Ok false → (loop_body agent t w).2 = prompted rest w).
Proof.
  intros Hin. rewrite <- exit_line_spec, loop_body_run, Hin.
  destruct (is_exit (Text.strip line)); [done|].
  by destruct (turn _ _ _ _) as [[[]|e] w'].
Qed.

(** What leaves a pass is the end of the input, or an exception outside
    [Exception] that a turn raised. *)
Lemma loop_body_escape agent t w e w' :
  loop_body agent t w = (Err e, w') →
  (e = eof_error ∧ stdin w = []) ∨ is_Exception e = false.
Proof.
  rewrite loop_body_run. destruct (stdin w) as [|line rest]; [intros [= <- _]; by left|].
  destruct (is_exit (Text.strip line)); [discriminate|].
  destruct (turn _ _ _ _) as [[[]|e'] w2] eqn:Ht; intros [= <- <-].
  right. by apply turn_escape in Ht as [? _].
Qed.

(** The state after a pass, from the state before it: as it was up to the
    input and the output, or as the turn on the line left it. *)
Lemma loop_body_world agent t w :
  let w' := (loop_body agent t w).2 in
  (disk w' = disk w ∧ checkpoints w' = checkpoints w ∧
   answers (stdout w') = answers (stdout w)) ∨
  ∃ line rest,
    stdin w = line :: rest ∧ is_exit (Text.strip line) = false ∧
    let turned := chat llm tavily agent (Text.strip line) t (prompted rest w) in
    disk w' = disk turned.2 ∧ checkpoints w' = checkpoints turned.2 ∧
    answers (stdout w') = answers (stdout w) + (if is_Ok turned.1 then 1 else 0).
Proof.
  cbv zeta. rewrite loop_body_run. destruct (stdin w) as [|line rest].
  { left. cbn -[answers]. by rewrite answers_app, answers_Prompt, Nat.add_0_r. }
  destruct (is_exit (Text.strip line)) eqn:Hx.
  { left. cbn -[answers]. by rewrite answers_app, answers_Prompt, Nat.add_0_r. }
  right. exists line, rest. split; [done|]. split; [done|].
  pose proof (turn_frame agent (Text.strip line) t (prompted rest w))
    as (Hd & Hc & _).
  pose proof (turn_answers agent (Text.strip line) t (prompted rest w)) as Ha.
  assert (answers (stdout (prompted rest w)) = answers (stdout w)) as Hp.
  { cbn -[answers]. by rewrite answers_app, answers_Prompt, Nat.add_0_r. }
  rewrite Hp in Ha.
  by destruct (turn _ _ _ _) as [[[]|e] w2].
Qed.

(** The collection after a pass: well formed again, and as many records
    more as answers were printed. *)
Lemma loop_body_collection agent t w c :
  lookup_collection (chroma_client agent) (collection agent) w = Some c →
  ids_wf c →
  ∃ c', lookup_collection (chroma_client agent) (collection agent)
          (loop_body agent t w).2 = Some c' ∧
        ids_wf c' ∧
        coll_count c' + answers (stdout w) =
          coll_count c + answers (stdout (loop_body agent t w).2).
Proof.
  intros Hl Hwf.
  destruct (loop_body_world agent t w)
    as [(Hd & _ & Ha) | (line & rest & _ & _ & Hd & _ & Ha)].
  - exists c. rewrite (lookup_collection_disk _ _ _ w Hd). split; [done|].
    split; [done | lia].
  - destruct (chat_collection llm tavily agent (Text.strip line) t
                (prompted rest w) c Hl Hwf) as (c' & Hl' & Hwf' & Hn).
    exists c'. rewrite (lookup_collection_disk _ _ _ _ Hd). split; [done|].
    split; [done | lia].
Qed.

(** A pass leaves the threads of the checkpointer other than its own. *)
Lemma loop_body_threads agent t other w :
  t ≠ other →
  checkpoints (loop_body agent t w).2 !! other = checkpoints w !! other.
Proof.
  intros Hne.
  destruct (loop_body_world agent t w)
    as [(_ & -> & _) | (line & rest & _ & _ & _ & -> & _)]; [done|].
  destruct (chat_checkpoints llm tavily agent (Text.strip line) t (prompted rest w))
    as [n ->].
  rewrite committed_other by done. cbn. by rewrite lookup_insert_ne.
Qed.

(** ** The loop *)

(** What every pass keeps, the loop keeps. *)
Lemma main_loop_invariant (P : World → Prop) agent t :
  (∀ w, P w → P (loop_body agent t w).2) →
  ∀ fuel w, P w → P (main_loop fuel agent t w).2.
Proof.
  intros Hstep fuel. induction fuel as [|fuel IH]; intros w HP; [done|].
  rewrite main_loop_S. specialize (Hstep w HP).
  destruct (loop_body agent t w) as [[[]|e] w']; cbn in *; auto.
Qed.

(** The bound on the passes is never met: with more passes allowed than
    there are lines of input, the loop ends by [exit] or by an exception. *)
Lemma main_loop_fuel fuel agent t w :
  length (stdin w) < fuel → (main_loop fuel agent t w).1 ≠ Ok None.
Proof.
  revert w. induction fuel as [|fuel IH]; intros w Hlen; [lia|].
  rewrite main_loop_S.
  destruct (loop_body agent t w) as [[[]|e] w'] eqn:Hb; [|done..].
  apply loop_body_reads in Hb as (line & Hin & _). apply IH.
  rewrite Hin in Hlen. cbn in Hlen. lia.
Qed.

(** Passes beyond the lines of input are not made: the loop computes the
    same with every bound above their number. *)
Theorem main_loop_fuel_irrelevant fuel1 fuel2 agent t w :
  length (stdin w) < fuel1 → length (stdin w) < fuel2 →
  main_loop fuel1 agent t w = main_loop fuel2 agent t w.
Proof.
  revert fuel2 w. induction fuel1 as [|fuel1 IH]; intros [|fuel2] w H1 H2; try lia.
  rewrite !main_loop_S.
  destruct (loop_body agent t w) as [[[]|e] w'] eqn:Hb; [|done..].
  apply loop_body_reads in Hb as (line & Hin & _).
  rewrite Hin in H1, H2. cbn in H1, H2. apply IH; lia.
Qed.

(** C29. What ends the loop by an exception is the end of the input, or an
    exception outside [Exception] that a turn raised: every [Exception] of
    a turn is printed and the loop goes on. *)
Theorem main_loop_escape fuel agent t w e w' :
  main_loop fuel agent t w = (Err e, w') →
  (e = eof_error ∧ stdin w' = []) ∨ is_Exception e = false.
Proof.
  revert w. induction fuel as [|fuel IH]; intros w; [discriminate|].
  rewrite main_loop_S.
  destruct (loop_body agent t w) as [[[]|e1] w1] eqn:Hb; [by apply IH|discriminate|].
  intros [= <- <-]. rewrite loop_body_run in Hb.
  destruct (loop_body_escape agent t w e1 w1) as [[-> Hin]|?];
    [by rewrite loop_body_run | left | by right].
  rewrite Hin in Hb. injection Hb as <-. by rewrite <- Hin.
Qed.

(** C30. The loop returns only on an exit line: the lines it read are
    lines that are not exit lines, followed by one that is; the rest of the
    input is left unread. *)
Theorem main_loop_exit fuel agent t w w' :
  main_loop fuel agent t w = (Ok (Some tt), w') →
  ∃ turns line,
    stdin w = turns ++ line :: stdin w' ∧
    is_exit (Text.strip line) = true ∧
    Forall (λ l, is_exit (Text.strip l) = false) turns.
Proof.
  revert w. induction fuel as [|fuel IH]; intros w; [discriminate|].
  rewrite main_loop_S.
  destruct (loop_body agent t w) as [[[]|e1] w1] eqn:Hb; [| |discriminate].
  - apply loop_body_reads in Hb as (l & Hin & Hx).
    intros (turns & line & Hin' & ? & ?)%IH. exists (l :: turns), line.
    rewrite Hin, Hin'. split; [done|]. split; [done|].
    constructor; [by destruct (is_exit (Text.strip l)) | done].
  - apply loop_body_reads in Hb as (l & Hin & Hx). intros [= <-].
    exists [], l. split; [done|]. split; [|done].
    by destruct (is_exit (Text.strip l)).
Qed.

(** The invariant of the store holds after the loop, however it
    ends. *)
Theorem main_loop_wf fuel agent t w :
  world_wf agent w → world_wf agent (main_loop fuel agent t w).2.
Proof.
  apply (main_loop_invariant (world_wf agent)). intros w1 (c & Hl & Hwf).
  destruct (loop_body_collection agent t w1 c Hl Hwf) as (c' & ? & ? & _).
  by exists c'.
Qed.

(** The records of the collection grow by the number of answer lines the
    loop writes to the output. *)
Lemma main_loop_collection fuel agent t w c :
  lookup_collection (chroma_client agent) (collection agent) w = Some c →
  ids_wf c →
  ∃ c', lookup_collection (chroma_client agent) (collection agent)
          (main_loop fuel agent t w).2 = Some c' ∧
        ids_wf c' ∧
        coll_count c' + answers (stdout w) =
          coll_count c + answers (stdout (main_loop fuel agent t w).2).
Proof.
  intros Hl Hwf.
  apply (main_loop_invariant (λ w', ∃ c',
    lookup_collection (chroma_client agent) (collection agent) w' = Some c' ∧
    ids_wf c' ∧
    coll_count c' + answers (stdout w) = coll_count c + answers (stdout w')));
    [|by exists c].
  intros w1 (c1 & Hl1 & Hwf1 & Hn).
  destruct (loop_body_collection agent t w1 c1 Hl1 Hwf1) as (c' & ? & ? & ?).
  exists c'. split; [done|]. split; [done | lia].
Qed.

(** A session writes to one thread of the checkpointer: every other
    thread is after the loop what it was before. *)
Theorem main_loop_threads fuel agent t other w :
  t ≠ other →
  checkpoints (main_loop fuel agent t w).2 !! other = checkpoints w !! other.
Proof.
  intros Hne.
  apply (main_loop_invariant (λ w', checkpoints w' !! other = checkpoints w !! other));
    [|done].
  intros w1 <-. by apply loop_body_threads.
Qed.

(** The loop takes lines and nothing else from the process: the entropy
    and the environment are left, and the input is shortened at its head. *)
Lemma main_loop_frame fuel agent t w :
  let w' := (main_loop fuel agent t w).2 in
  entropy w' = entropy w ∧ entropy_pos w' = entropy_pos w ∧
  environ w' = environ w ∧ stdin w' `suffix_of` stdin w.
Proof.
  apply (main_loop_invariant (λ w', entropy w' = entropy w ∧
    entropy_pos w' = entropy_pos w ∧ environ w' = environ w ∧
    stdin w' `suffix_of` stdin w)); [|done].
  intros w1 (<- & <- & <- & Hsuf). rewrite loop_body_run.
  destruct (stdin w1) as [|line rest] eqn:Hin; [cbn; by rewrite Hin|].
  assert (rest `suffix_of` stdin w) as Hrest.
  { etrans; [|exact Hsuf]. by apply suffix_cons_r. }
  destruct (is_exit (Text.strip line)); [done|].
  pose proof (turn_frame agent (Text.strip line) t (prompted rest w1))
    as (_ & _ & Hs & He & Hp & Hv).
  destruct (turn _ _ _ _) as [[[]|e] w2]; cbn in *; by rewrite Hs, He, Hp, Hv.
Qed.

(** ** Progress *)

(** With a model and a store that raise nothing but [Exception]s, a turn
    of the loop does not raise. *)
Lemma turn_returns agent u t w :
  model_raises_Exception llm → store_raises_Exception (C:=C) →
  ∃ w', turn agent u t w = (Ok tt, w').
Proof.
  intros Hm Hs. rewrite turn_run.
  destruct (chat llm tavily agent u t w) as [[r|e] w1] eqn:Hc; [by eexists|].
  rewrite (chat_raises_Exception llm tavily _ _ _ _ _ _ Hm Hs Hc). by eexists.
Qed.

(** C31. With such a model and such a store, the loop reaches the first
    exit line of the input and returns there, leaving the lines after it
    unread. *)
Theorem main_loop_reaches_exit fuel agent t w turns line rest :
  model_raises_Exception llm → store_raises_Exception (C:=C) →
  stdin w = turns ++ line :: rest →
  Forall (λ l, is_exit (Text.strip l) = false) turns →
  is_exit (Text.strip line) = true →
  length turns < fuel →
  ∃ w', main_loop fuel agent t w = (Ok (Some tt), w') ∧ stdin w' = rest.
Proof.
  intros Hm Hs. revert fuel w.
  induction turns as [|l turns IH]; intros [|fuel] w Hin Hturns Hx Hlen;
    cbn in Hlen; try lia; rewrite main_loop_S.
  - rewrite loop_body_run, Hin. cbn [app]. rewrite Hx. by eexists.
  - apply Forall_cons in Hturns as [Hl Hturns].
    rewrite loop_body_run, Hin. cbn [app]. rewrite Hl.
    pose proof (turn_frame agent (Text.strip l) t
      (prompted (turns ++ line :: rest) w)) as (_ & _ & Hin' & _).
    destruct (turn_returns agent (Text.strip l) t
      (prompted (turns ++ line :: rest) w) Hm Hs) as [w1 Ht].
    rewrite Ht in Hin' |- *. apply IH; [done..|lia].
Qed.

(** ** [main] *)

(** The state in which the loop starts: the store open, the banner
    printed, four bytes of entropy drawn. *)
Definition started w : World :=
  set_entropy_pos (λ p, p + 4)
    (set_stdout (λ o, o ++ [Print rule])
       (set_stdout (λ o, o ++ [Print banner]) (init_world w))).

(** The thread id of the session started in [w]. *)
Definition session_thread w : string :=
  make_thread_id (entropy w <$> seq (entropy_pos w) 4).

Lemma main_run w :
  main w =
  match init w with
  | (Ok agent, _) =>
      main_loop (S (length (stdin w))) agent (session_thread w) (started w)
  | (Err e, w') => (Err e, w')
  end.
Proof.
  unfold main. se_simp. rewrite init_run.
  by destruct (environ w !! "ANTHROPIC_API_KEY"), (environ w !! "TAVILY_API_KEY").
Qed.

(** C39. The thread id of a session.  When the constructor returns, [main]
    draws four bytes from [os.urandom] and runs its loop on the thread
    [chat_] followed by eight characters of [0123456789abcdef], two for
    each byte, from which [bytes.fromhex] reads the four bytes back: two
    sessions have the same thread id only when they drew the same
    bytes. *)
Theorem main_thread_id w agent w1 :
  init w = (Ok agent, w1) →
  ∃ digits,
    main w = main_loop (S (length (stdin w))) agent ("chat_" +:+ digits) (started w) ∧
    String.length digits = 8 ∧ Hex.all_hex digits = true ∧
    Hex.unhex digits = Some (entropy w <$> seq (entropy_pos w) 4) ∧
    entropy_pos (started w) = entropy_pos w + 4.
Proof.
  intros Hinit. exists (Hex.hex (entropy w <$> seq (entropy_pos w) 4)).
  rewrite main_run, Hinit, Hex.hex_length, Hex.hex_all_hex, Hex.unhex_hex.
  by rewrite length_fmap, length_seq.
Qed.

(** Without a credential [main] raises before it prints: the store
    was opened, the banner is not written and no line is read. *)
Theorem main_no_credential w :
  environ w !! "ANTHROPIC_API_KEY" = None ∨ environ w !! "TAVILY_API_KEY" = None →
  ∃ key,
    main w = (Err (Exn (OtherError "ValidationError") key), init_world w) ∧
    stdout (main w).2 = stdout w ∧ stdin (main w).2 = stdin w.
Proof.
  intros Hk. rewrite main_run.
  destruct (init_no_credential w Hk) as [key ->]. by exists key.
Qed.

(** [main] ends: by [exit] or by an exception, never by the bound on
    the passes of its loop. *)
Theorem main_total w :
  (main w).1 = Ok (Some tt) ∨ ∃ e, (main w).1 = Err e.
Proof.
  rewrite main_run. destruct (init w) as [[agent|e] w1]; [|right; by eexists].
  pose proof (main_loop_fuel (S (length (stdin w))) agent (session_thread w)
    (started w)) as Hfuel.
  destruct (main_loop _ _ _ _) as [[[[]|]|e] w2]; cbn in *;
    [by left | exfalso; apply Hfuel; [lia|done] | right; by eexists].
Qed.

(** From end to end: when the collection on the disk, if there is
    one, has the ids [conv_1 .. conv_n], the collection after [main] has
    them again, with one record more for each answer printed, whatever the
    model and the search provider did and however [main] ended. *)
Theorem main_answers w :
  (∀ c, lookup_collection "vector_store" "conversation_history" w = Some c →
        ids_wf c) →
  ∃ c', lookup_collection "vector_store" "conversation_history" (main w).2 =
          Some c' ∧
        ids_wf c' ∧
        coll_count c' + answers (stdout w) =
          coll_count (default coll_empty
            (lookup_collection "vector_store" "conversation_history" w)) +
          answers (stdout (main w).2).
Proof.
  intros Hwf.
  assert (ids_wf (default coll_empty
    (lookup_collection "vector_store" "conversation_history" w))) as Hwf0.
  { destruct (lookup_collection _ _ w) as [c|]; [by apply Hwf | apply ids_wf_empty]. }
  rewrite main_run, init_run.
  destruct (environ w !! "ANTHROPIC_API_KEY"); [destruct (environ w !! "TAVILY_API_KEY")|];
    [|eexists; split; [apply init_world_lookup|done]..].
  destruct (main_loop_collection (S (length (stdin w))) the_agent
    (session_thread w) (started w) _ (init_world_lookup w) Hwf0)
    as (c' & Hl & Hwf' & Hn).
  exists c'. split; [done|]. split; [done|].
  rewrite <- Hn. cbn -[answers]. rewrite !answers_app. vm_compute (answers [_]).
  lia.
Qed.

End cli.
