(* ===== verification/Agent.v ===== *)
(** * Agent: [chat] and [main] over the loop of [React]

    [Chat] and [Cli] are proved for every run the agent may make.  Here the
    agent is the loop of [React] around a chat model, as line 59 builds it,
    and the theorems say what a turn does then.

    - [asked]: the conversation a turn starts the loop with, the thread
      and the new message of the user;
    - [turn_rounds]: the rounds of the loop in a turn, with the tools of
      [self.tools] answering as they do in the state of the turn;
    - [chat_react_returns]: a turn that returns has run the loop to a final
      answer, and the thread then holds the whole conversation, the
      requests of the model and the answers of the tools included;
    - [chat_react_updates]: streamed as dictionaries, which is how the
      runtime streams by default, no run gives [chat] a response;
    - [chat_react_blocks], [chat_react_typed_error]: streamed as objects,
      an answer with content blocks fails the turn with [TypeError], and
      with answers of [str] content a turn fails by the model, the guard or
      the store only;
    - [chat_react_hangs]: a model that asks for tools for ever fails the
      turn at the guard, whatever the guard, and nothing is stored;
    - [turn_react_returns]: the exception of the guard is one that [main]
      catches, so the session goes on. *)

From stdpp Require Import base tactics option list numbers strings gmap.
From S2P Require Import Prelude VectorStore AgentRuntime React Session Memory.
From S2P Require Import Chat Typing Cli.

Import Chroma Lang Graph.

Section agent.
Context `{Collection C}.
Context (model : policy) (emit : emission) (limit : nat).
Context (tavily : nat → string → result string).

Local Abbreviation World := (@World C).
Local Abbreviation llm := (react model emit limit).

Implicit Types (w : World) (self agent : ConversationalAgent).
Implicit Types (u t : string).

(** The conversation a turn starts the loop with. *)
Definition asked u t w : list message :=
  thread_messages t w ++ [HumanMessage (CStr u)].

(** The rounds of the loop in a turn. *)
Definition turn_rounds self u t w : list update * option exn :=
  rounds model (tool_answer tavily self w) limit (asked u t w).

(** A chat model whose calls raise nothing but [Exception]s. *)
Definition policy_raises_Exception : Prop :=
  ∀ msgs e, model msgs = Err e → is_Exception e = true.

Lemma chat_run_react self u t w :
  chat_run llm tavily self u t w =
  (streamed emit (turn_rounds self u t w).1, (turn_rounds self u t w).2).
Proof. apply react_emitted. Qed.

Lemma react_raises_Exception : policy_raises_Exception → model_raises_Exception llm.
Proof.
  intros Hp msgs answer e. rewrite react_emitted. cbn [snd].
  intros [-> | [msgs' He]]%rounds_fin; [done | by eapply Hp].
Qed.

(** A turn that returns: the loop ended by itself, the response is the
    text of the chunks that are [AIMessage]s, and every chunk was
    committed. *)
Lemma chat_react_Ok self u t w r w' :
  chat llm tavily self u t w = (Ok r, w') →
  (turn_rounds self u t w).2 = None ∧
  r = ai_texts (streamed emit (turn_rounds self u t w).1) ∧
  checkpoints w' =
    committed t (streamed emit (turn_rounds self u t w).1)
      (checkpoints (chat_start u t w)).
Proof.
  intros (w2 & Hloop & Hsave)%chat_Ok_inv. rewrite chat_run_react in Hloop.
  apply stream_pure_Ok in Hloop as (Hfin & _ & Hr & _ & Hcp).
  rewrite string_app_nil_l in Hr. split_and!; [done..|].
  pose proof (save_to_memory_frame self u r w2) as Hframe.
  rewrite Hsave in Hframe. cbn in Hframe. by destruct Hframe as (-> & _).
Qed.

(** A run that ends with an exception fails the turn with it, when no
    chunk before is an [AIMessage] with content blocks. *)
Lemma chat_react_fin self u t w e :
  (turn_rounds self u t w).2 = Some e →
  Forall (λ ch, is_block_AIMessage ch = false)
    (streamed emit (turn_rounds self u t w).1) →
  (chat llm tavily self u t w).1 = Err e.
Proof.
  intros Hfin Hall. rewrite chat_unfold, chat_run_react. cbn [fst snd].
  pose proof (stream_pure_total t _ (turn_rounds self u t w).2 ""
    (chat_start u t w) Hall) as [Hr _].
  rewrite Hfin in *. by destruct (stream_pure _ _ _ _ _) as [[r|e'] w2]; simplify_eq/=.
Qed.

(** C12. A turn that returns has run the loop to a final answer: the updates
    streamed are a run of the loop without a guard, the response is the
    text of their [AIMessage] chunks, and the thread then holds the whole
    conversation, the message of the user followed by all that the model
    and the tools have added. *)
Theorem chat_react_returns `{!Lossless emit} self u t w r w' :
  chat llm tavily self u t w = (Ok r, w') →
  ∃ us, run model (tool_answer tavily self w) (asked u t w) us None ∧
        r = ai_texts (streamed emit us) ∧
        thread_messages t w' = asked u t w ++ added us.
Proof.
  intros (Hfin & Hr & Hcp)%chat_react_Ok.
  exists (turn_rounds self u t w).1. split; [|split; [done|]].
  - destruct (rounds_run model (tool_answer tavily self w) limit (asked u t w))
      as [[Hrun _] | [Hg _]]; [|unfold turn_rounds in Hfin; congruence].
    unfold turn_rounds in *. by rewrite Hfin in Hrun.
  - unfold thread_messages at 1. rewrite Hcp, committed_thread, (streamed_messages emit).
    fold (thread_messages t (chat_start u t w)).
    unfold chat_start. by rewrite thread_messages_commit.
Qed.

(** C28. A model that asks for tools for ever fails the turn at the guard,
    whatever the guard is: [chat] raises the exception of the guard and
    nothing is stored, when no chunk is an [AIMessage] with content
    blocks. *)
Theorem chat_react_hangs self u t w :
  hangs model (tool_answer tavily self w) (asked u t w) →
  Forall (λ ch, is_block_AIMessage ch = false)
    (streamed emit (turn_rounds self u t w).1) →
  (chat llm tavily self u t w).1 = Err recursion_error ∧
  disk (chat llm tavily self u t w).2 = disk w.
Proof.
  intros [Hfin _]%(hangs_guarded _ _ _ limit) Hall.
  pose proof (chat_react_fin self u t w _ Hfin Hall) as Hc. split; [done|].
  destruct (chat llm tavily self u t w) as [[r|e] w'] eqn:Hchat; [done|].
  by eapply chat_Err_disk.
Qed.

(** C32. The session goes on after a turn, whatever the guard: when the
    calls of the model and of the store raise nothing but [Exception]s, a
    turn of [main] over the loop returns, the exception of the guard
    included. *)
Theorem turn_react_returns agent u t w :
  policy_raises_Exception → store_raises_Exception (C:=C) →
  ∃ w', turn llm tavily agent u t w = (Ok tt, w').
Proof. intros Hp Hs. by apply turn_returns; [apply react_raises_Exception|]. Qed.

End agent.

(** C23. Streamed as dictionaries, no run gives [chat] a response.  Whatever
    the model answers and whatever the guard, a turn over the loop with
    the emission [updates] fails with the exception that ended the run,
    and when the run ended with a final answer it returns the empty
    string, unless the save fails it. *)
Theorem chat_react_updates `{Collection C} (model : policy) (limit : nat)
    (tavily : nat → string → result string) self u t (w : @World C) :
  match (turn_rounds model limit tavily self u t w).2 with
  | Some e => (chat (react model updates limit) tavily self u t w).1 = Err e
  | None =>
      (chat (react model updates limit) tavily self u t w).1 = Ok "" ∨
      ∃ e, (chat (react model updates limit) tavily self u t w).1 = Err e
  end.
Proof.
  destruct (turn_rounds _ _ _ _ _ _ w).2 as [e|] eqn:Hfin.
  - apply chat_react_fin; [done|].
    eapply Forall_impl; [apply streamed_updates|]. by intros [|[]].
  - destruct (chat _ _ _ _ _ w) as [[r|e] w'] eqn:Hc; [left | right; by eexists].
    apply chat_react_Ok in Hc as (_ & -> & _). cbn. f_equal.
    apply ai_texts_no_AIMessage, streamed_updates.
Qed.

(** Streamed as objects, an answer of the model with content blocks fails
    the turn with [TypeError].  A model that puts its requests for tools in
    content blocks ends the turn with its first answer, and nothing is
    stored. *)
Theorem chat_react_blocks `{Collection C} (model : policy) (limit : nat)
    (tavily : nat → string → result string) self u t (w : @World C) m :
  model (asked u t w) = Ok m → message_accepted m = false →
  ∃ e w', chat (react model objects (S limit)) tavily self u t w = (Err e, w') ∧
          exn_cls e = TypeError ∧ disk w' = disk w.
Proof.
  intros Hm Hacc.
  pose proof (react_objects_ill_typed model (tool_answer tavily self w) limit
                _ m Hm Hacc) as Hex.
  eapply (stream_pure_ill_typed t) in Hex as (e & w' & Hloop & He).
  apply chat_loop_Err in Hloop as [Hc Hd]. by exists e, w'.
Qed.

(** Streamed as objects with answers of [str] content, a turn over the loop
    fails in three ways only: a call of the model raised, the guard fired,
    or the store raised when the turn was saved. *)
Theorem chat_react_typed_error `{Collection C} (model : policy) (limit : nat)
    (tavily : nat → string → result string) self u t (w : @World C) e w' :
  policy_typed model →
  chat (react model objects limit) tavily self u t w = (Err e, w') →
  e = recursion_error ∨ (∃ msgs, model msgs = Err e) ∨
  ∃ response, save_to_memory self u response w' = (Err e, w').
Proof.
  intros Hp [Hfin | Hsave]%chat_typed_error; [|auto|by apply react_objects_typed].
  rewrite chat_run_react in Hfin. apply rounds_fin in Hfin as [->|?]; auto.
Qed.
