(* ===== verification/View.v ===== *)
(** * View: what a turn can see of its process

    [chat] runs in a process that has printed, has input waiting, has other
    threads in its checkpointer and other collections on its disk.  Of all
    that a turn reads two things: the collection of [self] and the messages
    of its own thread.  The file states this as a relation between runs.

    - [view]: the collection behind [self.collection] and the thread;
      [same_view], the processes a turn cannot tell apart, is an
      equivalence, coarser than equality;
    - [agree]: two processes with the same view, which have printed the same
      since a given point; [related]: two computations that take processes
      that agree to equal results and processes that agree;
    - the operations of [Session], [Memory] and [Chat] and the turn of
      [Cli] are related to themselves, and to themselves under another
      thread id when the two threads hold the same messages
      ([related_chat], [related_turn]), by the rules [related_bind],
      [related_if], ... of the monad;
    - [chat_noninterference]: the answer, the lines printed and the store
      after a turn are functions of the view;
    - [main_deterministic]: a session of [main] is a function of
      [session_input], the stored collection, the environment and the
      lines of input: the bytes [os.urandom]
      gives, and so the thread id, change nothing, because [__init__] starts
      with an empty checkpointer;
    - [answer_proper]: [Proper] instances, with which [rewrite] replaces a
      process by one with the same view under [answer]. *)

From stdpp Require Import base tactics option list numbers strings gmap.
From S2P Require Import Prelude PyStr VectorStore AgentRuntime Session Memory.
From S2P Require Import Chat Startup Cli.

Import Chroma Lang Graph.

Create HintDb view discriminated.

Section view.
Context `{Collection C}.
Context (llm : list message → script) (tavily : nat → string → result string).

Local Abbreviation World := (@World C).

Implicit Types (w : World) (self agent : ConversationalAgent).
Implicit Types (t : string) (o : list out).

(** What a turn of [self] in thread [t] reads: the collection behind
    [self.collection] and the messages of the thread. *)
Definition view self t w : option C * option (list message) :=
  (lookup_collection (chroma_client self) (collection self) w, checkpoints w !! t).

(** Processes a turn in thread [t] cannot tell apart. *)
Definition same_view self t : relation World := λ w1 w2,
  view self t w1 = view self t w2.

(** A process seen from thread [t1] and one seen from [t2] agree when the
    views are the same and both have printed the same lines since the first
    had printed [o1] and the second [o2]. *)
Definition agree self t1 t2 o1 o2 : relation World := λ w1 w2,
  view self t1 w1 = view self t2 w2 ∧
  ∃ printed, stdout w1 = o1 ++ printed ∧ stdout w2 = o2 ++ printed.

(** Computations that take processes that agree to the same result and to
    processes that agree. *)
Definition related self t1 t2 {A} : relation (SE World A) := λ m1 m2,
  ∀ o1 o2,
    (agree self t1 t2 o1 o2 ==> prod_relation (=) (agree self t1 t2 o1 o2))%signature
      m1 m2.

(** The answer of a turn. *)
Definition answer self (message t : string) w : result string :=
  (chat llm tavily self message t w).1.

(** What a session of [main] reads of the process it starts in: the
    collection [conversation_history] of the directory [vector_store], the
    environment and the lines of input. *)
Definition session_input w :
    option C * gmap string string * list string :=
  (lookup_collection "vector_store" "conversation_history" w, environ w, stdin w).

#[global] Instance same_view_equivalence self t : Equivalence (same_view self t).
Proof. unfold same_view. split; [by intros ?|by intros ??|by intros ??? ->]. Qed.

Lemma agree_start self t1 t2 w1 w2 :
  view self t1 w1 = view self t2 w2 → agree self t1 t2 (stdout w1) (stdout w2) w1 w2.
Proof. intros Hv. split; [done|]. exists []. by rewrite !app_nil_r. Qed.

Lemma agree_same_view self t o w1 w2 :
  agree self t t o o w1 w2 → same_view self t w1 w2.
Proof. by intros [Hv _]. Qed.

(** ** The rules of the monad *)

Section rules.
Context (self : ConversationalAgent) (t1 t2 : string).

Local Abbreviation related := (related self t1 t2).
Local Abbreviation agree := (agree self t1 t2).

Lemma related_ret {A} (a : A) : related (mret a) (mret a).
Proof. by intros o1 o2 w1 w2 Hw. Qed.

Lemma related_lift {A} (r : result A) : related (se_lift r) (se_lift r).
Proof. by intros o1 o2 w1 w2 Hw. Qed.

Lemma related_raise {A} (e : exn) : related (se_raise (A := A) e) (se_raise e).
Proof. by intros o1 o2 w1 w2 Hw. Qed.

Lemma related_bind {A B} (m1 m2 : SE World A) (f1 f2 : A → SE World B) :
  related m1 m2 → (∀ a, related (f1 a) (f2 a)) → related (m1 ≫= f1) (m2 ≫= f2).
Proof.
  intros Hm Hf o1 o2 w1 w2 Hw. rewrite !run_bind.
  destruct (Hm o1 o2 w1 w2 Hw) as [Hr Hw']. cbn in Hr, Hw'.
  destruct (m1 w1) as [[a|e] w1'], (m2 w2) as [[a'|e'] w2']; simplify_eq/=;
    [by apply Hf | done].
Qed.

Lemma related_try {A} (m1 m2 : SE World A) (h1 h2 : exn → SE World A) :
  related m1 m2 → (∀ e, related (h1 e) (h2 e)) →
  related (se_try m1 h1) (se_try m2 h2).
Proof.
  intros Hm Hh o1 o2 w1 w2 Hw. rewrite !run_try.
  destruct (Hm o1 o2 w1 w2 Hw) as [Hr Hw']. cbn in Hr, Hw'.
  destruct (m1 w1) as [[a|e] w1'], (m2 w2) as [[a'|e'] w2']; simplify_eq/=;
    [done|].
  destruct (is_Exception e'); [by apply Hh | done].
Qed.

Lemma related_if {A} (b : bool) (m1 m2 n1 n2 : SE World A) :
  related m1 m2 → related n1 n2 →
  related (if b then m1 else n1) (if b then m2 else n2).
Proof. by destruct b. Qed.

(** A write that keeps the agreement. *)
Lemma related_modify (g1 g2 : World → World) :
  (∀ o1 o2 w1 w2, agree o1 o2 w1 w2 → agree o1 o2 (g1 w1) (g2 w2)) →
  related (se_modify g1) (se_modify g2).
Proof. intros Hg o1 o2 w1 w2 Hw. split; [done|]. by apply Hg. Qed.

(** A read of the view. *)
Lemma related_gets {A} (f1 f2 : World → A) :
  (∀ w1 w2, view self t1 w1 = view self t2 w2 → f1 w1 = f2 w2) →
  related (se_gets f1) (se_gets f2).
Proof. intros Hf o1 o2 w1 w2 Hw. split; [|done]. cbn. f_equal. apply Hf, Hw. Qed.

End rules.

#[local] Hint Resolve related_ret related_lift related_raise related_bind
  related_try related_if : view.

(** ** The operations of the session *)

Section operations.
Context (self : ConversationalAgent) (t1 t2 : string).

Local Abbreviation related := (related self t1 t2).
Local Abbreviation agree := (agree self t1 t2).

(** A line more on both sides. *)
Lemma agree_printed (x : out) o1 o2 w1 w2 :
  agree o1 o2 w1 w2 →
  agree o1 o2 (set_stdout (λ o, o ++ [x]) w1) (set_stdout (λ o, o ++ [x]) w2).
Proof.
  intros (Hv & printed & H1 & H2). split; [done|].
  exists (printed ++ [x]). cbn. by rewrite H1, H2, !(assoc_L (++)).
Qed.

Lemma related_print s : related (print s) (print s).
Proof. apply related_modify. intros *. apply agree_printed. Qed.

Lemma related_print_chunk c : related (print_chunk c) (print_chunk c).
Proof. apply related_modify. intros *. apply agree_printed. Qed.

(** The runtime's checkpoint, each side in its thread. *)
Lemma related_commit c : related (commit t1 c) (commit t2 c).
Proof.
  apply related_modify. intros o1 o2 w1 w2 ([= Hc Ht] & Hd). split; [|done].
  unfold view, lookup_collection in *. cbn. by rewrite !lookup_insert_eq, Hc, Ht.
Qed.

Lemma related_the_collection : related (the_collection self) (the_collection self).
Proof.
  intros o1 o2 w1 w2 Hw. pose proof Hw as [[= Hc _] _].
  unfold the_collection. rewrite Hc. by destruct (lookup_collection _ _ w2).
Qed.

Lemma related_store c :
  related (se_modify (store_collection (chroma_client self) (collection self) c))
          (se_modify (store_collection (chroma_client self) (collection self) c)).
Proof.
  apply related_modify. intros o1 o2 w1 w2 ([= _ Ht] & Hd). split; [|done].
  unfold view. rewrite !lookup_store_collection. cbn. by rewrite Ht.
Qed.

#[local] Hint Resolve related_print related_print_chunk related_commit
  related_the_collection related_store : view.

Lemma related_collection_get : related (collection_get self) (collection_get self).
Proof. unfold collection_get. eauto with view. Qed.

Lemma related_collection_query texts n :
  related (collection_query self texts n) (collection_query self texts n).
Proof. unfold collection_query. eauto with view. Qed.

Lemma related_collection_add docs ids :
  related (collection_add self docs ids) (collection_add self docs ids).
Proof. unfold collection_add. eauto with view. Qed.

#[local] Hint Resolve related_collection_get related_collection_query
  related_collection_add : view.

Lemma related_search_memory query :
  related (search_memory self query) (search_memory self query).
Proof. unfold search_memory. eauto with view. Qed.

Lemma related_save_to_memory human_msg ai_response :
  related (save_to_memory self human_msg ai_response)
          (save_to_memory self human_msg ai_response).
Proof. unfold save_to_memory. cbv zeta. eauto with view. Qed.

(** Both tools of the agent read the view, or nothing. *)
Lemma related_tools tl arg :
  tl ∈ tools tavily self → related (tool_func tl arg) (tool_func tl arg).
Proof.
  unfold tools. intros Htl.
  repeat (apply elem_of_cons in Htl as [-> | Htl]); cbn;
    [apply related_lift | apply related_search_memory | by apply elem_of_nil in Htl].
Qed.

Lemma related_invoke_tool (tls : list (Tool World)) name arg :
  (∀ tl a, tl ∈ tls → related (tool_func tl a) (tool_func tl a)) →
  related (invoke_tool tls name arg) (invoke_tool tls name arg).
Proof.
  intros Htl o1 o2 w1 w2 Hw. unfold invoke_tool.
  destruct (find_tool tls name) as [tl|] eqn:Hf; [|done].
  apply find_tool_Some in Hf as [Hin _].
  destruct (Htl tl arg Hin o1 o2 w1 w2 Hw) as [Hr Hw'].
  destruct (tool_func tl arg w1), (tool_func tl arg w2). cbn in *. by subst.
Qed.

(** The loop over the stream, the runtime of each side writing to its own
    thread. *)
Lemma related_for_stream {A} (tls : list (Tool World))
    (c1 c2 : chunk → SE World unit) (body : A → chunk → SE World A) sc :
  (∀ tl a, tl ∈ tls → related (tool_func tl a) (tool_func tl a)) →
  (∀ c, related (c1 c) (c2 c)) →
  (∀ acc c, related (body acc c) (body acc c)) →
  ∀ acc, related (for_stream tls c1 sc body acc) (for_stream tls c2 sc body acc).
Proof.
  intros Htl Hc Hb.
  induction sc as [c k IH|name arg k IH| |e]; intros acc; cbn [for_stream];
    eauto using related_invoke_tool with view.
Qed.

(** The run of the agent is the model's answer to the thread. *)
Lemma related_agent_stream message :
  related (agent_stream llm self message t1) (agent_stream llm self message t2).
Proof.
  unfold agent_stream. apply related_bind; [apply related_commit|]. intros _.
  apply related_gets. intros w1 w2 [= _ Ht]. unfold thread_messages. by rewrite Ht.
Qed.

Lemma related_chat_body response c :
  related (chat_body response c) (chat_body response c).
Proof. unfold chat_body. eauto 6 with view. Qed.

#[local] Hint Resolve related_save_to_memory related_tools related_for_stream
  related_agent_stream related_chat_body : view.

Lemma related_chat message :
  related (chat llm tavily self message t1) (chat llm tavily self message t2).
Proof. unfold chat. cbv zeta. eauto 6 with view. Qed.

Lemma related_turn user_input :
  related (turn llm tavily self user_input t1) (turn llm tavily self user_input t2).
Proof. unfold turn. eauto 6 using related_chat with view. Qed.

End operations.

(** ** A turn is a function of its view *)

(** Related computations, run from processes with the same view. *)
Lemma related_run {A} self t1 t2 (m1 m2 : SE World A) w1 w2 :
  related self t1 t2 m1 m2 → view self t1 w1 = view self t2 w2 →
  ∃ printed,
    (m1 w1).1 = (m2 w2).1 ∧
    view self t1 (m1 w1).2 = view self t2 (m2 w2).2 ∧
    stdout (m1 w1).2 = stdout w1 ++ printed ∧
    stdout (m2 w2).2 = stdout w2 ++ printed.
Proof.
  intros Hm Hv.
  destruct (Hm _ _ w1 w2 (agree_start _ _ _ _ _ Hv)) as (Hr & Hv' & printed & Hp).
  by exists printed.
Qed.

(** C14. A turn reads the collection and its thread, and nothing else.  Two
    processes in which the collection of [self] is the same, and in which
    the thread [t1] of the first holds the messages of the thread [t2] of
    the second, give the same answer (or raise the same exception), print
    the same lines and leave the same collection and the same thread: what
    was printed before, the input that waits, the other threads, the other
    collections, the entropy and the environment have no part in a turn. *)
Theorem chat_noninterference self message t1 t2 w1 w2 :
  view self t1 w1 = view self t2 w2 →
  ∃ printed,
    (chat llm tavily self message t1 w1).1 = (chat llm tavily self message t2 w2).1 ∧
    view self t1 (chat llm tavily self message t1 w1).2 =
      view self t2 (chat llm tavily self message t2 w2).2 ∧
    stdout (chat llm tavily self message t1 w1).2 = stdout w1 ++ printed ∧
    stdout (chat llm tavily self message t2 w2).2 = stdout w2 ++ printed.
Proof. apply related_run, related_chat. Qed.

(** ** Rewriting with the view *)

#[global] Instance view_proper self t : Proper (same_view self t ==> (=)) (view self t).
Proof. by intros w1 w2 Hw. Qed.

#[global] Instance answer_proper self message t :
  Proper (same_view self t ==> (=)) (answer self message t).
Proof.
  intros w1 w2 Hw. unfold answer.
  by destruct (related_run _ _ _ _ _ w1 w2 (related_chat self t t message) Hw)
    as (printed & Hr & _).
Qed.

(** What the loop of [main] does between two turns leaves the view: the
    prompt, the line taken from the input, a line printed. *)
Lemma prompted_same_view self t rest w : same_view self t (prompted rest w) w.
Proof. done. Qed.

Lemma printed_same_view self t s w : same_view self t (print s w).2 w.
Proof. done. Qed.

Lemma urandom_same_view self t n w : same_view self t (urandom n w).2 w.
Proof. done. Qed.

(** The answer to a line does not depend on the prompt that asked for it,
    nor on the lines that wait behind it. *)
Lemma answer_prompted self message t rest w :
  answer self message t (prompted rest w) = answer self message t w.
Proof. by rewrite prompted_same_view. Qed.

(** ** A session is a function of the store, the credentials and the input *)

(** Processes that agree and have the same input left. *)
Definition agree_in self t1 t2 o1 o2 : relation World := λ w1 w2,
  agree self t1 t2 o1 o2 w1 w2 ∧ stdin w1 = stdin w2.

Section session.
Context (agent : ConversationalAgent) (t1 t2 : string) (o1 o2 : list out).

Local Abbreviation agree_in := (agree_in agent t1 t2 o1 o2).

(** What two runs that end in such processes have in common. *)
Lemma agree_in_run {A} (r1 r2 : result A * World) :
  prod_relation (=) agree_in r1 r2 →
  ∃ printed,
    r1.1 = r2.1 ∧
    lookup_collection (chroma_client agent) (collection agent) r1.2 =
      lookup_collection (chroma_client agent) (collection agent) r2.2 ∧
    stdin r1.2 = stdin r2.2 ∧
    stdout r1.2 = o1 ++ printed ∧ stdout r2.2 = o2 ++ printed.
Proof. intros (Hr & ([= Hl _] & printed & Hp) & Hin). by exists printed. Qed.

Lemma agree_in_prompted rest w1 w2 :
  agree agent t1 t2 o1 o2 w1 w2 → agree_in (prompted rest w1) (prompted rest w2).
Proof. intros Hw. split; [|done]. by apply (agree_printed agent t1 t2 (Prompt prompt)). Qed.

Lemma agree_in_turn u w1 w2 :
  agree_in w1 w2 →
  prod_relation (=) agree_in (turn llm tavily agent u t1 w1) (turn llm tavily agent u t2 w2).
Proof.
  intros [Hw Hin]. destruct (related_turn agent t1 t2 u o1 o2 w1 w2 Hw) as [Hr Hw'].
  do 2 (split; [done|]).
  pose proof (turn_frame llm tavily agent u t1 w1) as (_ & _ & -> & _).
  by pose proof (turn_frame llm tavily agent u t2 w2) as (_ & _ & -> & _).
Qed.

Lemma agree_in_loop_body w1 w2 :
  agree_in w1 w2 →
  prod_relation (=) agree_in (loop_body llm tavily agent t1 w1)
                             (loop_body llm tavily agent t2 w2).
Proof.
  intros [Hw Hin]. rewrite !loop_body_run, <- Hin.
  destruct (stdin w1) as [|line rest] eqn:Hin1.
  - split; [done|]. split; [by apply agree_printed | cbn; congruence].
  - pose proof (agree_in_prompted rest w1 w2 Hw) as Hp.
    destruct (is_exit (Text.strip line)); [done|].
    destruct (agree_in_turn (Text.strip line) _ _ Hp) as [Hr Hw'].
    by destruct (turn _ _ _ _ t1 _) as [[[]|e] w1'],
      (turn _ _ _ _ t2 _) as [[[]|e'] w2']; simplify_eq/=.
Qed.

Lemma agree_in_main_loop fuel w1 w2 :
  agree_in w1 w2 →
  prod_relation (=) agree_in (main_loop llm tavily fuel agent t1 w1)
                             (main_loop llm tavily fuel agent t2 w2).
Proof.
  revert w1 w2. induction fuel as [|fuel IH]; intros w1 w2 Hw; [done|].
  rewrite !main_loop_S. destruct (agree_in_loop_body w1 w2 Hw) as [Hr Hw'].
  destruct (loop_body _ _ _ t1 _) as [[[]|e] w1'],
    (loop_body _ _ _ t2 _) as [[[]|e'] w2']; simplify_eq/=; [by apply IH | done..].
Qed.

End session.

(** After [__init__] and the banner the two processes agree, whatever their
    threads were and whatever thread id each draws: the checkpointer is
    new. *)
Lemma agree_in_started w1 w2 :
  lookup_collection "vector_store" "conversation_history" w1 =
    lookup_collection "vector_store" "conversation_history" w2 →
  stdin w1 = stdin w2 →
  agree_in the_agent (session_thread w1) (session_thread w2) (stdout w1) (stdout w2)
    (started w1) (started w2).
Proof.
  intros Hc Hin. split; [split|done].
  - unfold view. change (lookup_collection _ _ (started ?w)) with
      (lookup_collection "vector_store" "conversation_history" (init_world w)).
    by rewrite !init_world_lookup, Hc.
  - exists [Print banner; Print rule]. cbn. by rewrite <- !(assoc_L (++)).
Qed.

(** C13. A session of [main] is a function of the stored conversations, the
    credentials and the input.  Two processes with the same collection
    [conversation_history], the same environment and the same lines of
    input end [main] with the same result, print the same lines and
    leave the same collection and the same input; the bytes [os.urandom]
    gives to each, and so the thread ids of the two sessions, the threads
    either had and what either had printed make no difference. *)
Theorem main_deterministic w1 w2 :
  session_input w1 = session_input w2 →
  ∃ printed,
    (main llm tavily w1).1 = (main llm tavily w2).1 ∧
    lookup_collection "vector_store" "conversation_history" (main llm tavily w1).2 =
      lookup_collection "vector_store" "conversation_history" (main llm tavily w2).2 ∧
    stdin (main llm tavily w1).2 = stdin (main llm tavily w2).2 ∧
    stdout (main llm tavily w1).2 = stdout w1 ++ printed ∧
    stdout (main llm tavily w2).2 = stdout w2 ++ printed.
Proof.
  intros [= Hc Henv Hin]. rewrite !main_run, !init_run, <- Henv, <- Hin.
  destruct (environ w1 !! "ANTHROPIC_API_KEY"), (environ w1 !! "TAVILY_API_KEY");
    cbn [fst snd];
    try (exists []; rewrite !app_nil_r, !init_world_lookup, Hc; by split_and!).
  by apply (agree_in_run the_agent (session_thread w1) (session_thread w2)),
    agree_in_main_loop, agree_in_started.
Qed.

End view.
