(* ===== verification/Document.v ===== *)
(** * Document: the stored form of a turn (line 78 of [project_main.py])

    [save_to_memory] stores a turn as one string,
    [f"Human: {human_msg}\nAI: {ai_response}"], and keeps nothing else of
    it.  Whoever reads the memory (the model, through [memory_search]) has
    the string only.  This file says when the string determines the turn.

    - [removeprefix], [partition]: the two string operations a reader
      needs, as Python's [str.removeprefix] and [str.partition];
    - [parse_document]: the reader, which cuts the document at the first
      line feed followed by [AI: ];
    - [parse_turn_document]: a turn whose human message holds no line feed,
      as every line [input()] returns, is read back from its document;
    - [parse_document_sound]: whatever the reader returns, the document is
      the one [save_to_memory] builds for it;
    - [turn_document_ambiguous]: without the condition two different turns
      have the same document. *)

From Stdlib Require Import Ascii.
From stdpp Require Import base tactics option list numbers strings.
From S2P Require Import Prelude Session Memory.

(** ["Human: "] and ["\nAI: "], the constant parts of line 78. *)
Definition human_prefix : string := "Human: ".
Definition ai_separator : string := nl +:+ "AI: ".

(** [s.removeprefix(p)] when [s] starts with [p]. *)
Fixpoint removeprefix (p s : string) : option string :=
  match p, s with
  | EmptyString, _ => Some s
  | String a p', String b s' => if decide (a = b) then removeprefix p' s' else None
  | String _ _, EmptyString => None
  end.

(** [s.partition(sep)]: what stands before and after the first [sep]. *)
Fixpoint partition (sep s : string) : option (string * string) :=
  match removeprefix sep s with
  | Some rest => Some (EmptyString, rest)
  | None =>
      match s with
      | EmptyString => None
      | String a s' => prod_map (String a) id <$> partition sep s'
      end
  end.

(** The turn a document holds. *)
Definition parse_document (d : string) : option (string * string) :=
  removeprefix human_prefix d ≫= partition ai_separator.

(** The character does not occur in the string. *)
Fixpoint lacks (c : ascii) (s : string) : bool :=
  match s with
  | EmptyString => true
  | String a s' => negb (bool_decide (a = c)) && lacks c s'
  end.

(** No line feed in the string. *)
Definition no_newline : string → bool := lacks (ascii_of_nat 10).

(** ** The two string operations *)

Lemma removeprefix_app (p s : string) : removeprefix p (p +:+ s) = Some s.
Proof.
  induction p as [|a p IH]; [by destruct s|].
  rewrite string_app_cons. cbn. by rewrite decide_True.
Qed.

Lemma removeprefix_Some (p s rest : string) :
  removeprefix p s = Some rest → s = p +:+ rest.
Proof.
  revert s. induction p as [|a p IH]; intros [|b s]; cbn;
    [by intros [= <-].. | done |].
  destruct (decide (a = b)) as [->|]; [|done].
  intros Hp. by rewrite string_app_cons, (IH _ Hp).
Qed.

(** A separator is found where it first stands: after a string that does
    not hold its first character. *)
Lemma partition_app (c : ascii) (sep h a : string) :
  lacks c h = true →
  partition (String c sep) (h +:+ String c sep +:+ a) = Some (h, a).
Proof.
  induction h as [|b h IH]; cbn [lacks].
  - intros _. rewrite string_app_nil_l. destruct (String c sep +:+ a) eqn:E; [done|].
    cbn [partition]. by rewrite <- E, removeprefix_app.
  - intros [Hb Hh]%andb_true_iff. apply negb_true_iff, bool_decide_eq_false in Hb.
    rewrite string_app_cons. cbn [partition removeprefix].
    rewrite decide_False by done. by rewrite IH.
Qed.

Lemma partition_Some (sep s h a : string) :
  partition sep s = Some (h, a) → s = h +:+ sep +:+ a.
Proof.
  revert h. induction s as [|b s IH]; intros h; cbn [partition].
  - destruct (removeprefix sep "") as [rest|] eqn:Hp; [|done].
    intros [= <- <-]. by apply removeprefix_Some in Hp.
  - destruct (removeprefix sep (String b s)) as [rest|] eqn:Hp.
    + intros [= <- <-]. by apply removeprefix_Some in Hp.
    + destruct (partition sep s) as [[h' a']|]; [|done].
      intros [= <- <-]. by rewrite string_app_cons, (IH h' eq_refl).
Qed.

(** ** The document and the turn *)

(** C27. A turn is read back from its document when the human message holds
    no line feed, which is the case of every line [input()] returns. *)
Theorem parse_turn_document (human_msg ai_response : string) :
  no_newline human_msg = true →
  parse_document (turn_document human_msg ai_response) = Some (human_msg, ai_response).
Proof.
  intros Hh. unfold parse_document, turn_document.
  rewrite removeprefix_app. cbn [mbind option_bind].
  exact (partition_app (ascii_of_nat 10) "AI: " human_msg ai_response Hh).
Qed.

(** Reading is sound: the document is the one built from what was read. *)
Lemma parse_document_sound (d human_msg ai_response : string) :
  parse_document d = Some (human_msg, ai_response) →
  d = turn_document human_msg ai_response.
Proof.
  unfold parse_document, turn_document.
  destruct (removeprefix human_prefix d) as [rest|] eqn:Hp; [|done]. cbn.
  intros ->%partition_Some. by apply removeprefix_Some in Hp.
Qed.

(** Without the condition the document does not determine the turn: an
    answer that quotes the separator moves the cut. *)
Lemma turn_document_ambiguous (h x a : string) :
  turn_document (h +:+ ai_separator +:+ x) a =
  turn_document h (x +:+ ai_separator +:+ a).
Proof. unfold turn_document, ai_separator. by rewrite !string_app_assoc. Qed.
