(* ===== verification/Transcript.v ===== *)
(** * Transcript: what a session leaves in the store and on the screen

    [main] prints an answer line for each turn that returns (line 116) and
    [chat] has stored the turn just before (line 97).  The two are written
    by different functions and nothing in the source ties them together.
    This file proves that they tell the same conversation.

    - [responses]: the answers among the lines of the output;
    - [recorded]: the invariant of the loop.  There is a list of turns,
      each a stripped line of the input with the answer to it, such that
      the documents added to the collection are the documents of these
      turns, in order, and the answers printed are their answers, in order;
    - [main_loop_transcript]: the loop keeps it, whatever the model does
      and however the loop ends;
    - [main_transcript]: after [main], the documents added to the store
      read back ([Document.parse_document]) as the turns of the session,
      when the lines of input hold no line feed. *)

From stdpp Require Import base tactics option list numbers strings gmap.
From S2P Require Import Prelude PyStr VectorStore AgentRuntime Session Memory.
From S2P Require Import Chat Startup Cli Document.

Import Chroma Lang Graph.

(** The answer a printed line carries, when it is the line of an answer:
    [print("\nAI:", response)] writes the separator of the documents. *)
Definition response_of (o : out) : option string :=
  match o with
  | Print s => removeprefix ai_separator s
  | _ => None
  end.

(** The answers printed, in order. *)
Definition responses (o : list out) : list string := omap response_of o.

(** The documents of a list of turns. *)
Definition turn_documents (turns : list (string * string)) : list string :=
  uncurry turn_document <$> turns.

Lemma responses_app (o1 o2 : list out) :
  responses (o1 ++ o2) = responses o1 ++ responses o2.
Proof. apply omap_app. Qed.

Lemma responses_PrintChunk (cs : list chunk) : responses (PrintChunk <$> cs) = [].
Proof. by induction cs. Qed.

Lemma responses_answer_line (r : string) : responses [Print (answer_line r)] = [r].
Proof.
  assert (removeprefix ai_separator (answer_line r) = Some r) as Hr
    by apply (removeprefix_app ai_separator r).
  unfold responses. cbn [omap list_omap response_of]. by rewrite Hr.
Qed.

Lemma responses_error_line (e : exn) : responses [Print (error_line e)] = [].
Proof. by vm_compute. Qed.

Lemma responses_try_again : responses [Print "Please try again."] = [].
Proof. by vm_compute. Qed.

Lemma responses_banner (o : list out) :
  responses ((o ++ [Print banner]) ++ [Print rule]) = responses o.
Proof. rewrite !responses_app, !app_nil_r. by vm_compute (responses [_]). Qed.

Lemma lacks_app (c : Ascii.ascii) (s t : string) :
  lacks c (s +:+ t) = lacks c s && lacks c t.
Proof.
  induction s as [|a s IH]; [done|]. rewrite string_app_cons. cbn [lacks].
  by rewrite IH, andb_assoc.
Qed.

(** [strip] takes white space from the ends and adds nothing. *)
Lemma no_newline_strip (line : string) :
  no_newline line = true → no_newline (Text.strip line) = true.
Proof.
  destruct (Text.strip_decompose line) as (ws1 & ws2 & _ & _ & Hline).
  unfold no_newline. rewrite Hline at 1. rewrite !lacks_app.
  by intros [_ [? _]%andb_true_iff]%andb_true_iff.
Qed.

Section transcript.
Context `{Collection C}.
Context (llm : list message → script) (tavily : nat → string → result string).

Local Abbreviation World := (@World C).

Implicit Types (w : World) (agent : ConversationalAgent) (c : C).
Implicit Types (turns : list (string * string)).

(** The invariant of a session that started with the collection [c], the
    output [o] and the input [lines]. *)
Definition recorded agent c (o : list out) (lines : list string) w : Prop :=
  ∃ c' turns read,
    lookup_collection (chroma_client agent) (collection agent) w = Some c' ∧
    ids_wf c' ∧
    coll_docs c' = coll_docs c ++ turn_documents turns ∧
    responses (stdout w) = responses o ++ turns.*2 ∧
    lines = read ++ stdin w ∧
    turns.*1 `sublist_of` Text.strip <$> read.

(** A turn stores what it prints: one document and one answer line when
    [chat] returns, nothing of either when it raises. *)
Lemma turn_recorded agent u t w c :
  lookup_collection (chroma_client agent) (collection agent) w = Some c →
  ids_wf c →
  ∃ c' (new : option string),
    lookup_collection (chroma_client agent) (collection agent)
      (turn llm tavily agent u t w).2 = Some c' ∧
    ids_wf c' ∧
    coll_docs c' = coll_docs c ++ (turn_document u <$> option_list new) ∧
    responses (stdout (turn llm tavily agent u t w).2) =
      responses (stdout w) ++ option_list new.
Proof.
  intros Hl Hwf. destruct (chat_stdout llm tavily agent u t w) as [n Hn].
  rewrite turn_run. destruct (chat llm tavily agent u t w) as [[r|e] w1] eqn:Hc.
  - destruct (chat_Ok_collection llm tavily _ _ _ _ _ _ _ Hl Hwf Hc)
      as (c' & Hl' & Hr & Hwf').
    exists c', (Some r). split_and!; [done..| |].
    + unfold coll_docs. by rewrite Hr, fmap_app.
    + cbn in *. by rewrite Hn, !responses_app, responses_PrintChunk,
        responses_answer_line, app_nil_r.
  - pose proof (chat_Err_disk llm tavily _ _ _ _ _ _ Hc) as Hd.
    rewrite <- (lookup_collection_disk _ _ _ _ Hd) in Hl.
    exists c, None. cbn in Hn. cbn [option_list fmap list_fmap]. rewrite !app_nil_r.
    assert (responses (stdout w1) = responses (stdout w)) as Hw1
      by (by rewrite Hn, responses_app, responses_PrintChunk, app_nil_r).
    destruct (is_Exception e); cbn [snd]; (split_and!; [done..|]); [|done].
    change (responses ((stdout w1 ++ [Print (error_line e)]) ++
                         [Print "Please try again."]) = responses (stdout w)).
    by rewrite !responses_app, responses_error_line, responses_try_again, !app_nil_r.
Qed.

(** The turns so far, with the turn of [line] when it was answered. *)
Definition with_turn turns (line : string) (new : option string) :
    list (string * string) :=
  turns ++ option_list (pair (Text.strip line) <$> new).

Lemma with_turn_documents turns line new :
  turn_documents (with_turn turns line new) =
  turn_documents turns ++ (turn_document (Text.strip line) <$> option_list new).
Proof. unfold turn_documents, with_turn. rewrite fmap_app. by destruct new. Qed.

Lemma with_turn_responses turns line new :
  (with_turn turns line new).*2 = turns.*2 ++ option_list new.
Proof. unfold with_turn. rewrite fmap_app. by destruct new. Qed.

Lemma with_turn_sublist turns line new (read : list string) :
  turns.*1 `sublist_of` Text.strip <$> read →
  (with_turn turns line new).*1 `sublist_of` Text.strip <$> (read ++ [line]).
Proof.
  intros Hsub. unfold with_turn. rewrite !fmap_app. apply sublist_app; [done|].
  destruct new; [done | apply sublist_nil_l].
Qed.

(** A pass keeps the invariant, whether it reads the end of the input, an
    exit line or a message, and whether the turn returns or raises. *)
Lemma loop_body_recorded agent t c o lines w :
  recorded agent c o lines w →
  recorded agent c o lines (loop_body llm tavily agent t w).2.
Proof.
  intros (c' & turns & read & Hl & Hwf & Hd & Hr & Hin & Hsub).
  rewrite loop_body_run. destruct (stdin w) as [|line rest] eqn:Hs.
  - exists c', turns, read. cbn. by rewrite responses_app, app_nil_r, Hs.
  - assert (lines = (read ++ [line]) ++ rest) as Hin' by by rewrite <- app_assoc.
    destruct (is_exit (Text.strip line)).
    + exists c', turns, (read ++ [line]). cbn. rewrite responses_app, app_nil_r.
      split_and!; [done..|]. rewrite fmap_app. by apply sublist_inserts_r.
    + destruct (turn_recorded agent (Text.strip line) t (prompted rest w) c' Hl Hwf)
        as (c2 & new & Hl2 & Hwf2 & Hd2 & Hr2).
      pose proof (turn_frame llm tavily agent (Text.strip line) t (prompted rest w))
        as (_ & _ & Hin2 & _).
      exists c2, (with_turn turns line new), (read ++ [line]).
      rewrite with_turn_documents, with_turn_responses, !(assoc_L (++)), <- Hd, <- Hr.
      destruct (turn _ _ _ _ _ _) as [[[]|e] w2]; cbn in *;
        rewrite Hin2, Hr2, responses_app, app_nil_r;
        by split_and!; [..|apply with_turn_sublist].
Qed.

(** The loop stores the conversation it prints.  There is a list of turns,
    lines of the input in their order with the answers to them, whose
    documents are what the loop added to the collection and whose answers
    are what it printed as answers. *)
Lemma main_loop_transcript fuel agent t w c :
  lookup_collection (chroma_client agent) (collection agent) w = Some c →
  ids_wf c →
  ∃ c' turns,
    lookup_collection (chroma_client agent) (collection agent)
      (main_loop llm tavily fuel agent t w).2 = Some c' ∧
    ids_wf c' ∧
    coll_docs c' = coll_docs c ++ turn_documents turns ∧
    responses (stdout (main_loop llm tavily fuel agent t w).2) =
      responses (stdout w) ++ turns.*2 ∧
    turns.*1 `sublist_of` Text.strip <$> stdin w.
Proof.
  intros Hl Hwf.
  destruct (main_loop_invariant llm tavily (recorded agent c (stdout w) (stdin w))
              agent t (loop_body_recorded agent t c (stdout w) (stdin w)) fuel w)
    as (c' & turns & read & Hl' & Hwf' & Hd & Hr & Hin & Hsub).
  { exists c, [], []. unfold turn_documents. by rewrite !app_nil_r. }
  exists c', turns. split_and!; [done..|].
  rewrite Hin, fmap_app. by apply sublist_inserts_r.
Qed.

(** The documents of turns whose messages hold no line feed read back as
    the turns. *)
Lemma parse_turn_documents turns :
  Forall (λ u, no_newline u = true) turns.*1 →
  parse_document <$> turn_documents turns = Some <$> turns.
Proof.
  induction turns as [|[u r] turns IH]; [done|].
  intros [Hu Hturns]%Forall_cons. unfold turn_documents in *.
  rewrite !fmap_cons, IH by done. cbn [uncurry fst snd].
  by rewrite parse_turn_document.
Qed.

(** C6. The memory reads back as the conversation.  When the collection on
    the disk, if there is one, has the ids [conv_1 .. conv_n] and the lines
    of the input hold no line feed, there is a list of turns, each a
    stripped line of the input with an answer, in the order of the input,
    such that after [main], however it ends: the collection holds its old
    documents followed by the documents of these turns; each of these
    documents parses back to its turn; and the answers printed are the
    answers of these turns, in order. *)
Theorem main_transcript w :
  (∀ c, lookup_collection "vector_store" "conversation_history" w = Some c →
        ids_wf c) →
  Forall (λ line, no_newline line = true) (stdin w) →
  ∃ c' turns,
    lookup_collection "vector_store" "conversation_history" (main llm tavily w).2 =
      Some c' ∧
    ids_wf c' ∧
    coll_docs c' =
      coll_docs (default coll_empty
        (lookup_collection "vector_store" "conversation_history" w)) ++
      turn_documents turns ∧
    parse_document <$> turn_documents turns = Some <$> turns ∧
    responses (stdout (main llm tavily w).2) = responses (stdout w) ++ turns.*2 ∧
    turns.*1 `sublist_of` Text.strip <$> stdin w.
Proof.
  intros Hwf Hlines.
  assert (ids_wf (default coll_empty
    (lookup_collection "vector_store" "conversation_history" w))) as Hwf0.
  { destruct (lookup_collection _ _ w) as [c|]; [by apply Hwf | apply ids_wf_empty]. }
  rewrite main_run, init_run.
  destruct (environ w !! "ANTHROPIC_API_KEY"); [destruct (environ w !! "TAVILY_API_KEY")|];
    [|eexists _, []; cbn [snd turn_documents fmap list_fmap]; rewrite !app_nil_r;
      split_and!; [apply init_world_lookup | done.. | apply sublist_nil_l]..].
  destruct (main_loop_transcript (S (length (stdin w))) the_agent (session_thread w)
              (started w) _ (init_world_lookup w) Hwf0)
    as (c' & turns & Hl & Hwf' & Hd & Hr & Hsub).
  exists c', turns. split_and!; [done..| | |done].
  - apply parse_turn_documents, (Forall_sublist _ _ _ Hsub), Forall_fmap.
    eapply Forall_impl; [exact Hlines|]. apply no_newline_strip.
  - rewrite Hr. f_equal. apply (responses_banner (stdout w)).
Qed.

End transcript.
