(* ===== verification/Loop.v ===== *)
(** * Loop: [while True] without a bound (lines 109-119 of [project_main.py])

    The loop of [main] has no bound in the source.  It ends because a pass
    that does not raise takes a line from the input, which is finite:
    [while_True] is the loop defined by well-founded recursion on the number
    of lines left, with no fuel, and [main_None] is [main] with that loop,
    returning [None] as the function of the source does.

    - [while_True_body]: the loop is its body followed by the loop;
    - [while_True_fuel], [main_bounded]: the loop of [Cli] with a bound
      above the number of input lines, and [Cli.main], compute what the
      unbounded definitions compute;
    - [while_True_invariant]: what every pass keeps, the loop keeps, by
      the induction principle of the definition;
    - [while_True_stdout]: the loop only adds to standard output. *)

From Equations Require Import Equations.
From stdpp Require Import base tactics option list numbers strings gmap.
From S2P Require Import Prelude PyStr VectorStore AgentRuntime Session Chat.
From S2P Require Import Startup Cli.

Import Chroma Lang Graph.

(** A value with the equation that says where it came from: a match on
    [inspect (f x)] keeps [f x = pattern] in each branch. *)
Definition inspect {A} (a : A) : {b | a = b} := exist _ a eq_refl.

(** The result of a loop without a bound, as the bounded loop gives it. *)
Definition bounded {W} (r : result unit * W) : result (option unit) * W :=
  (Some <$> r.1, r.2).

Lemma bounded_world {W} (r : result unit * W) : r.2 = (bounded r).2.
Proof. reflexivity. Qed.

Section loop.
Context `{Collection C}.
Context (llm : list message → script) (tavily : nat → string → result string).

Local Abbreviation World := (@World C).

Implicit Types (w : World) (agent : ConversationalAgent).

(** The equations of the loop are proved without the axiom of functional
    extensionality. *)
Unset Equations With Funext.

(** Lines 109-119: [while True].  The measure is the number of lines
    [input()] can still read. *)
Equations? while_True agent (thread_id : string) (w : World) :
    result unit * World by wf (length (stdin w)) lt :=
while_True agent thread_id w
    with inspect (loop_body llm tavily agent thread_id w) := {
  | exist _ (Ok true, w') Hbody => while_True agent thread_id w'
  | exist _ (Ok false, w') Hbody => (Ok tt, w')
  | exist _ (Err e, w') Hbody => (Err e, w') }.
Proof.
  apply loop_body_reads in Hbody as (line & -> & _). cbn. lia.
Defined.

(** Lines 100-119: [main], returning [None]. *)
Definition main_None : SE World unit :=
  agent ← init;
  print banner;;
  print rule;;
  bytes ← urandom 4;
  let thread_id := make_thread_id bytes in
  while_True agent thread_id.

(** ** The loop and its body *)

Lemma while_True_body agent t w :
  while_True agent t w =
  match loop_body llm tavily agent t w with
  | (Ok true, w') => while_True agent t w'
  | (Ok false, w') => (Ok tt, w')
  | (Err e, w') => (Err e, w')
  end.
Proof.
  rewrite while_True_equation_1.
  destruct (inspect (loop_body llm tavily agent t w)) as [[[[]|e] w'] Hbody];
    cbn; by rewrite Hbody.
Qed.

(** ** The bounded loop computes the loop *)

(** With more passes allowed than there are lines of input, the loop of
    [Cli] is [while_True]. *)
Lemma while_True_fuel fuel agent t w :
  length (stdin w) < fuel →
  main_loop llm tavily fuel agent t w = bounded (while_True agent t w).
Proof.
  revert w. induction fuel as [|fuel IH]; intros w Hlen; [lia|].
  rewrite main_loop_S, while_True_body.
  destruct (loop_body llm tavily agent t w) as [[[]|e] w'] eqn:Hbody; [|done..].
  apply loop_body_reads in Hbody as (line & Hin & _). apply IH.
  rewrite Hin in Hlen. cbn in Hlen. lia.
Qed.

Lemma started_stdin w : stdin (started w) = stdin w.
Proof. reflexivity. Qed.

Lemma main_None_run w :
  main_None w =
  match init w with
  | (Ok agent, _) => while_True agent (session_thread w) (started w)
  | (Err e, w') => (Err e, w')
  end.
Proof.
  unfold main_None. se_simp. rewrite init_run.
  by destruct (environ w !! "ANTHROPIC_API_KEY"), (environ w !! "TAVILY_API_KEY").
Qed.

(** The bound of [Cli.main] is enough: with one pass more than the lines
    of input it computes what [main_None] computes, the function with the
    loop of the source.  It is the reason the theorems of [Cli], proved by
    induction on the bound, hold of the program. *)
Lemma main_bounded w : main llm tavily w = bounded (main_None w).
Proof.
  rewrite main_run, main_None_run.
  destruct (init w) as [[agent|e] w1]; [|done].
  apply while_True_fuel. rewrite started_stdin. lia.
Qed.

(** The state in which [main_None] ends is the state in which [main]
    ends. *)
Lemma main_None_world w : (main_None w).2 = (main llm tavily w).2.
Proof.
  rewrite main_run, main_None_run. destruct (init w) as [[agent|e] w1]; [|done].
  rewrite while_True_fuel by (rewrite started_stdin; lia). apply bounded_world.
Qed.

(** ** Reasoning along the loop *)

(** What every pass keeps, the loop keeps: by the elimination principle of
    [while_True], one case for each way a pass ends. *)
Lemma while_True_invariant (P : World → Prop) agent t :
  (∀ w, P w → P (loop_body llm tavily agent t w).2) →
  ∀ w, P w → P (while_True agent t w).2.
Proof.
  intros Hstep w. funelim (while_True agent t w); intros HP;
    pose proof (Hstep w HP) as Hw; rewrite Hbody in Hw; [|done..].
  match goal with IH : ∀ P : World → Prop, _ |- _ => by apply IH end.
Qed.

(** A turn and a pass only add to the output. *)
Lemma turn_stdout agent u t w :
  stdout w `prefix_of` stdout (turn llm tavily agent u t w).2.
Proof.
  destruct (chat_stdout llm tavily agent u t w) as [n Hn]. rewrite turn_run.
  destruct (chat llm tavily agent u t w) as [[r|e] w1]; [|destruct (is_Exception e)];
    cbn in *; rewrite Hn, <- ?app_assoc; by eexists.
Qed.

Lemma loop_body_stdout agent t w :
  stdout w `prefix_of` stdout (loop_body llm tavily agent t w).2.
Proof.
  rewrite loop_body_run. destruct (stdin w) as [|line rest]; [by eexists|].
  destruct (is_exit (Text.strip line)); [by eexists|].
  pose proof (turn_stdout agent (Text.strip line) t (prompted rest w)) as Hturn.
  destruct (turn _ _ _ _ _ _) as [[[]|e] w']; cbn in *;
    (etrans; [|exact Hturn]); by eexists.
Qed.

(** The output is append-only: what was written before the loop, the banner
    included, is a prefix of what is written when it ends, however it
    ends. *)
Lemma while_True_stdout agent t w :
  stdout w `prefix_of` stdout (while_True agent t w).2.
Proof.
  apply (while_True_invariant (λ w', stdout w `prefix_of` stdout w')); [|done].
  intros w1 Hw1. etrans; [exact Hw1 | apply loop_body_stdout].
Qed.

End loop.
