(* ===== verification/Tree.v ===== *)
(** * Tree: [main] as an interaction tree

    [while True] of line 109 is a loop with no bound and no measure.  Here
    [main] is written as the source has it, as a program that talks to its
    process through events ([input], [print], [os.urandom], the constructor
    and [chat]), with the loop as [ITree.iter]: a tree that may be infinite.
    The handler [h_cli] gives the events the meaning [Session] and [Cli] give
    the calls.

    - [turn_tree], [body_tree], [loop_tree], [main_tree]: lines 114-119,
      110-119, 109-119 and 100-119;
    - [loop_tree_run], [main_tree_run]: interpreted in a process, the tree of
      the loop is equivalent, up to silent steps, to the tree that returns
      what [Loop.while_True] computes, and the tree of [main] to the one
      that returns what [Loop.main_None] computes.  So the loop of the
      source, which [ITree.iter] does not force to end, ends on every
      process: that is here a theorem, where in [Cli] and [Loop] it is part
      of the definition. *)

From Stdlib Require Import String List Arith Lia Wf_nat.
From ITree Require Import ITree ITreeFacts Events.State Events.StateFacts.
From S2P Require Import Prelude PyStr VectorStore AgentRuntime Session Chat.
From S2P Require Import Startup Cli Loop.

Import Chroma Lang Graph.
Import ITreeNotations.
Local Open Scope string_scope.
Local Open Scope itree_scope.

(** What [main] asks of its process. *)
Variant cliE : Type -> Type :=
| Init : cliE (result ConversationalAgent)
| Input (prompt : string) : cliE (result string)
| Output (s : string) : cliE unit
| Urandom (n : nat) : cliE (list Byte.byte)
| Chat (agent : ConversationalAgent) (user_input thread_id : string) :
    cliE (result string).

(** Lines 114-119: a turn, its answer printed, or its error. *)
Definition turn_tree (agent : ConversationalAgent) (user_input thread_id : string) :
    itree cliE (result unit) :=
  r <- ITree.trigger (Chat agent user_input thread_id);;
  match r with
  | Ok response => ITree.trigger (Output (answer_line response));; Ret (Ok tt)
  | Err e =>
      if is_Exception e
      then ITree.trigger (Output (error_line e));;
           ITree.trigger (Output "Please try again.");;
           Ret (Ok tt)
      else Ret (Err e)
  end.

(** Lines 110-119: one pass; [inl] goes on, [inr] leaves the loop, by
    [break] or by an exception. *)
Definition body_tree (agent : ConversationalAgent) (thread_id : string) :
    itree cliE (unit + result unit) :=
  r <- ITree.trigger (Input prompt);;
  match r with
  | Err e => Ret (inr (Err e))
  | Ok line =>
      let user_input := Text.strip line in
      if is_exit user_input then Ret (inr (Ok tt))
      else
        r <- turn_tree agent user_input thread_id;;
        match r with
        | Ok _ => Ret (inl tt)
        | Err e => Ret (inr (Err e))
        end
  end.

(** Lines 109-119: [while True]. *)
Definition loop_tree (agent : ConversationalAgent) (thread_id : string) :
    itree cliE (result unit) :=
  ITree.iter (fun _ : unit => body_tree agent thread_id) tt.

(** Lines 100-119: [main]. *)
Definition main_tree : itree cliE (result unit) :=
  r <- ITree.trigger Init;;
  match r with
  | Err e => Ret (Err e)
  | Ok agent =>
      ITree.trigger (Output banner);;
      ITree.trigger (Output rule);;
      bytes <- ITree.trigger (Urandom 4);;
      loop_tree agent (make_thread_id bytes)
  end.

Section tree.
Context {C : Type} {HC : Collection C}.
Context (llm : list message -> script) (tavily : nat -> string -> result string).

(** The outcome of a computation of the state-and-exception monad, as the
    interpretation of a tree gives it: the state first. *)
Definition ran {A} (r : result A * @World C) : @World C * result A :=
  (snd r, fst r).

(** The events in a process. *)
Definition h_cli : cliE ~> Monads.stateT (@World C) (itree void1) :=
  fun _ e w =>
    match e with
    | Init => Ret (ran (init w))
    | Input p => Ret (ran (input p w))
    | Output s => Ret (snd (print s w), tt)
    | Urandom n =>
        Ret (snd (urandom n w), stdpp.base.fmap (entropy w) (seq (entropy_pos w) n))
    | Chat agent user_input thread_id =>
        Ret (ran (chat llm tavily agent user_input thread_id w))
    end.

(** How a pass ends, for [ITree.iter]. *)
Definition next (r : result bool * @World C) : @World C * (unit + result unit) :=
  (snd r,
   match fst r with
   | Ok true => inl tt
   | Ok false => inr (Ok tt)
   | Err e => inr (Err e)
   end).

(** One event, interpreted: the handler's answer goes to the rest of the
    tree. *)
Lemma interp_event {A B} (e : cliE A) (k : A -> itree cliE B) w w' a :
  h_cli A e w = Ret (w', a) ->
  interp_state h_cli (ITree.bind (ITree.trigger e) k) w ≈ interp_state h_cli (k a) w'.
Proof.
  intros He. rewrite interp_state_bind, interp_state_trigger, He, bind_ret_l.
  reflexivity.
Qed.

Lemma turn_tree_run agent u t w :
  interp_state h_cli (turn_tree agent u t) w ≈ Ret (ran (turn llm tavily agent u t w)).
Proof.
  unfold turn_tree. rewrite (interp_event _ _ w) by reflexivity. rewrite turn_run.
  destruct (chat llm tavily agent u t w) as [[r|e] w1]; cbn;
    [|destruct (is_Exception e)];
    rewrite ?(interp_event (Output _)) by reflexivity;
    rewrite interp_state_ret; reflexivity.
Qed.

Lemma body_tree_run agent t w :
  interp_state h_cli (body_tree agent t) w ≈ Ret (next (loop_body llm tavily agent t w)).
Proof.
  unfold body_tree. rewrite (interp_event _ _ w) by reflexivity.
  rewrite loop_body_run. unfold input, ran. cbn.
  destruct (stdin w) as [|line rest]; cbn; [rewrite interp_state_ret; reflexivity|].
  fold (prompted rest w).
  destruct (is_exit (Text.strip line)); [rewrite interp_state_ret; reflexivity|].
  rewrite interp_state_bind, turn_tree_run, bind_ret_l.
  destruct (turn llm tavily agent (Text.strip line) t (prompted rest w))
    as [[[]|e] w1]; cbn; rewrite interp_state_ret; reflexivity.
Qed.

(** The loop as a tree ends: interpreted in a process, [loop_tree] is
    equivalent to the tree that returns what [while_True] computes, the
    result and the state.  By induction on the lines left to read. *)
Lemma loop_tree_run agent t w :
  interp_state h_cli (loop_tree agent t) w ≈ Ret (ran (while_True llm tavily agent t w)).
Proof.
  remember (length (stdin w)) as n eqn:Hn. revert w Hn.
  induction n as [n IH] using lt_wf_ind. intros w ->.
  unfold loop_tree. rewrite unfold_iter, interp_state_bind, body_tree_run, bind_ret_l.
  rewrite while_True_body.
  destruct (loop_body llm tavily agent t w) as [[[]|e] w'] eqn:Hbody; cbn;
    [|rewrite interp_state_ret; reflexivity..].
  rewrite interp_state_tau, tau_eutt. apply (IH (length (stdin w'))); [|reflexivity].
  apply loop_body_reads in Hbody as (line & -> & _). cbn. lia.
Qed.

(** C17. [main] as a tree ends, and computes [main_None]: interpreted in a
    process, [main_tree] is equivalent, up to silent steps, to the tree
    that returns the result and the final state of [main_None].  No run
    of [main] diverges, whatever the input, the model and the store. *)
Theorem main_tree_run w :
  interp_state h_cli main_tree w ≈ Ret (ran (main_None llm tavily w)).
Proof.
  unfold main_tree. rewrite (interp_event _ _ w) by reflexivity.
  rewrite main_None_run. pose proof (init_state w) as Hw.
  destruct (init w) as [[agent|e] w1]; cbn in Hw; subst w1; cbn;
    [|rewrite interp_state_ret; reflexivity].
  rewrite !(interp_event (Output _)) by reflexivity.
  rewrite (interp_event (Urandom 4)) by reflexivity.
  apply loop_tree_run.
Qed.

End tree.
