(* ===== verification/Program.v ===== *)
(** * Program: the module [project_main.py], first statement to last

    Besides the class and [main], the module has statements of its own: the
    imports (lines 10-20), [load_dotenv()] (line 23), which run when the
    module is loaded, and the guard [if __name__ == "__main__": main()]
    (lines 121-122).

    - [imports], [exec_import]: the import statements in the order of the
      source; a module that cannot be found, or that does not define an
      imported name, ends the program there;
    - [load_dotenv]: the bindings of the [.env] file join the environment,
      those whose key the environment has already are dropped;
    - [entry_guard], [project_main]: the module run under a given
      [__name__];
    - a failed import leaves the process as it was ([project_main_import]);
      imported, the module loads the environment and does nothing else
      ([project_main_imported]); run as a script, it is [main] after the
      load ([project_main_script]), so the credentials may come from the
      file ([project_main_credentials], [project_main_no_credential]) and
      the theorems of [main] hold of the program
      ([project_main_answers]). *)

From stdpp Require Import base tactics option list numbers strings gmap.
From S2P Require Import Prelude PyStr VectorStore AgentRuntime Session Memory.
From S2P Require Import Startup Cli Loop.

Import Chroma Lang Graph.

(** [import a.b.c] and [from a.b.c import x, y]: the module by the
    components of its dotted name. *)
Inductive import_stmt : Type :=
| Import (module : list string)
| FromImport (module : list string) (names : list string).

(** Lines 10-20. *)
Definition imports : list import_stmt :=
  [ Import ["os"];
    FromImport ["typing"] ["List"; "Dict"];
    FromImport ["dotenv"] ["load_dotenv"];
    FromImport ["langchain_anthropic"] ["ChatAnthropic"];
    FromImport ["langchain_community"; "tools"; "tavily_search"]
      ["TavilySearchResults"];
    FromImport ["langchain_core"; "messages"] ["HumanMessage"; "AIMessage"];
    FromImport ["langchain_core"; "tools"] ["Tool"];
    FromImport ["langgraph"; "checkpoint"; "memory"] ["MemorySaver"];
    FromImport ["langgraph"; "prebuilt"] ["create_react_agent"];
    Import ["chromadb"];
    FromImport ["chromadb"; "config"] ["Settings"] ].

(** The dotted name of a module. *)
Definition dotted (path : list string) : string := Text.join "." path.

(** The packages an import loads, outermost first: [a], [a.b], [a.b.c]. *)
Fixpoint packages (outer path : list string) : list string :=
  match path with
  | [] => []
  | x :: rest => dotted (outer ++ [x]) :: packages (outer ++ [x]) rest
  end.

Definition ModuleNotFoundError (name : string) : exn :=
  Exn (OtherError "ModuleNotFoundError") ("No module named '" +:+ name +:+ "'").

Definition ImportError (name module : string) : exn :=
  Exn (OtherError "ImportError")
      ("cannot import name '" +:+ name +:+ "' from '" +:+ module +:+ "'").

(** An installation with the packages of [path] and, in the module itself,
    the names [names]. *)
Definition provide (path names : list string)
    (site : gmap string (gset string)) : gmap string (gset string) :=
  let site' := foldr (λ p s, <[p := default ∅ (s !! p)]> s) site (packages [] path) in
  <[dotted path := list_to_set names ∪ default ∅ (site' !! dotted path)]> site'.

(** What the imports of the module need: every package they name, with the
    names they take from each. *)
Definition requirements : gmap string (gset string) :=
  foldr (λ i site,
           match i with
           | Import path => provide path [] site
           | FromImport path names => provide path names site
           end) ∅ imports.

Section program.
Context `{Collection C}.
Context (llm : list message → script) (tavily : nat → string → result string).

Local Abbreviation World := (@World C).

Implicit Types (w : World) (i : import_stmt).

(** Load a module: its packages from the outermost in, the first that is
    not there raises.  The answer is the names the module defines. *)
Definition import_module (path : list string) : SE World (gset string) := λ w,
  match list_find (λ p, modules w !! p = None) (packages [] path) with
  | Some (_, p) => (Err (ModuleNotFoundError p), w)
  | None => (Ok (default ∅ (modules w !! dotted path)), w)
  end.

(** One import statement. *)
Definition exec_import i : SE World unit :=
  match i with
  | Import path => import_module path;; mret tt
  | FromImport path names =>
      defined ← import_module path;
      match list_find (λ n, n ∉ defined) names with
      | Some (_, n) => se_raise (ImportError n (dotted path))
      | None => mret tt
      end
  end.

(** Import statements in order. *)
Fixpoint exec_imports (stmts : list import_stmt) : SE World unit :=
  match stmts with
  | [] => mret tt
  | i :: rest => exec_import i;; exec_imports rest
  end.

(** [load_dotenv()], with [override=False] as the call leaves it: a binding
    of the file is set when the environment has none for its key.  The
    answer is whether the file had a binding. *)
Definition load_dotenv : SE World bool := λ w,
  (Ok (bool_decide (dotenv w ≠ ∅)), set_environ (λ env, env ∪ dotenv w) w).

(** Lines 121-122. *)
Definition entry_guard (__name__ : string) : SE World unit :=
  if decide (__name__ = "__main__") then main_None llm tavily else mret tt.

(** The statements of the module in order: the imports, line 23, then the
    guard (the [class] and [def] statements between them bind names and do
    nothing else). *)
Definition project_main (__name__ : string) : SE World unit :=
  exec_imports imports;;
  load_dotenv;;
  entry_guard __name__.

(** The state after [load_dotenv()]. *)
Definition loaded w : World := set_environ (λ env, env ∪ dotenv w) w.

(** An import statement that runs without an error in [w]. *)
Definition import_ok w i : bool := bool_decide ((exec_import i w).1 = Ok tt).

(** Every import of the module does. *)
Definition importable w : bool := forallb (import_ok w) imports.

(** ** The imports *)

Lemma import_module_world path w : (import_module path w).2 = w.
Proof. unfold import_module. by destruct (list_find _ _) as [[? ?]|]. Qed.

(** An import changes nothing of the process. *)
Lemma exec_import_world i w : (exec_import i w).2 = w.
Proof.
  destruct i as [path|path names]; cbn [exec_import]; rewrite run_bind;
    pose proof (import_module_world path w) as Hw;
    destruct (import_module path w) as [[defined|e] w']; cbn in Hw; subst;
    try done.
  by destruct (list_find _ names) as [[? ?]|].
Qed.

(** What an import raises is an [Exception]. *)
Lemma exec_import_raises i w e :
  (exec_import i w).1 = Err e → is_Exception e = true.
Proof.
  destruct i as [path|path names]; cbn [exec_import]; rewrite run_bind;
    unfold import_module;
    destruct (list_find _ (packages [] path)) as [[? ?]|]; cbn;
    try (by intros [= <-]); try discriminate.
  destruct (list_find _ names) as [[? ?]|]; cbn; [by intros [= <-]|discriminate].
Qed.

(** The imports run to the first statement that fails, which ends them. *)
Lemma exec_imports_run stmts w :
  exec_imports stmts w =
  (match list_find (λ i, import_ok w i = false) stmts with
   | Some (_, i) => (exec_import i w).1
   | None => Ok tt
   end, w).
Proof.
  induction stmts as [|i rest IH]; [done|].
  cbn [exec_imports list_find]. rewrite run_bind.
  pose proof (exec_import_world i w) as Hw.
  destruct (import_ok w i) eqn:Hok; unfold import_ok in Hok.
  - apply bool_decide_eq_true in Hok.
    destruct (exec_import i w) as [r w']; cbn in Hw, Hok; subst.
    rewrite decide_False, IH by done. by destruct (list_find _ rest) as [[? ?]|].
  - apply bool_decide_eq_false in Hok.
    destruct (exec_import i w) as [[[]|e] w'] eqn:He; cbn in Hw, Hok; subst;
      [done|].
    rewrite decide_True by done. by rewrite He.
Qed.

Lemma importable_Forall w :
  importable w = true ↔ Forall (λ i, import_ok w i = true) imports.
Proof.
  unfold importable. rewrite <- Is_true_true, forallb_True.
  apply Forall_iff. intros i. apply Is_true_true.
Qed.

Lemma exec_imports_importable w :
  importable w = true → exec_imports imports w = (Ok tt, w).
Proof.
  intros Hok%importable_Forall. rewrite exec_imports_run.
  destruct (list_find _ imports) as [[k i]|] eqn:Hfind; [|done].
  apply list_find_Some in Hfind as (Hi & Hbad & _).
  by rewrite (Forall_lookup_1 _ _ _ _ Hok Hi) in Hbad.
Qed.

(** ** [load_dotenv] *)

Lemma load_dotenv_run w :
  load_dotenv w = (Ok (bool_decide (dotenv w ≠ ∅)), loaded w).
Proof. reflexivity. Qed.

(** [load_dotenv] does not override: a variable the environment has keeps
    its value, whatever the file says, and a variable it has not takes the
    value of the file, if the file has one. *)
Theorem load_dotenv_environ w key :
  environ (load_dotenv w).2 !! key =
  match environ w !! key with
  | Some v => Some v
  | None => dotenv w !! key
  end.
Proof.
  cbn. rewrite lookup_union. by destruct (environ w !! key), (dotenv w !! key).
Qed.

(** A second load changes nothing. *)
Lemma loaded_idemp w : loaded (loaded w) = loaded w.
Proof.
  unfold loaded, set_environ. cbn. f_equal.
  by rewrite <- (assoc_L (∪)), (idemp_L (∪)).
Qed.

Lemma loaded_lookup_collection dir name w :
  lookup_collection dir name (loaded w) = lookup_collection dir name w.
Proof. reflexivity. Qed.

(** ** The module *)

Lemma project_main_run __name__ w :
  project_main __name__ w =
  match exec_imports imports w with
  | (Ok _, _) =>
      if decide (__name__ = "__main__") then main_None llm tavily (loaded w)
      else (Ok tt, loaded w)
  | (Err e, _) => (Err e, w)
  end.
Proof.
  unfold project_main, entry_guard. rewrite run_bind, exec_imports_run.
  destruct (list_find _ imports) as [[k i]|]; [destruct (exec_import i w).1|];
    rewrite ?run_bind, ?load_dotenv_run; try done; by case_decide.
Qed.

(** C36. An import that fails ends the program before it did anything: the
    exception is that of the first statement that fails, and the process
    is as it was, the environment included. *)
Theorem project_main_import __name__ w :
  importable w = false →
  ∃ k i e, list_find (λ i, import_ok w i = false) imports = Some (k, i) ∧
           (exec_import i w).1 = Err e ∧ is_Exception e = true ∧
           project_main __name__ w = (Err e, w).
Proof.
  intros Hbad. rewrite project_main_run, exec_imports_run.
  destruct (list_find _ imports) as [[k i]|] eqn:Hfind.
  - pose proof Hfind as (_ & Hi & _)%list_find_Some. unfold import_ok in Hi.
    apply bool_decide_eq_false in Hi.
    destruct (exec_import i w).1 as [[]|e] eqn:He; [done|].
    exists k, i, e. eauto using exec_import_raises.
  - apply list_find_None in Hfind.
    rewrite <- not_true_iff_false, importable_Forall in Hbad. destruct Hbad.
    eapply Forall_impl; [exact Hfind|]. intros i. apply not_false_iff_true.
Qed.

(** Run as a script, the module is [main] after the load. *)
Lemma project_main_script w :
  importable w = true →
  project_main "__main__" w = main_None llm tavily (loaded w).
Proof.
  intros Hok. rewrite project_main_run, exec_imports_importable by done.
  by case_decide.
Qed.

Lemma project_main_world w :
  importable w = true →
  (project_main "__main__" w).2 = (main llm tavily (loaded w)).2.
Proof. intros Hok. by rewrite project_main_script, main_None_world. Qed.

(** Imported under another name, the module loads the environment and
    does nothing else: no store is opened, nothing is printed, no line is
    read. *)
Theorem project_main_imported __name__ w :
  importable w = true → __name__ ≠ "__main__" →
  project_main __name__ w = (Ok tt, loaded w) ∧
  disk (project_main __name__ w).2 = disk w ∧
  stdout (project_main __name__ w).2 = stdout w ∧
  stdin (project_main __name__ w).2 = stdin w.
Proof.
  intros Hok Hname. rewrite project_main_run, exec_imports_importable by done.
  by case_decide.
Qed.

(** ** The credentials *)

(** A variable is set after the load when the environment or the file sets
    it. *)
Lemma loaded_environ_Some w key :
  is_Some (environ (loaded w) !! key) ↔
  is_Some (environ w !! key) ∨ is_Some (dotenv w !! key).
Proof. apply lookup_union_is_Some. Qed.

Lemma loaded_environ_None w key :
  environ (loaded w) !! key = None ↔
  environ w !! key = None ∧ dotenv w !! key = None.
Proof. apply lookup_union_None. Qed.

(** C34. Where the modules can be imported and each credential is in the
    environment or in the file, the program gets to its loop: the agent is built, the banner is printed
    after what the output held, and the loop runs on the thread of the
    session. *)
Theorem project_main_credentials w :
  importable w = true →
  is_Some (environ w !! "ANTHROPIC_API_KEY") ∨
    is_Some (dotenv w !! "ANTHROPIC_API_KEY") →
  is_Some (environ w !! "TAVILY_API_KEY") ∨ is_Some (dotenv w !! "TAVILY_API_KEY") →
  project_main "__main__" w =
    while_True llm tavily the_agent (session_thread (loaded w))
      (started (loaded w)) ∧
  stdout w ++ [Print banner; Print rule] `prefix_of`
    stdout (project_main "__main__" w).2.
Proof.
  intros Hok [k1 H1]%loaded_environ_Some [k2 H2]%loaded_environ_Some.
  rewrite project_main_script, main_None_run, init_run, H1, H2 by done.
  split; [done|]. etrans; [|apply while_True_stdout].
  cbn. by rewrite <- app_assoc.
Qed.

(** C35. Where the modules can be imported and a credential is in neither,
    the program raises the validation error of the constructor: the store was opened, nothing was printed, no line
    was read. *)
Theorem project_main_no_credential w :
  importable w = true →
  (environ w !! "ANTHROPIC_API_KEY" = None ∧
   dotenv w !! "ANTHROPIC_API_KEY" = None) ∨
  (environ w !! "TAVILY_API_KEY" = None ∧ dotenv w !! "TAVILY_API_KEY" = None) →
  ∃ key,
    project_main "__main__" w =
      (Err (Exn (OtherError "ValidationError") key), init_world (loaded w)) ∧
    stdout (project_main "__main__" w).2 = stdout w ∧
    stdin (project_main "__main__" w).2 = stdin w.
Proof.
  intros Hok. rewrite <- !loaded_environ_None. intros Hkey.
  rewrite project_main_script, main_None_run by done.
  destruct (init_no_credential (loaded w) Hkey) as [key ->]. by exists key.
Qed.

(** ** From end to end *)

(** C5. The program keeps the store: where the modules can be imported,
    when the collection on the disk, if there is one, has the ids
    [conv_1 .. conv_n], the collection after the
    program has them again, with one record more for each answer printed,
    whatever the file, the model and the search provider gave and however
    the program ended. *)
Theorem project_main_answers w :
  importable w = true →
  (∀ c, lookup_collection "vector_store" "conversation_history" w = Some c →
        ids_wf c) →
  ∃ c', lookup_collection "vector_store" "conversation_history"
          (project_main "__main__" w).2 = Some c' ∧
        ids_wf c' ∧
        coll_count c' + answers (stdout w) =
          coll_count (default coll_empty
            (lookup_collection "vector_store" "conversation_history" w)) +
          answers (stdout (project_main "__main__" w).2).
Proof.
  intros Hok Hwf. rewrite project_main_world by done.
  apply (main_answers llm tavily (loaded w)), Hwf.
Qed.

End program.
