(* ===== verification/Recall.v ===== *)
(** * Recall: the memory of the agent, written and read

    - [sequence]: for every collection that keeps the laws of
      [Chroma.Collection], a sequence of saves that return adds one record
      for each turn under consecutive ids ([save_all_records]).
    - [recall]: on the reference store [ListStore], whose [query] ranks by
      a distance that separates different strings, the two methods that
      write and read the memory are composed: what a sequence of saves
      stores, [search_memory] finds ([save_then_search]). *)

From stdpp Require Import base tactics option list numbers strings gmap.
From S2P Require Import Prelude PyStr VectorStore AgentRuntime Session Memory.
From S2P Require Import Chat.

Import Chroma Lang Graph.

(** ** A sequence of saves *)

Section sequence.
Context `{Collection C}.

Implicit Types (w : @World C) (self : ConversationalAgent).

(** [save_to_memory] for each turn of a list, in order, as a session of
    turns that return does. *)
Fixpoint save_all self (turns : list (string * string)) : SE (@World C) unit :=
  match turns with
  | [] => mret tt
  | (h, a) :: rest => save_to_memory self h a;; save_all self rest
  end.

(** The records [n] saves add to a collection of [k] records. *)
Definition saved_records (k : nat) (turns : list (string * string)) :
    list (string * string) :=
  zip (conv_id <$> seq (k + 1) (length turns))
      ((λ t, turn_document t.1 t.2) <$> turns).

Lemma saved_records_cons k h a turns :
  saved_records k ((h, a) :: turns) =
  (conv_id (k + 1), turn_document h a) :: saved_records (k + 1) turns.
Proof.
  unfold saved_records. replace (k + 1 + 1) with (S (k + 1)) by lia. reflexivity.
Qed.

Lemma saved_records_ids k turns :
  (saved_records k turns).*1 = conv_id <$> seq (k + 1) (length turns).
Proof. apply fst_zip. by rewrite !length_fmap, length_seq. Qed.

Lemma saved_records_docs k turns :
  (saved_records k turns).*2 = (λ t, turn_document t.1 t.2) <$> turns.
Proof. apply snd_zip. by rewrite !length_fmap, length_seq. Qed.

(** A sequence of saves that all return appends the records of its turns
    and keeps the ids well formed. *)
Lemma save_all_Ok_wf self turns w w' c :
  lookup_collection (chroma_client self) (collection self) w = Some c →
  ids_wf c →
  save_all self turns w = (Ok tt, w') →
  ∃ c', lookup_collection (chroma_client self) (collection self) w' = Some c' ∧
        coll_records c' = coll_records c ++ saved_records (coll_count c) turns ∧
        ids_wf c'.
Proof.
  revert w c. induction turns as [|[h a] turns IH]; intros w c Hl Hwf.
  - intros [= <-]. exists c. by rewrite app_nil_r.
  - cbn [save_all]. rewrite run_bind.
    destruct (save_to_memory self h a w) as [[[]|e] w1] eqn:Hs; [|discriminate].
    destruct (save_to_memory_Ok_wf self h a w w1 c Hl Hwf Hs) as (c1 & -> & Hr & Hwf1).
    intros Hrest.
    destruct (IH _ c1 (lookup_store_collection _ _ _ _) Hwf1 Hrest)
      as (c' & Hl' & Hr' & Hwf').
    exists c'. split; [done|]. split; [|done].
    rewrite Hr', Hr, saved_records_cons, <- app_assoc. cbn [app].
    do 3 f_equal. unfold coll_count. rewrite Hr, length_app. cbn. lia.
Qed.

(** C40. A sequence of [n] saves that all return, on a collection with the
    ids [conv_1 .. conv_k], leaves the ids [conv_1 .. conv_(k+n)] and has
    added the documents of the turns, in order: from an empty collection
    the ids are exactly [conv_1 .. conv_n], in insertion order. *)
Theorem save_all_records self turns w w' c :
  lookup_collection (chroma_client self) (collection self) w = Some c →
  ids_wf c →
  save_all self turns w = (Ok tt, w') →
  ∃ c', lookup_collection (chroma_client self) (collection self) w' = Some c' ∧
        coll_ids c' = conv_id <$> seq 1 (coll_count c + length turns) ∧
        coll_docs c' = coll_docs c ++ ((λ t, turn_document t.1 t.2) <$> turns).
Proof.
  intros Hl Hwf Hs.
  destruct (save_all_Ok_wf self turns w w' c Hl Hwf Hs) as (c' & Hl' & Hr & Hwf').
  exists c'. split; [done|]. unfold coll_docs. rewrite Hwf', Hr, fmap_app.
  rewrite saved_records_docs. split; [|done]. unfold coll_count.
  by rewrite Hr, length_app, <- (length_fmap fst (saved_records _ _)),
    saved_records_ids, length_fmap, length_seq.
Qed.

(** Every turn of a sequence of saves that all return is in the
    collection afterwards, under some id. *)
Lemma save_all_stored self turns h a w w' c :
  lookup_collection (chroma_client self) (collection self) w = Some c →
  ids_wf c →
  save_all self turns w = (Ok tt, w') →
  (h, a) ∈ turns →
  ∃ c' i, lookup_collection (chroma_client self) (collection self) w' = Some c' ∧
          (i, turn_document h a) ∈ coll_records c'.
Proof.
  intros Hl Hwf Hs Hin.
  destruct (save_all_Ok_wf self turns w w' c Hl Hwf Hs) as (c' & Hl' & Hr & _).
  assert (turn_document h a ∈ (saved_records (coll_count c) turns).*2) as Hd.
  { rewrite saved_records_docs. by apply (list_elem_of_fmap_2' _ _ (h, a)). }
  apply list_elem_of_fmap in Hd as ([i d] & Heq & Hd). cbn in Heq. subst d.
  exists c', i. split; [done|]. rewrite Hr. apply elem_of_app. by right.
Qed.

End sequence.

Section recall.
Context (dist : string → string → nat) (cap : nat).
Hypothesis dist_zero : ∀ q x, dist q x = 0 ↔ q = x.

#[local] Instance recall_store : Collection ListStore.t :=
  ListStore.collection dist cap.

Implicit Types (w : @World ListStore.t) (self : ConversationalAgent).
Implicit Types (c : ListStore.t).

(** A query of the reference store for a stored document has a first row,
    and the document leads it. *)
Lemma query_stored_first i d c :
  (i, d) ∈ coll_records c →
  ∃ r row, coll_query [d] 2 c = Ok r ∧ has_documents r = true ∧
           first_row r = d :: row.
Proof.
  intros Hin.
  destruct (ListStore.query_finds_stored dist i d 2 c dist_zero Hin) as [row Hq];
    [lia|].
  by exists {| qr_ids := [(ListStore.top dist 2 d c).*1];
              qr_documents := Some [d :: row] |}, row.
Qed.

(** C25. Save, then search: after the turns of a session were saved in a
    well-formed collection, [search_memory] asked for the document of any
    of them answers with it on the first line after the header. *)
Theorem save_then_search self turns h a w w' c :
  lookup_collection (chroma_client self) (collection self) w = Some c →
  ids_wf c →
  save_all self turns w = (Ok tt, w') →
  (h, a) ∈ turns →
  ∃ row, search_memory self (turn_document h a) w' =
         (Ok (related_header +:+ Text.join nl (turn_document h a :: row)), w').
Proof.
  intros Hl Hwf Hs Hin.
  destruct (save_all_stored self turns h a w w' c Hl Hwf Hs Hin) as (c' & i & Hl' & Hi).
  destruct (query_stored_first i (turn_document h a) c' Hi)
    as (r & row & Hq & Hdocs & Hrow).
  exists row. rewrite (search_memory_run self _ _ c' Hl'), Hq. cbn.
  by rewrite Hdocs, Hrow.
Qed.

(** The reference store raises nothing but [Exception]s. *)
Lemma store_raises_Exception_ListStore : store_raises_Exception (C:=ListStore.t).
Proof.
  split; [done|]. intros docs ids c e. cbn. unfold ListStore.add.
  repeat case_bool_decide; by intros [= <-].
Qed.

End recall.
