(* ===== verification/Embedding.v ===== *)
(** * Embedding: the similarity of the store, as a distance between vectors

    A Chroma collection ranks its documents by the distance between their
    embeddings and the embedding of the query text.  [ListStore] takes the
    distance between two texts as a parameter; this file gives the
    parameter the form it has in the index, and says what [search_memory]
    finds then.

    - [l2]: the squared Euclidean distance of two vectors with integer
      coordinates, the default metric of a collection;
    - [embed_dist]: the distance of two texts under an embedding, which is
      zero exactly when the two texts have the same embedding
      ([embed_dist_zero]);
    - [search_finds_embedding]: a turn that was saved is found again up to
      the embedding: the first document [search_memory] returns for the
      document of the turn has the same embedding;
    - [codes]: an embedding that reads the first [n] characters of a text
      and no more, as an embedding with a bounded input does; two texts
      that agree on these characters are at distance zero
      ([codes_prefix]). *)

From stdpp Require Import base tactics option list numbers strings gmap.
From S2P Require Import Prelude PyStr VectorStore AgentRuntime Session Memory.
From S2P Require Import Recall.

Import Chroma.

#[local] Open Scope Z_scope.

(** The squared Euclidean distance, coordinate by coordinate. *)
Fixpoint l2 (u v : list Z) : Z :=
  match u, v with
  | x :: u', y :: v' => (x - y) * (x - y) + l2 u' v'
  | _, _ => 0
  end.

(** The codes of the first [n] characters of a text, and [-1] where the
    text has ended. *)
Fixpoint codes (n : nat) (s : string) : list Z :=
  match n with
  | O => []
  | S n' =>
      match s with
      | EmptyString => -1 :: codes n' EmptyString
      | String a s' => Z.of_nat (Ascii.nat_of_ascii a) :: codes n' s'
      end
  end.

(** The first [n] characters of a text. *)
Fixpoint prefix (n : nat) (s : string) : string :=
  match n, s with
  | S n', String a s' => String a (prefix n' s')
  | _, _ => EmptyString
  end.

Lemma l2_nonneg u v : 0 ≤ l2 u v.
Proof.
  revert v. induction u as [|x u IH]; intros [|y v]; cbn [l2]; try lia.
  pose proof (Z.square_nonneg (x - y)). specialize (IH v). lia.
Qed.

Lemma l2_sym u v : l2 u v = l2 v u.
Proof.
  revert v. induction u as [|x u IH]; intros [|y v]; cbn [l2]; try lia.
  rewrite (IH v). lia.
Qed.

Lemma l2_refl u : l2 u u = 0.
Proof. induction u as [|x u IH]; cbn [l2]; lia. Qed.

(** Two vectors of one dimension at distance zero are equal. *)
Lemma l2_zero u v : length u = length v → l2 u v = 0 → u = v.
Proof.
  revert v. induction u as [|x u IH]; intros [|y v]; cbn [l2 length]; try done.
  intros [= Hlen] Hz. pose proof (l2_nonneg u v).
  pose proof (Z.square_nonneg (x - y)).
  assert (x = y) as -> by nia. f_equal. apply IH; [done | lia].
Qed.

Lemma codes_length n s : length (codes n s) = n.
Proof. revert s. induction n as [|n IH]; intros [|a s]; cbn; by rewrite ?IH. Qed.

(** [codes] reads the first [n] characters and nothing else. *)
Lemma codes_prefix n s t : prefix n s = prefix n t → codes n s = codes n t.
Proof.
  revert s t. induction n as [|n IH]; intros [|a s] [|b t]; cbn; try done.
  intros [= -> Hp]. by rewrite (IH s t).
Qed.

#[local] Close Scope Z_scope.

Section embedding.
(** The embedding function of the collection and its dimension. *)
Context (embed : string → list Z) (dim : nat).
Hypothesis embed_dim : ∀ s, length (embed s) = dim.
Context (cap : nat).

(** The distance of a document to a query text. *)
Definition embed_dist (q d : string) : nat := Z.to_nat (l2 (embed q) (embed d)).

#[local] Instance embedded_store : Collection ListStore.t :=
  ListStore.collection embed_dist cap.

Implicit Types (w : @World ListStore.t) (self : ConversationalAgent).

Lemma embed_dist_zero q d : embed_dist q d = 0 ↔ embed q = embed d.
Proof.
  unfold embed_dist. pose proof (l2_nonneg (embed q) (embed d)). split.
  - intros Hz. apply l2_zero; [by rewrite !embed_dim | lia].
  - intros ->. by rewrite l2_refl.
Qed.

Lemma embed_dist_sym q d : embed_dist q d = embed_dist d q.
Proof. unfold embed_dist. by rewrite l2_sym. Qed.

(** An embedding that tells all texts apart gives a distance that
    separates them, the condition of [Recall.save_then_search]. *)
Lemma embed_dist_separates :
  Inj (=) (=) embed → ∀ q x, embed_dist q x = 0 ↔ q = x.
Proof.
  intros Hinj q x. rewrite embed_dist_zero. split; [apply Hinj | by intros ->].
Qed.

(** A query for a stored document has a first row, led by a document with
    the embedding of the query. *)
Lemma query_embedded_first i d (c : ListStore.t) :
  (i, d) ∈ coll_records c →
  ∃ r d0 row, coll_query [d] 2 c = Ok r ∧ has_documents r = true ∧
              first_row r = d0 :: row ∧ embed d0 = embed d.
Proof.
  intros Hin.
  destruct (ListStore.query_first_closest embed_dist d 2 c (i, d) Hin)
    as (d0 & row & Hq & Hc); [lia|].
  cbn in Hc. rewrite (proj2 (embed_dist_zero d d) eq_refl) in Hc.
  exists {| qr_ids := [(ListStore.top embed_dist 2 d c).*1];
            qr_documents := Some [d0 :: row] |}, d0, row.
  split_and!; [done..|]. symmetry. apply embed_dist_zero. lia.
Qed.

(** C26. Save, then search, whatever the embedding: after the turns of a
    session were saved in a well-formed collection, the first document
    [search_memory] returns for the document of any of them has the
    embedding of that document.  It is the document itself when the
    embedding tells the stored documents apart, and may be another when
    it does not. *)
Theorem search_finds_embedding self turns h a w w' c :
  lookup_collection (chroma_client self) (collection self) w = Some c →
  ids_wf c →
  save_all self turns w = (Ok tt, w') →
  (h, a) ∈ turns →
  ∃ d0 row,
    search_memory self (turn_document h a) w' =
      (Ok (related_header +:+ Text.join nl (d0 :: row)), w') ∧
    embed_dist (turn_document h a) d0 = 0.
Proof.
  intros Hl Hwf Hs Hin.
  destruct (save_all_stored self turns h a w w' c Hl Hwf Hs Hin) as (c' & i & Hl' & Hi).
  destruct (query_embedded_first i (turn_document h a) c' Hi)
    as (r & d0 & row & Hq & Hdocs & Hrow & He).
  exists d0, row. split; [|by apply embed_dist_zero].
  rewrite (search_memory_run self _ _ c' Hl'), Hq. cbn. by rewrite Hdocs, Hrow.
Qed.

End embedding.
