(* ===== verification/Concurrent.v ===== *)
(** * Concurrent: several writers of one store

    [save_to_memory] (lines 75-80 of [project_main.py]) makes two calls to
    the collection: [get()], to count the records for the id of the new
    one, and then [add(...)].  One process runs them back to back.  When
    two sessions share the persistent directory, the calls of one come
    between the calls of the other.

    - [writer], [writer_step]: a call of [save_to_memory] under way, and its
      next call to the collection;
    - [run_schedule]: the writers of a store, stepped in the order a
      schedule names them;
    - a writer that is not interrupted is [save_to_memory]
      ([writer_run_save]), and the schedule that serves the writers one
      after the other is the sequence of their saves ([serial_writers]);
    - under every schedule the ids stay [conv_1 .. conv_n] and no record is
      removed or changed ([run_schedule_wf]);
    - when both writers count before either adds, both compute the same id,
      the second [add] is skipped, and both return: one turn is lost
      without an error ([racing_writers]). *)

From stdpp Require Import base tactics option list numbers strings gmap.
From S2P Require Import Prelude VectorStore AgentRuntime Session Memory Recall.

Import Chroma Lang Graph.

(** A call of [save_to_memory] under way: before [get()], between [get()]
    and [add(...)] with the arguments of the [add], and after. *)
Inductive writer : Type :=
| Saving (human_msg ai_response : string)
| Adding (documents ids : list string)
| Returned
| Raised (e : exn).

#[global] Instance writer_eq_dec : EqDecision writer.
Proof. solve_decision. Defined.

Section concurrent.
Context `{Collection C}.

Local Abbreviation World := (@World C).

Implicit Types (w : World) (self : ConversationalAgent) (c : C) (p : writer).

(** The next call of a writer to the collection. *)
Definition writer_step self p w : writer * World :=
  match p with
  | Saving human_msg ai_response =>
      let documents := [turn_document human_msg ai_response] in
      match collection_get self w with
      | (Ok got, w') =>
          (Adding documents [conv_id (length (gr_ids got) + 1)], w')
      | (Err e, w') => (Raised e, w')
      end
  | Adding documents ids =>
      match collection_add self documents ids w with
      | (Ok _, w') => (Returned, w')
      | (Err e, w') => (Raised e, w')
      end
  | Returned | Raised _ => (p, w)
  end.

(** A writer that is not interrupted: both calls. *)
Definition writer_run self p w : writer * World :=
  let '(p1, w1) := writer_step self p w in writer_step self p1 w1.

(** The writers [ps] of a store, stepped in the order of [schedule]: each
    entry names the writer that makes its next call. *)
Fixpoint run_schedule self (schedule : list nat) (ps : list writer) w :
    list writer * World :=
  match schedule with
  | [] => (ps, w)
  | i :: rest =>
      match ps !! i with
      | Some p =>
          let '(p', w') := writer_step self p w in
          run_schedule self rest (<[i := p']> ps) w'
      | None => run_schedule self rest ps w
      end
  end.

(** The id a writer is about to add is one of [conv_1 .. conv_(n+1)], for
    a collection of [n] records. *)
Definition id_given (n : nat) p : Prop :=
  match p with
  | Adding documents ids =>
      ∃ (d : string) k, documents = [d] ∧ ids = [conv_id k] ∧ 1 ≤ k ≤ n + 1
  | _ => True
  end.

(** ** One writer *)

Lemma writer_step_get self h a w c :
  lookup_collection (chroma_client self) (collection self) w = Some c →
  writer_step self (Saving h a) w =
  (match coll_get c with
   | Ok got => Adding [turn_document h a] [conv_id (coll_count c + 1)]
   | Err e => Raised e
   end, w).
Proof.
  intros Hl. cbn. rewrite (collection_get_run _ _ c Hl).
  destruct (coll_get c) as [got|e] eqn:Hg; [|done].
  apply coll_get_ids in Hg. rewrite Hg. unfold coll_ids, coll_count.
  by rewrite length_fmap.
Qed.

Lemma writer_step_add self docs ids w c :
  lookup_collection (chroma_client self) (collection self) w = Some c →
  writer_step self (Adding docs ids) w =
  match coll_add docs ids c with
  | Ok c' => (Returned, store_collection (chroma_client self) (collection self) c' w)
  | Err e => (Raised e, w)
  end.
Proof.
  intros Hl. cbn. rewrite (collection_add_run _ _ _ _ c Hl).
  by destruct (coll_add docs ids c).
Qed.

(** A writer that makes its two calls without another in between is
    [save_to_memory]: same outcome, same store. *)
Lemma writer_run_save self h a w :
  writer_run self (Saving h a) w =
  (match (save_to_memory self h a w).1 with
   | Ok _ => Returned
   | Err e => Raised e
   end, (save_to_memory self h a w).2).
Proof.
  unfold writer_run, save_to_memory. cbn [writer_step]. rewrite run_bind.
  destruct (collection_get self w) as [[got|e] w1]; [|done].
  cbn [writer_step]. by destruct (collection_add _ _ _ w1) as [[[]|e] w2].
Qed.

(** ** Every schedule *)

Lemma id_given_mono n m p : n ≤ m → id_given n p → id_given m p.
Proof.
  intros Hnm. destruct p; cbn; [done| |done..].
  intros (d & k & ? & ? & ?). exists d, k. repeat split; try done; lia.
Qed.

(** A call keeps the ids well formed and the records in place, and leaves
    the writer with an id that was given or is the next. *)
Lemma writer_step_wf self p w c :
  lookup_collection (chroma_client self) (collection self) w = Some c →
  ids_wf c → id_given (coll_count c) p →
  ∃ c', lookup_collection (chroma_client self) (collection self)
          (writer_step self p w).2 = Some c' ∧
        ids_wf c' ∧ coll_records c `prefix_of` coll_records c' ∧
        id_given (coll_count c') (writer_step self p w).1.
Proof.
  intros Hl Hwf Hp.
  assert (∀ p', id_given (coll_count c) p' →
    ∃ c', lookup_collection (chroma_client self) (collection self) w = Some c' ∧
          ids_wf c' ∧ coll_records c `prefix_of` coll_records c' ∧
          id_given (coll_count c') p') as Hsame by (by exists c).
  destruct p as [h a|docs ids| |e]; [| |by apply Hsame..].
  - rewrite (writer_step_get _ _ _ _ c Hl). apply Hsame.
    destruct (coll_get c); [|done].
    exists (turn_document h a), (coll_count c + 1). repeat split; lia.
  - destruct Hp as (d & k & -> & -> & Hk). rewrite (writer_step_add _ _ _ _ c Hl).
    destruct (coll_add [d] [conv_id k] c) as [c'|e] eqn:Ha; [|by apply Hsame].
    exists c'. cbn [fst snd]. rewrite lookup_store_collection. split; [done|].
    destruct (decide (k = coll_count c + 1)) as [->|Hne].
    + apply coll_add_next in Ha as [Hr Hwf']; [|done].
      split; [done|]. split; [rewrite Hr; by eexists | done].
    + apply coll_add_stale in Ha as [Hr Hwf']; [|done|lia].
      split; [done|]. split; [by rewrite Hr | done].
Qed.

(** C20. Under every schedule, and for any number of writers, the ids of
    the collection stay [conv_1 .. conv_n] and the records that were
    stored stay where they are: writers that interleave lose turns, they do
    not damage the store.  A writer that has counted and not yet added
    holds an id among [conv_1 .. conv_(n+1)] ([id_given]); this holds of
    writers that have not started, and it holds again after the schedule. *)
Theorem run_schedule_wf self schedule ps w c :
  lookup_collection (chroma_client self) (collection self) w = Some c →
  ids_wf c → Forall (id_given (coll_count c)) ps →
  ∃ c', lookup_collection (chroma_client self) (collection self)
          (run_schedule self schedule ps w).2 = Some c' ∧
        ids_wf c' ∧ coll_records c `prefix_of` coll_records c' ∧
        Forall (id_given (coll_count c')) (run_schedule self schedule ps w).1.
Proof.
  revert ps w c. induction schedule as [|i rest IH]; intros ps w c Hl Hwf Hps;
    cbn [run_schedule]; [by exists c|].
  destruct (ps !! i) as [p|] eqn:Hi; [|by apply IH].
  destruct (writer_step_wf self p w c Hl Hwf) as (c1 & Hl1 & Hwf1 & Hpre & Hp1);
    [by eapply Forall_lookup_1|].
  destruct (writer_step self p w) as [p' w1]. cbn [fst snd] in *.
  destruct (IH (<[i:=p']> ps) w1 c1 Hl1 Hwf1) as (c' & ? & ? & ? & ?).
  { apply Forall_insert; [|done]. eapply Forall_impl; [done|].
    intros q. apply id_given_mono. unfold coll_count. by apply prefix_length. }
  exists c'. repeat split; try done. by etrans.
Qed.

(** ** The serial schedule *)

(** The schedule that serves the writers [k .. k+n-1] one after the other,
    each for its two calls. *)
Definition serial (k n : nat) : list nat := i ← seq k n; [i; i].

(** Two entries in a row for one writer run it without interruption. *)
Lemma run_schedule_twice self i rest ps w p :
  ps !! i = Some p →
  run_schedule self (i :: i :: rest) ps w =
  run_schedule self rest (<[i := (writer_run self p w).1]> ps)
    (writer_run self p w).2.
Proof.
  intros Hi. unfold writer_run. cbn [run_schedule]. rewrite Hi.
  destruct (writer_step self p w) as [p1 w1].
  rewrite list_lookup_insert_eq by (by eapply lookup_lt_Some).
  destruct (writer_step self p1 w1) as [p2 w2]. by rewrite list_insert_insert_eq.
Qed.

(** Mutual exclusion is enough: under the serial schedule the writers
    do what the sequence of their saves does.  When the saves return one
    after the other, every writer returns, in the state the last save
    left. *)
Theorem serial_writers self turns finished w w' :
  save_all self turns w = (Ok tt, w') →
  run_schedule self (serial (length finished) (length turns))
    (finished ++ (uncurry Saving <$> turns)) w =
  (finished ++ replicate (length turns) Returned, w').
Proof.
  revert finished w. induction turns as [|[h a] turns IH]; intros finished w.
  { cbn. by intros [= <-]. }
  cbn [save_all]. rewrite run_bind.
  destruct (save_to_memory self h a w) as [[[]|e] w1] eqn:Hs; [|discriminate].
  intros Hrest. cbn [length fmap list_fmap uncurry].
  change (serial (length finished) (S (length turns))) with
    (length finished :: length finished :: serial (S (length finished)) (length turns)).
  rewrite (run_schedule_twice _ _ _ _ _ (Saving h a)) by apply list_lookup_middle, eq_refl.
  rewrite writer_run_save, Hs. cbn [fst snd].
  rewrite <- (Nat.add_0_r (length finished)) at 2. rewrite insert_app_r.
  cbn [list_insert replicate].
  rewrite (cons_middle Returned finished), !(assoc_L (++)).
  rewrite <- (IH (finished ++ [Returned]) w1 Hrest), length_app. cbn [length].
  by rewrite Nat.add_1_r, <- (assoc_L (++)).
Qed.

(** ** The race *)

(** Without it a turn is lost.  When both writers count before either
    adds, both compute the id [conv_(n+1)]: the first [add] stores its turn,
    the second is skipped because the id is taken, and both writers return.
    The store holds one turn more, and nothing tells the second writer that
    its turn is not there. *)
Theorem racing_writers self h1 a1 h2 a2 w c got c1 c2 :
  lookup_collection (chroma_client self) (collection self) w = Some c →
  ids_wf c → coll_get c = Ok got →
  coll_add [turn_document h1 a1] [conv_id (coll_count c + 1)] c = Ok c1 →
  coll_add [turn_document h2 a2] [conv_id (coll_count c + 1)] c1 = Ok c2 →
  ∃ w', run_schedule self [0; 1; 0; 1] [Saving h1 a1; Saving h2 a2] w =
          ([Returned; Returned], w') ∧
        lookup_collection (chroma_client self) (collection self) w' = Some c2 ∧
        coll_records c2 =
          coll_records c ++ [(conv_id (coll_count c + 1), turn_document h1 a1)].
Proof.
  intros Hl Hwf Hg Ha1 Ha2. cbn [run_schedule lookup list_lookup].
  rewrite (writer_step_get _ _ _ _ c Hl), Hg. cbn [list_insert insert lookup list_lookup].
  rewrite (writer_step_get _ _ _ _ c Hl), Hg. cbn [list_insert insert lookup list_lookup].
  rewrite (writer_step_add _ _ _ _ c Hl), Ha1. cbn [list_insert insert lookup list_lookup].
  rewrite (writer_step_add _ _ _ _ c1) by apply lookup_store_collection.
  rewrite Ha2. eexists. split; [done|]. split; [apply lookup_store_collection|].
  apply coll_add_next in Ha1 as [Hr1 Hwf1]; [|done].
  apply (coll_add_stale c1) in Ha2 as [-> _]; [done..|].
  unfold coll_count. rewrite Hr1, length_app. cbn. lia.
Qed.

End concurrent.
