(* ===== verification/Interleave.v ===== *)
(** * Interleave: every schedule of the writers, through an abstract machine

    [Concurrent] runs the writers of a store under a schedule.  What a
    schedule does to the store depends on little: which documents the
    writers bring, and how many records each had counted when it adds.  The
    abstract machine of this file keeps that and nothing else, the store of
    the program is proved to follow it, and questions about all schedules
    are then settled by running the machine.

    - [awriter], [astep], [arun]: the abstract writers, over the list of
      the documents added since the start;
    - [writer_of]: the writer of [Concurrent] an abstract writer stands
      for, on a collection that had [n] records at the start;
    - [run_schedule_keeps_raised]: a writer that raised stays as it is;
    - [run_schedule_follows], [run_schedule_refines]: under every schedule
      and for any number of writers, when no call of a writer raises, the
      documents of the collection are those the machine computes and the
      writers are where the machine has them;
    - [arun_three_writers]: the machine run on the ninety interleavings of
      three writers;
    - [two_writers_classified]: of the six ways to interleave the calls of
      two writers, the two that serve one writer after the other store both
      turns, and each of the four others stores one. *)

From stdpp Require Import base tactics option list numbers strings gmap.
From S2P Require Import Prelude VectorStore AgentRuntime Session Memory.
From S2P Require Import Concurrent.

Import Chroma Lang Graph.

(** A writer, abstractly: with its turn before [get()]; with its document
    and the number of new records it has seen, between [get()] and
    [add(...)]; done. *)
Inductive awriter : Type :=
| AStart (human_msg ai_response : string)
| ACounted (document : string) (seen : nat)
| ADone.

#[global] Instance awriter_eq_dec : EqDecision awriter.
Proof. solve_decision. Defined.

(** A call of an abstract writer, on the documents added so far: [get()]
    counts them, [add(...)] appends when none was added since the count. *)
Definition astep (p : awriter) (new : list string) : awriter * list string :=
  match p with
  | AStart human_msg ai_response =>
      (ACounted (turn_document human_msg ai_response) (length new), new)
  | ACounted document seen =>
      (ADone, if decide (seen = length new) then new ++ [document] else new)
  | ADone => (ADone, new)
  end.

Fixpoint arun (schedule : list nat) (ps : list awriter) (new : list string) :
    list awriter * list string :=
  match schedule with
  | [] => (ps, new)
  | i :: rest =>
      match ps !! i with
      | Some p => let '(p', new') := astep p new in arun rest (<[i := p']> ps) new'
      | None => arun rest ps new
      end
  end.

(** The writer an abstract writer stands for, when the collection held [n]
    records at the start. *)
Definition writer_of (n : nat) (p : awriter) : writer :=
  match p with
  | AStart human_msg ai_response => Saving human_msg ai_response
  | ACounted document seen => Adding [document] [conv_id (n + seen + 1)]
  | ADone => Returned
  end.

(** A writer has not seen more than there is. *)
Definition counted (new : list string) (p : awriter) : Prop :=
  match p with
  | ACounted _ seen => seen ≤ length new
  | _ => True
  end.

Definition raised (p : writer) : bool :=
  match p with
  | Raised _ => true
  | _ => false
  end.

(** The two schedules that serve one writer after the other. *)
Definition serial2 : list (list nat) := [[0; 0; 1; 1]; [1; 1; 0; 0]].

(** ** The abstract machine *)

Lemma astep_grows p new : length new ≤ length (astep p new).2.
Proof.
  destruct p as [h a|d seen|]; cbn; [done| |done].
  case_decide; [rewrite length_app; cbn; lia | done].
Qed.

Lemma astep_counted p new : counted new p → counted (astep p new).2 (astep p new).1.
Proof. destruct p; cbn; [lia | done..]. Qed.

Lemma counted_mono new new' p :
  length new ≤ length new' → counted new p → counted new' p.
Proof. destruct p; cbn; [done| |done]. lia. Qed.

(** Two writers, every interleaving of their four calls: both are done, and
    two documents were added under the serial schedules, one under the
    others. *)
Lemma arun_two_writers h1 a1 h2 a2 schedule :
  schedule ≡ₚ [0; 0; 1; 1] →
  (arun schedule [AStart h1 a1; AStart h2 a2] []).1 = [ADone; ADone] ∧
  length (arun schedule [AStart h1 a1; AStart h2 a2] []).2 =
    if bool_decide (schedule ∈ serial2) then 2 else 1.
Proof.
  intros Hs%symmetry%permutations_Permutation. vm_compute in Hs.
  repeat (apply elem_of_cons in Hs as [-> | Hs]; [by split|]).
  by apply elem_of_nil in Hs.
Qed.

(** Three writers: under every interleaving of their six calls all are done
    and at least one turn is stored; all three are stored under the six
    schedules that serve the writers one after the other, and under no
    other. *)
Lemma arun_three_writers h1 a1 h2 a2 h3 a3 schedule :
  schedule ≡ₚ [0; 0; 1; 1; 2; 2] →
  (arun schedule [AStart h1 a1; AStart h2 a2; AStart h3 a3] []).1 =
    [ADone; ADone; ADone] ∧
  1 ≤ length (arun schedule [AStart h1 a1; AStart h2 a2; AStart h3 a3] []).2 ≤ 3 ∧
  (length (arun schedule [AStart h1 a1; AStart h2 a2; AStart h3 a3] []).2 = 3 ↔
   schedule ∈ (λ order : list nat, order ≫= λ i, [i; i]) <$> permutations [0; 1; 2]).
Proof.
  intros Hs%symmetry%permutations_Permutation.
  revert schedule Hs. apply Forall_forall.
  apply (bool_decide_unpack _). by vm_compute.
Qed.

Section interleave.
Context `{Collection C}.

Local Abbreviation World := (@World C).

Implicit Types (w : World) (self : ConversationalAgent) (c : C) (p : writer).
Implicit Types (ap : awriter) (new : list string).

(** ** A writer that raised *)

Lemma run_schedule_keeps_raised self schedule ps w i p :
  ps !! i = Some p → raised p = true →
  (run_schedule self schedule ps w).1 !! i = Some p.
Proof.
  revert ps w. induction schedule as [|j rest IH]; intros ps w Hi Hp; [done|].
  cbn [run_schedule]. destruct (ps !! j) as [q|] eqn:Hj; [|by apply IH].
  destruct (writer_step self q w) as [q' w'] eqn:Hq. apply IH; [|done].
  destruct (decide (j = i)) as [->|Hne]; [|by rewrite list_lookup_insert_ne].
  rewrite list_lookup_insert_eq by (by eapply lookup_lt_Some).
  simplify_eq. destruct p; try done. by simplify_eq/=.
Qed.

(** ** The store follows the machine *)

(** The collection of the process, when the documents [new] were added to
    the collection [c0]. *)
Definition follows self c0 new w : Prop :=
  ∃ c, lookup_collection (chroma_client self) (collection self) w = Some c ∧
       ids_wf c ∧ coll_docs c = coll_docs c0 ++ new.

Lemma follows_count self c0 new w c :
  lookup_collection (chroma_client self) (collection self) w = Some c →
  coll_docs c = coll_docs c0 ++ new →
  coll_count c = coll_count c0 + length new.
Proof.
  intros _ Hd. apply (f_equal length) in Hd. rewrite length_app in Hd.
  unfold coll_docs, coll_count in *. by rewrite !length_fmap in Hd.
Qed.

(** One call: it raises, or it is the call of the machine. *)
Lemma writer_step_refines self c0 new ap w :
  follows self c0 new w → counted new ap →
  raised (writer_step self (writer_of (coll_count c0) ap) w).1 = true ∨
  (follows self c0 (astep ap new).2
     (writer_step self (writer_of (coll_count c0) ap) w).2 ∧
   (writer_step self (writer_of (coll_count c0) ap) w).1 =
     writer_of (coll_count c0) (astep ap new).1).
Proof.
  intros (c & Hl & Hwf & Hd) Hap.
  pose proof (follows_count self c0 new w c Hl Hd) as Hn.
  destruct ap as [h a|d seen|]; cbn [writer_of astep fst snd].
  - rewrite (writer_step_get _ _ _ _ c Hl).
    destruct (coll_get c); [right|by left].
    split; [by exists c|]. cbn. by rewrite Hn.
  - rewrite (writer_step_add _ _ _ _ c Hl).
    destruct (coll_add _ _ c) as [c'|e] eqn:Ha; cbn [fst snd]; [right|by left].
    split; [|done]. exists c'. rewrite lookup_store_collection. split; [done|].
    cbn in Hap. case_decide as Hseen.
    + rewrite Hseen, <- Hn in Ha. apply coll_add_next in Ha as [Hr Hwf']; [|done].
      split; [done|]. unfold coll_docs in *. by rewrite Hr, fmap_app, Hd, (assoc_L (++)).
    + apply coll_add_stale in Ha as [Hr Hwf']; [|done|lia].
      split; [done|]. unfold coll_docs in *. by rewrite Hr.
  - right. split; [by exists c|done].
Qed.

(** The simulation, from any state of the machine. *)
Lemma run_schedule_follows self c0 schedule aps new w :
  follows self c0 new w → Forall (counted new) aps →
  Forall (λ p, raised p = false)
    (run_schedule self schedule (writer_of (coll_count c0) <$> aps) w).1 →
  follows self c0 (arun schedule aps new).2
    (run_schedule self schedule (writer_of (coll_count c0) <$> aps) w).2 ∧
  (run_schedule self schedule (writer_of (coll_count c0) <$> aps) w).1 =
    writer_of (coll_count c0) <$> (arun schedule aps new).1.
Proof.
  revert aps new w. induction schedule as [|i rest IH]; intros aps new w Hw Haps;
    cbn [run_schedule arun]; [done|].
  rewrite list_lookup_fmap. destruct (aps !! i) as [ap|] eqn:Hi; cbn [fmap option_fmap option_map];
    [|by apply IH].
  pose proof (Forall_lookup_1 _ _ _ _ Haps Hi) as Hap.
  pose proof (astep_grows ap new) as Hgrow.
  pose proof (astep_counted ap new Hap) as Hap'.
  destruct (writer_step_refines self c0 new ap w Hw Hap) as [Hr | [Hw' Hp']].
  - destruct (writer_step self _ w) as [p' w'] eqn:Hstep. cbn [fst] in Hr.
    intros Hall. exfalso.
    pose proof (run_schedule_keeps_raised self rest
      (<[i := p']> (writer_of (coll_count c0) <$> aps)) w' i p') as Hkeep.
    rewrite list_lookup_insert_eq in Hkeep
      by (rewrite length_fmap; by eapply lookup_lt_Some).
    specialize (Hkeep eq_refl Hr).
    apply (Forall_lookup_1 _ _ _ _ Hall) in Hkeep. congruence.
  - destruct (writer_step self _ w) as [p' w'], (astep ap new) as [ap' new'].
    cbn [fst snd] in *. subst p'. rewrite <- list_fmap_insert. apply IH; [done|].
    apply Forall_insert; [|done].
    eapply Forall_impl; [exact Haps|]. intros q. by apply counted_mono.
Qed.

(** C21. The store follows the machine.  Under every schedule and for any
    number of writers that start on a collection with ids
    [conv_1 .. conv_n], when no writer is left with an exception, the
    collection holds the documents it held followed by those the abstract
    machine computes for the schedule, and every writer is where the
    machine has it. *)
Theorem run_schedule_refines self schedule aps w c :
  lookup_collection (chroma_client self) (collection self) w = Some c →
  ids_wf c → Forall (counted []) aps →
  Forall (λ p, raised p = false)
    (run_schedule self schedule (writer_of (coll_count c) <$> aps) w).1 →
  ∃ c', lookup_collection (chroma_client self) (collection self)
          (run_schedule self schedule (writer_of (coll_count c) <$> aps) w).2 =
          Some c' ∧
        ids_wf c' ∧
        coll_docs c' = coll_docs c ++ (arun schedule aps []).2 ∧
        (run_schedule self schedule (writer_of (coll_count c) <$> aps) w).1 =
          writer_of (coll_count c) <$> (arun schedule aps []).1.
Proof.
  intros Hl Hwf Haps Hall.
  destruct (run_schedule_follows self c schedule aps [] w)
    as [(c' & Hl' & Hwf' & Hd) Hps]; [|done..|by exists c'].
  exists c. by rewrite app_nil_r.
Qed.

(** C19. Two writers, every interleaving.  Whatever the order of the four
    calls of two writers, when neither raises both return; the collection
    has two records more when the schedule serves one writer after the
    other, and one record more under each of the four other schedules: a
    turn is lost exactly when the calls interleave. *)
Theorem two_writers_classified self h1 a1 h2 a2 schedule w c :
  lookup_collection (chroma_client self) (collection self) w = Some c →
  ids_wf c →
  schedule ≡ₚ [0; 0; 1; 1] →
  Forall (λ p, raised p = false)
    (run_schedule self schedule [Saving h1 a1; Saving h2 a2] w).1 →
  ∃ c', lookup_collection (chroma_client self) (collection self)
          (run_schedule self schedule [Saving h1 a1; Saving h2 a2] w).2 = Some c' ∧
        (run_schedule self schedule [Saving h1 a1; Saving h2 a2] w).1 =
          [Returned; Returned] ∧
        coll_docs c `prefix_of` coll_docs c' ∧
        coll_count c' =
          coll_count c + (if bool_decide (schedule ∈ serial2) then 2 else 1).
Proof.
  intros Hl Hwf Hs Hall.
  destruct (run_schedule_follows self c schedule [AStart h1 a1; AStart h2 a2] [] w)
    as [(c' & Hl' & Hwf' & Hd) Hps]; [|by repeat constructor|done|].
  { exists c. by rewrite app_nil_r. }
  destruct (arun_two_writers h1 a1 h2 a2 schedule Hs) as [Hdone Hlen].
  cbn [fmap list_fmap writer_of] in Hl', Hps. exists c'. rewrite Hps, Hdone. split_and!; [done..|by eexists|].
  rewrite (follows_count self c _ _ c' Hl' Hd). by rewrite Hlen.
Qed.

End interleave.
