(* ===== verification/Examples.v ===== *)
(** * Examples: a concrete process, and the theorems applied to it

    [Demo] fixes what the theorems of [Chat] and [Cli] leave open: the
    store is the reference collection [ListStore] with the distance
    [str_dist], the model is a script chosen by the user's message, the
    search provider echoes the query.  Every definition here evaluates, and
    each lemma applies one theorem of the development to a state of this
    process, its hypotheses discharged by evaluation. *)

From Stdlib Require Import Ascii.
From Stdlib.Strings Require Import Byte.
From stdpp Require Import base tactics option list numbers strings gmap relations.
From S2P Require Import Prelude PyStr VectorStore AgentRuntime Session Memory.
From S2P Require Import Chat Startup Turn Cli Recall Program.

Import Chroma Lang Graph.

Module Demo.

(** The reference store with the distance [str_dist] and room for a hundred
    records. *)
Definition store : Collection ListStore.t :=
  ListStore.collection ListStore.str_dist 100.

#[export] Existing Instance store.

Definition self : ConversationalAgent := the_agent.

(** A run that looks the memory up, then answers in two fragments. *)
Definition hello : script :=
  CallTool "memory_search" "hi" (λ _,
    Yield (Msg (AIMessage (CStr "Hello, ") []))
      (Yield (Msg (AIMessage (CStr "world!") [])) Finish)).

(** A run as the runtime streams it: the update of the node [agent]. *)
Definition update : script :=
  Yield (Update "agent" [AIMessage (CStr "Hello!") []]) Finish.

(** The last message of a thread, when the user wrote it. *)
Definition last_human (msgs : list message) : string :=
  match last msgs with
  | Some (HumanMessage (CStr s)) => s
  | _ => ""
  end.

(** A model that does what the user names: fail after a fragment, be
    interrupted, answer in content blocks, answer as a node update, and
    else greet. *)
Definition llm (msgs : list message) : script :=
  let m := last_human msgs in
  if decide (m = "boom") then
    Yield (Msg (AIMessage (CStr "Let me") []))
      (Raise (Exn (OtherError "APIError") "overloaded"))
  else if decide (m = "stop") then Raise (Exn KeyboardInterrupt "")
  else if decide (m = "blocks") then
    Yield (Msg (AIMessage (CList ["Hello"]) [])) Finish
  else if decide (m = "update") then update
  else hello.

(** A model that greets, whatever it is told. *)
Definition greeter (msgs : list message) : script := hello.

Definition tavily : nat → string → result string := λ _ q, Ok ("about " +:+ q).

(** A collection that holds the documents of turns the program saved. *)
Definition saved (docs : list string) : ListStore.t := {|
  ListStore.capacity := 100;
  ListStore.records := zip (conv_id <$> seq 1 (length docs)) docs
|}.

(** A collection another program wrote to: the id [conv_2] is taken by its
    only record. *)
Definition foreign : ListStore.t := {|
  ListStore.capacity := 100;
  ListStore.records := [("conv_2", "a note")]
|}.

(** A collection with room for one record, which it holds. *)
Definition full : ListStore.t := {|
  ListStore.capacity := 1;
  ListStore.records := [("conv_1", "first")]
|}.

(** A process whose collection is [c], with the lines [lines] to read and
    both credentials when [keys] is set. *)
Definition process (c : ListStore.t) (lines : list string) (keys : bool) :
    World := {|
  disk := {[ "vector_store" := {[ "conversation_history" := c ]} ]};
  checkpoints := ∅;
  stdout := [];
  stdin := lines;
  entropy := λ n, default Byte.x00 (Byte.of_nat (17 * n + 3));
  entropy_pos := 0;
  environ := if keys then {[ "ANTHROPIC_API_KEY" := "sk-ant"; "TAVILY_API_KEY" := "tvly" ]}
             else ∅;
  dotenv := ∅;
  modules := requirements
|}.

(** A process between two turns, whose collection holds the given
    documents. *)
Definition world (docs : list string) : World := process (saved docs) [] true.

Definition w0 : World := world ["first"].

(** ** Turns *)

(** The greeting, on a store that holds one turn. *)
Lemma chat_returns_witness :
  (chat_run llm tavily self "hi" "t1" w0).2 = None ∧
  "Hello, world!" = ai_texts (chat_run llm tavily self "hi" "t1" w0).1 ∧
  stdout (chat llm tavily self "hi" "t1" w0).2 =
    stdout w0 ++ (PrintChunk <$> (chat_run llm tavily self "hi" "t1" w0).1) ∧
  ∃ c', lookup_collection (chroma_client self) (collection self)
          (chat llm tavily self "hi" "t1" w0).2 = Some c' ∧
        coll_records c' =
          coll_records (saved ["first"]) ++
          [(conv_id (coll_count (saved ["first"]) + 1),
            turn_document "hi" "Hello, world!")] ∧
        ids_wf c'.
Proof.
  apply (chat_returns llm tavily self "hi" "t1" w0 "Hello, world!" _
           (saved ["first"])); by_compute.
Defined.

Lemma save_to_memory_appends_witness :
  ∃ c', lookup_collection (chroma_client self) (collection self)
          (save_to_memory self "hi" "Hello" w0).2 = Some c' ∧
        coll_records c' =
          coll_records (saved ["first"]) ++
          [(conv_id (coll_count (saved ["first"]) + 1), turn_document "hi" "Hello")] ∧
        ids_wf c'.
Proof.
  apply (save_to_memory_appends self "hi" "Hello" w0 _ (saved ["first"]));
    by_compute.
Defined.

(** The model fails after a fragment: nothing is written. *)
Lemma chat_error_no_write_witness :
  disk (chat llm tavily self "boom" "t1" w0).2 = disk w0 ∧
  stdin (chat llm tavily self "boom" "t1" w0).2 = stdin w0 ∧
  entropy (chat llm tavily self "boom" "t1" w0).2 = entropy w0 ∧
  entropy_pos (chat llm tavily self "boom" "t1" w0).2 = entropy_pos w0 ∧
  environ (chat llm tavily self "boom" "t1" w0).2 = environ w0.
Proof.
  apply (chat_error_no_write llm tavily self "boom" "t1" w0
           (Exn (OtherError "APIError") "overloaded")); by_compute.
Defined.

Lemma chat_agent_error_witness :
  (chat llm tavily self "boom" "t1" w0).1 = Err (Exn (OtherError "APIError") "overloaded") ∧
  stdout (chat llm tavily self "boom" "t1" w0).2 =
    stdout w0 ++ (PrintChunk <$> (chat_run llm tavily self "boom" "t1" w0).1).
Proof.
  apply (chat_agent_error llm tavily self "boom" "t1" w0); [by_compute|].
  vm_compute. by repeat constructor.
Defined.

(** The runtime streams node updates: the answer is empty. *)
Lemma chat_no_AIMessage_witness :
  (chat llm tavily self "update" "t1" w0).1 = Ok "" ∨
  ∃ e, (chat llm tavily self "update" "t1" w0).1 = Err e.
Proof.
  apply (chat_no_AIMessage llm tavily self "update" "t1" w0).
  vm_compute. by repeat constructor.
Defined.

(** The store is full: the answer that was assembled is lost. *)
Lemma chat_save_failure_witness :
  (chat llm tavily self "hi" "t1" (process full [] true)).1 =
  Err (Exn (OtherError "StorageWriteError") "the collection is full").
Proof.
  apply (chat_save_failure llm tavily self "hi" "t1" (process full [] true) full
           {| gr_ids := ["conv_1"]; gr_documents := ["first"] |});
    try by_compute.
  vm_compute. by repeat constructor.
Defined.

(** The id of the next turn is taken: the save returns and stores nothing. *)
Lemma save_to_memory_collision_witness :
  ∃ c', lookup_collection (chroma_client self) (collection self)
          (save_to_memory self "hi" "Hello" (process foreign [] true)).2 = Some c' ∧
        coll_records c' = coll_records foreign.
Proof.
  apply (save_to_memory_collision self "hi" "Hello" (process foreign [] true) _
           foreign); [by_compute| |by_compute].
  apply (bool_decide_unpack _). by_compute.
Defined.

Lemma chat_thread_isolation_witness :
  checkpoints (chat llm tavily self "hi" "t1" w0).2 !! "t2" = checkpoints w0 !! "t2".
Proof. by apply (chat_thread_isolation llm tavily self "hi" "t1" "t2" w0). Defined.

Lemma chat_other_collections_witness :
  lookup_collection "vector_store" "notes" (chat llm tavily self "hi" "t1" w0).2 =
  lookup_collection "vector_store" "notes" w0.
Proof.
  by apply (chat_other_collections llm tavily self "hi" "t1" w0 "vector_store" "notes").
Defined.

Lemma chat_preserves_wf_witness :
  world_wf self (chat llm tavily self "blocks" "t1" w0).2.
Proof.
  apply (chat_preserves_wf llm tavily self "blocks" "t1" w0).
  exists (saved ["first"]). by_compute.
Defined.

Lemma chat_count_witness :
  ∃ c', lookup_collection (chroma_client self) (collection self)
          (chat llm tavily self "hi" "t1" w0).2 = Some c' ∧
        coll_count c' =
          coll_count (saved ["first"]) +
          (if is_Ok (chat llm tavily self "hi" "t1" w0).1 then 1 else 0).
Proof.
  apply (chat_count llm tavily self "hi" "t1" w0 (saved ["first"])); by_compute.
Defined.

(** ** The state machine of a turn *)

Lemma chat_refines_turn_witness :
  rtc (step llm tavily self "hi" "t1") (Start w0)
    (outcome (chat llm tavily self "hi" "t1" w0)) ↔
  outcome (chat llm tavily self "hi" "t1" w0) =
  outcome (chat llm tavily self "hi" "t1" w0).
Proof.
  by apply (chat_refines_turn llm tavily self "hi" "t1" w0
              (outcome (chat llm tavily self "hi" "t1" w0))).
Defined.

Lemma step_phase_witness :
  phase_step (phase_of (Start w0))
    (phase_of (Running false
       (llm (thread_messages "t1" (chat_start "hi" "t1" w0))) ""
       (chat_start "hi" "t1" w0))).
Proof. apply (step_phase llm tavily self "hi" "t1"), step_start. Defined.

(** The turn that fails after a fragment ends in FAILED with the disk it
    started with. *)
Lemma steps_keep_disk_witness :
  disk (world_of (outcome (chat llm tavily self "boom" "t1" w0))) =
  disk (world_of (Start w0)).
Proof.
  apply (steps_keep_disk llm tavily self "boom" "t1"); [apply chat_steps|].
  by_compute.
Defined.

(** ** The memory *)

Definition w3 : World := world ["first"; "Human: hi"; "zzz"].

Lemma search_memory_related_witness :
  search_memory self "zz" w3 =
    (Ok (related_header +:+
         Text.join nl (first_row {| qr_ids := [["conv_3"; "conv_1"]];
                                    qr_documents := Some [["zzz"; "first"]] |})), w3) ∧
  length (first_row {| qr_ids := [["conv_3"; "conv_1"]];
                       qr_documents := Some [["zzz"; "first"]] |}) =
    2 `min` coll_count (saved ["first"; "Human: hi"; "zzz"]) ∧
  first_row {| qr_ids := [["conv_3"; "conv_1"]];
               qr_documents := Some [["zzz"; "first"]] |} ⊆
    coll_docs (saved ["first"; "Human: hi"; "zzz"]).
Proof.
  apply (search_memory_related self "zz" w3 (saved ["first"; "Human: hi"; "zzz"]));
    by_compute.
Defined.

Lemma search_memory_empty_witness :
  search_memory self "hi" (world []) = (Ok related_header, world []).
Proof.
  apply (search_memory_empty self "hi" (world []) (saved [])
           {| qr_ids := [[]]; qr_documents := Some [[]] |}); by_compute.
Defined.

(** Two saves on the empty store: [conv_1] and [conv_2]. *)
Lemma save_all_records_witness :
  ∃ c', lookup_collection (chroma_client self) (collection self)
          (save_all self [("a", "b"); ("c", "d")] (world [])).2 = Some c' ∧
        coll_ids c' = conv_id <$> seq 1 (coll_count (saved []) + 2) ∧
        coll_docs c' =
          coll_docs (saved []) ++ [turn_document "a" "b"; turn_document "c" "d"].
Proof.
  apply (save_all_records self [("a", "b"); ("c", "d")] (world []) _ (saved []));
    by_compute.
Defined.

(** ** Start *)

Lemma init_returns_witness : init w0 = (Ok the_agent, init_world w0).
Proof. apply (init_returns w0); vm_compute; by eexists. Defined.

Lemma init_restart_witness :
  lookup_collection "vector_store" "conversation_history" (init w0).2 =
    Some (saved ["first"]) ∧
  checkpoints (init w0).2 = ∅.
Proof. apply (init_restart w0 (saved ["first"])). by_compute. Defined.

Lemma init_establishes_wf_witness : world_wf the_agent (init w0).2.
Proof.
  apply (init_establishes_wf w0). intros c Hc. vm_compute in Hc.
  injection Hc as <-. by_compute.
Defined.

(** ** The store *)

Lemma query_finds_stored_witness :
  ∃ row, ListStore.query ListStore.str_dist ["zzz"] 2
           (saved ["first"; "Human: hi"; "zzz"]) =
         Ok {| qr_ids := [(ListStore.top ListStore.str_dist 2 "zzz"
                             (saved ["first"; "Human: hi"; "zzz"])).*1];
               qr_documents := Some ["zzz" :: row] |}.
Proof.
  apply (ListStore.query_finds_stored ListStore.str_dist "conv_3" "zzz" 2
           (saved ["first"; "Human: hi"; "zzz"]));
    [apply ListStore.str_dist_zero | apply (bool_decide_unpack _); by_compute | lia].
Defined.

Lemma top_closest_witness :
  ListStore.closer ListStore.str_dist "zzz" ("conv_3", "zzz") ("conv_2", "Human: hi").
Proof.
  apply (ListStore.top_closest ListStore.str_dist 2 "zzz"
           (saved ["first"; "Human: hi"; "zzz"]));
    apply (bool_decide_unpack _); by_compute.
Defined.

(** ** Sessions *)

(** A session of three turns, ended by [Exit] between blanks, with a line
    left unread. *)
Definition session : World :=
  process (saved ["first"]) ["hi"; "boom"; "update"; " Exit "; "later"] true.

(** The same input for a process that was interrupted in its second turn. *)
Definition interrupted : World :=
  process (saved ["first"]) ["hi"; "stop"; "exit"] true.

(** What the session writes and stores, by evaluation. *)
Example main_session :
  (main llm tavily session).1 = Ok (Some tt) ∧
  stdin (main llm tavily session).2 = ["later"] ∧
  filter is_answer (stdout (main llm tavily session).2) =
    [Print (answer_line "Hello, world!"); Print (answer_line "")] ∧
  coll_records <$> lookup_collection "vector_store" "conversation_history"
                     (main llm tavily session).2 =
    Some [("conv_1", "first");
          ("conv_2", turn_document "hi" "Hello, world!");
          ("conv_3", turn_document "update" "")] ∧
  dom (checkpoints (main llm tavily session).2) = {[ "chat_03142536" ]}.
Proof. repeat split; by_compute. Qed.

Lemma greeter_raises_Exception : model_raises_Exception greeter.
Proof. intros msgs answer e Hfin. by (vm_compute in Hfin). Qed.

(** Two turns are saved; the first is found. *)
Lemma save_then_search_witness :
  ∃ row, search_memory self (turn_document "hi" "Hello")
           (save_all self [("hi", "Hello"); ("a", "b")] w0).2 =
         (Ok (related_header +:+ Text.join nl (turn_document "hi" "Hello" :: row)),
          (save_all self [("hi", "Hello"); ("a", "b")] w0).2).
Proof.
  apply (save_then_search ListStore.str_dist 100 ListStore.str_dist_zero
           self [("hi", "Hello"); ("a", "b")] "hi" "Hello" w0 _ (saved ["first"]));
    [by_compute.. | apply elem_of_cons; by left].
Defined.

Lemma main_answers_witness :
  ∃ c', lookup_collection "vector_store" "conversation_history"
          (main llm tavily session).2 = Some c' ∧
        ids_wf c' ∧
        coll_count c' + answers (stdout session) =
          coll_count (default coll_empty
            (lookup_collection "vector_store" "conversation_history" session)) +
          answers (stdout (main llm tavily session).2).
Proof.
  apply (main_answers llm tavily session). intros c Hc. vm_compute in Hc.
  injection Hc as <-. by_compute.
Defined.

Lemma main_no_credential_witness :
  ∃ key,
    main llm tavily (process (saved ["first"]) ["hi"] false) =
      (Err (Exn (OtherError "ValidationError") key),
       init_world (process (saved ["first"]) ["hi"] false)) ∧
    stdout (main llm tavily (process (saved ["first"]) ["hi"] false)).2 =
      stdout (process (saved ["first"]) ["hi"] false) ∧
    stdin (main llm tavily (process (saved ["first"]) ["hi"] false)).2 =
      stdin (process (saved ["first"]) ["hi"] false).
Proof.
  apply (main_no_credential llm tavily (process (saved ["first"]) ["hi"] false)).
  left. by_compute.
Defined.

(** The interrupt of the second turn ends the loop. *)
Lemma main_loop_escape_witness :
  (Exn KeyboardInterrupt "" = eof_error ∧
   stdin (main_loop llm tavily 4 self "t1" interrupted).2 = []) ∨
  is_Exception (Exn KeyboardInterrupt "") = false.
Proof.
  apply (main_loop_escape llm tavily 4 self "t1" interrupted). by_compute.
Defined.

Lemma main_loop_exit_witness :
  ∃ turns line,
    stdin session = turns ++ line :: stdin (main_loop llm tavily 6 self "t1" session).2 ∧
    is_exit (Text.strip line) = true ∧
    Forall (λ l, is_exit (Text.strip l) = false) turns.
Proof. apply (main_loop_exit llm tavily 6 self "t1" session). by_compute. Defined.

Lemma main_loop_reaches_exit_witness :
  ∃ w', main_loop greeter tavily 6 self "t1" session = (Ok (Some tt), w') ∧
        stdin w' = ["later"].
Proof.
  apply (main_loop_reaches_exit greeter tavily 6 self "t1" session
           ["hi"; "boom"; "update"] " Exit " ["later"]);
    [apply greeter_raises_Exception
    | apply (store_raises_Exception_ListStore ListStore.str_dist 100)
    | done | by repeat constructor | by_compute | cbn; lia].
Defined.

Lemma main_loop_wf_witness :
  world_wf self (main_loop llm tavily 6 self "t1" session).2.
Proof.
  apply (main_loop_wf llm tavily 6 self "t1" session).
  exists (saved ["first"]). by_compute.
Defined.

Lemma main_loop_threads_witness :
  checkpoints (main_loop llm tavily 6 self "t1" session).2 !! "t2" =
  checkpoints session !! "t2".
Proof. by apply (main_loop_threads llm tavily 6 self "t1" "t2" session). Defined.

Lemma main_loop_fuel_irrelevant_witness :
  main_loop llm tavily 6 self "t1" session = main_loop llm tavily 60 self "t1" session.
Proof.
  apply (main_loop_fuel_irrelevant llm tavily 6 60 self "t1" session); cbn; lia.
Defined.

Lemma loop_body_break_witness :
  ((loop_body llm tavily self "t1" (process (saved []) [" Exit "; "later"] true)).1 =
     Ok false ↔
   ∃ ws1 word ws2, " Exit " = ws1 +:+ word +:+ ws2 ∧ Text.all_space ws1 = true ∧
                   Text.all_space ws2 = true ∧ word ∈ exit_spellings) ∧
  ((loop_body llm tavily self "t1" (process (saved []) [" Exit "; "later"] true)).1 =
     Ok false →
   (loop_body llm tavily self "t1" (process (saved []) [" Exit "; "later"] true)).2 =
     prompted ["later"] (process (saved []) [" Exit "; "later"] true)).
Proof.
  by apply (loop_body_break llm tavily self "t1"
              (process (saved []) [" Exit "; "later"] true) " Exit " ["later"]).
Defined.

(** A line that only holds the word is an exit line; a line that holds
    more is a message. *)
Example exit_lines :
  is_exit (Text.strip "EXIT") = true ∧ is_exit (Text.strip "exit now") = false ∧
  is_exit (Text.strip "quit") = false.
Proof. by vm_compute. Qed.

Lemma loop_body_exit_witness :
  loop_body llm tavily self "t1" (process (saved []) [" Exit "; "later"] true) =
  (Ok false, prompted ["later"] (process (saved []) [" Exit "; "later"] true)).
Proof.
  by apply (loop_body_exit llm tavily self "t1"
              (process (saved []) [" Exit "; "later"] true) " Exit " ["later"]).
Defined.

Lemma loop_body_eof_witness :
  loop_body llm tavily self "t1" w0 =
  (Err eof_error, set_stdout (λ o, o ++ [Prompt prompt]) w0).
Proof. by apply (loop_body_eof llm tavily self "t1" w0). Defined.

Lemma main_thread_id_witness :
  ∃ digits,
    main llm tavily session =
      main_loop llm tavily (S (length (stdin session))) the_agent
        ("chat_" +:+ digits) (started session) ∧
    String.length digits = 8 ∧ Hex.all_hex digits = true ∧
    Hex.unhex digits = Some (entropy session <$> seq (entropy_pos session) 4) ∧
    entropy_pos (started session) = entropy_pos session + 4.
Proof.
  apply (main_thread_id llm tavily session the_agent (init_world session)).
  apply (init_returns session); vm_compute; by eexists.
Defined.

(** The bytes drawn and the digits of the thread id, in the session. *)
Example session_thread_digits :
  entropy session <$> seq (entropy_pos session) 4 =
    [Byte.x03; Byte.x14; Byte.x25; Byte.x36] ∧
  session_thread session = "chat_03142536".
Proof. by vm_compute. Qed.

End Demo.
