(* ===== verification/Bots.v ===== *)
(** * Bots: four chat models, and the loop of [React] run on them

    The theorems of [React] and [Agent] hold for every chat model.  This
    file applies them to four, in the process of [Examples.Demo]: a model
    that looks the memory up and answers with what it found, a model that
    asks for a search whatever it is told, a model that cannot be reached,
    and a model that writes its requests as content blocks.  Every
    definition evaluates. *)

From stdpp Require Import base tactics option list numbers strings gmap.
From S2P Require Import Prelude VectorStore AgentRuntime React Session Memory.
From S2P Require Import Chat Typing Cli Agent Recall Examples.

Import Chroma Lang Graph Demo.

Module Bots.

(** The request for a search of the memory. *)
Definition look_up (query : string) : tool_call :=
  {| tc_name := "memory_search"; tc_args := query |}.

(** A model that looks the memory up when the user has spoken, and answers
    with what the tool gave. *)
Definition librarian : policy := λ msgs,
  match last msgs with
  | Some (HumanMessage (CStr query)) => Ok (AIMessage (CStr "") [look_up query])
  | Some (ToolMessage (CStr found) _) => Ok (AIMessage (CStr ("I found. " +:+ found)) [])
  | _ => Ok (AIMessage (CStr "Hello!") [])
  end.

(** A model that asks for a search whatever it is told. *)
Definition restless : policy := λ _,
  Ok (AIMessage (CStr "")
        [{| tc_name := "tavily_search_results_json"; tc_args := "news" |}]).

(** A model that cannot be reached. *)
Definition offline : policy := λ _,
  Err (Exn (OtherError "APIConnectionError") "Connection error.").

(** The librarian with requests written as content blocks, a text block
    before the request, and answers of [str] content. *)
Definition annotator : policy := λ msgs,
  match librarian msgs with
  | Ok (AIMessage _ (call :: calls)) =>
      Ok (AIMessage (CList ["Let me look."]) (call :: calls))
  | r => r
  end.

(** The tools of the process [w0], whose store holds one document. *)
Definition answer : string → string → result string := tool_answer tavily self w0.

Definition hi : list message := [HumanMessage (CStr "hi")].

(** What the memory holds for the query [hi]. *)
Definition found : string := related_header +:+ "first".

(** The run of the librarian: one round of tools, then the answer. *)
Definition looked_up : list React.update :=
  [ ("agent", [AIMessage (CStr "") [look_up "hi"]]);
    ("tools", [ToolMessage (CStr found) "memory_search"]);
    ("agent", [AIMessage (CStr ("I found. " +:+ found)) []]) ].

(** ** The loop *)

Lemma librarian_run : run librarian answer hi looked_up None.
Proof.
  apply (run_tools librarian answer hi (AIMessage (CStr "") [look_up "hi"]));
    [done..|].
  by apply run_answer.
Qed.

Lemma react_refines_run_witness :
  emitted answer (react librarian objects 2 hi) = (streamed objects looked_up, None).
Proof.
  apply (react_refines_run librarian objects answer hi looked_up None 2);
    [apply librarian_run | cbn; lia].
Defined.

(** The guard of the runtime, twenty-five, changes nothing. *)
Example librarian_guard :
  rounds librarian answer 2 hi = (looked_up, None) ∧
  rounds librarian answer 25 hi = (looked_up, None) ∧
  (rounds librarian answer 1 hi).2 = Some recursion_error.
Proof. by vm_compute. Qed.

(** The librarian is asked with the whole conversation. *)
Lemma run_query_witness :
  librarian (hi ++ added [ ("agent", [AIMessage (CStr "") [look_up "hi"]]);
                          ("tools", [ToolMessage (CStr found) "memory_search"]) ]) =
  Ok (AIMessage (CStr ("I found. " +:+ found)) []).
Proof.
  apply (run_query librarian answer hi looked_up None _
           (AIMessage (CStr ("I found. " +:+ found)) []) []);
    [apply librarian_run | done].
Defined.

Lemma restless_asks msgs :
  ∃ m, restless msgs = Ok m ∧ calls_of m ≠ [].
Proof. by eexists. Qed.

(** The restless model hangs, and the guard fires at every value. *)
Example restless_hangs :
  hangs restless answer hi ∧
  (emitted answer (react restless updates 25 hi)).2 = Some recursion_error ∧
  length (emitted answer (react restless updates 25 hi)).1 = 50.
Proof. split; [apply always_asks_hangs, restless_asks | by vm_compute]. Qed.

(** ** Turns *)

(** A turn with the librarian, streamed as message objects: the response
    is the text of the answer, and the thread holds the request, the
    observation and the answer. *)
Lemma chat_react_returns_witness :
  ∃ us, run librarian (tool_answer tavily self w0) (asked "hi" "t1" w0) us None ∧
        "I found. " +:+ found = ai_texts (streamed objects us) ∧
        thread_messages "t1" (chat (react librarian objects 25) tavily self "hi" "t1" w0).2 =
          asked "hi" "t1" w0 ++ added us.
Proof.
  apply (chat_react_returns librarian objects 25 tavily self "hi" "t1" w0
           ("I found. " +:+ found) _).
  by_compute.
Defined.

(** The same turn streamed as dictionaries: the response is empty, and so
    is the answer in the document stored. *)
Example librarian_updates :
  (chat (react librarian updates 25) tavily self "hi" "t1" w0).1 = Ok "" ∧
  coll_docs <$> lookup_collection "vector_store" "conversation_history"
     (chat (react librarian updates 25) tavily self "hi" "t1" w0).2 =
  Some ["first"; turn_document "hi" ""].
Proof. by vm_compute. Qed.

(** The second turn of a thread: the model is asked with the first. *)
Example second_turn :
  asked "more" "t1" (chat (react librarian objects 25) tavily self "hi" "t1" w0).2 =
  hi ++ added looked_up ++ [HumanMessage (CStr "more")].
Proof. by vm_compute. Qed.

Lemma chat_react_hangs_witness :
  (chat (react restless updates 3) tavily self "hi" "t1" w0).1 = Err recursion_error ∧
  disk (chat (react restless updates 3) tavily self "hi" "t1" w0).2 = disk w0.
Proof.
  apply (chat_react_hangs restless updates 3 tavily self "hi" "t1" w0);
    [apply always_asks_hangs, restless_asks|].
  vm_compute. by repeat constructor.
Defined.

Lemma offline_raises_Exception : policy_raises_Exception offline.
Proof. by intros msgs e [= <-]. Qed.

(** The model cannot be reached: [main] prints the error and goes on. *)
Lemma turn_react_returns_witness :
  ∃ w', turn (react offline updates 25) tavily self "hi" "t1" w0 = (Ok tt, w').
Proof.
  apply (turn_react_returns offline updates 25 tavily self "hi" "t1" w0);
    [apply offline_raises_Exception
    | apply (store_raises_Exception_ListStore ListStore.str_dist 100)].
Defined.

Example offline_turn :
  stdout (turn (react offline updates 25) tavily self "hi" "t1" w0).2 =
  [Print (error_line (Exn (OtherError "APIConnectionError") "Connection error."));
   Print "Please try again."].
Proof. by vm_compute. Qed.

(** The librarian's answers have [str] content: streamed as objects its
    turns fail by the model, the guard or the store only. *)
Lemma librarian_typed : policy_typed librarian.
Proof.
  intros msgs m. unfold librarian.
  by destruct (last msgs) as [[[?|?]|[?|?] ?|[?|?] ?|[?|?]]|]; intros [= <-].
Qed.

(** The annotator's first answer fails the turn when it is streamed as an
    object, and nothing is stored; streamed in a dictionary the turn
    returns, with an empty response. *)
Example annotator_TypeError :
  (∃ e w', chat (react annotator objects 25) tavily self "hi" "t1" w0 = (Err e, w') ∧
           exn_cls e = TypeError ∧ disk w' = disk w0) ∧
  (chat (react annotator updates 25) tavily self "hi" "t1" w0).1 = Ok "".
Proof.
  split; [|by vm_compute].
  by apply (chat_react_blocks annotator 24 tavily self "hi" "t1" w0
              (AIMessage (CList ["Let me look."]) [look_up "hi"])).
Qed.

End Bots.
