(* ===== verification/Scenarios.v ===== *)
(** * Scenarios: the program, typed runs, views and racing writers, on the
      process of [Examples]

    The theorems of [Typing], [View], [Program] and [Concurrent] applied to
    the store, the model and the search provider of [Examples.Demo]: a
    process whose credentials come from the [.env] file, the module imported
    and run as a script, a turn on a typed run that fails, a turn on an
    ill-typed one, two processes with the same store and nothing else in
    common, two writers under the serial and the racing schedule, and a
    store whose embedding reads the start of a document only. *)

From Stdlib Require Import Ascii.
From Stdlib.Strings Require Import Byte.
From stdpp Require Import base tactics option list numbers strings gmap relations.
From S2P Require Import Prelude PyStr VectorStore AgentRuntime Session Memory.
From S2P Require Import Chat Startup Turn Typing Cli View Document Transcript.
From S2P Require Import Loop Program Recall Embedding Concurrent Interleave.
From S2P Require Import Examples.

Import Chroma Lang Graph Demo.

Module Run.

(** ** The program *)

(** A process with an empty environment and both credentials in the
    [.env] file, one of them also in the environment. *)
Definition from_file (lines : list string) : World := {|
  disk := {[ "vector_store" := {[ "conversation_history" := saved ["first"] ]} ]};
  checkpoints := ∅;
  stdout := [];
  stdin := lines;
  entropy := λ n, default Byte.x00 (Byte.of_nat (17 * n + 3));
  entropy_pos := 0;
  environ := {[ "TAVILY_API_KEY" := "tvly-shell" ]};
  dotenv := {[ "ANTHROPIC_API_KEY" := "sk-ant"; "TAVILY_API_KEY" := "tvly-file" ]};
  modules := requirements
|}.

(** The same process on an installation without [langgraph.prebuilt]. *)
Definition no_langgraph (lines : list string) : World := {|
  disk := disk (from_file lines);
  checkpoints := ∅;
  stdout := [];
  stdin := lines;
  entropy := entropy (from_file lines);
  entropy_pos := 0;
  environ := environ (from_file lines);
  dotenv := dotenv (from_file lines);
  modules := delete "langgraph.prebuilt" requirements
|}.

(** The installation [requirements] is enough for the imports, and the
    first import that fails is the one that is reported. *)
Example imports_run :
  importable (from_file []) = true ∧
  (project_main llm tavily "__main__" (no_langgraph ["hi"])).1 =
    Err (ModuleNotFoundError "langgraph.prebuilt") ∧
  stdout (project_main llm tavily "__main__" (no_langgraph ["hi"])).2 = [] ∧
  stdin (project_main llm tavily "__main__" (no_langgraph ["hi"])).2 = ["hi"].
Proof. by_compute. Qed.

Lemma project_main_import_witness :
  ∃ k i e,
    list_find (λ i, import_ok (no_langgraph ["hi"]) i = false) imports = Some (k, i) ∧
    (exec_import i (no_langgraph ["hi"])).1 = Err e ∧ is_Exception e = true ∧
    project_main llm tavily "__main__" (no_langgraph ["hi"]) =
      (Err e, no_langgraph ["hi"]).
Proof.
  apply (project_main_import llm tavily "__main__" (no_langgraph ["hi"])).
  by_compute.
Defined.

(** The variable of the environment wins over the file, and the file gives
    what the environment has not. *)
Example load_dotenv_keys :
  environ (load_dotenv (from_file [])).2 !! "TAVILY_API_KEY" = Some "tvly-shell" ∧
  environ (load_dotenv (from_file [])).2 !! "ANTHROPIC_API_KEY" = Some "sk-ant" ∧
  (load_dotenv (from_file [])).1 = Ok true.
Proof. by_compute. Qed.

Lemma project_main_imported_witness :
  project_main llm tavily "project_main" (from_file ["hi"]) =
    (Ok tt, loaded (from_file ["hi"])) ∧
  disk (project_main llm tavily "project_main" (from_file ["hi"])).2 =
    disk (from_file ["hi"]) ∧
  stdout (project_main llm tavily "project_main" (from_file ["hi"])).2 =
    stdout (from_file ["hi"]) ∧
  stdin (project_main llm tavily "project_main" (from_file ["hi"])).2 =
    stdin (from_file ["hi"]).
Proof.
  by apply (project_main_imported llm tavily "project_main" (from_file ["hi"]));
    vm_compute.
Defined.

Lemma project_main_credentials_witness :
  project_main llm tavily "__main__" (from_file ["hi"; "exit"]) =
    while_True llm tavily the_agent
      (session_thread (loaded (from_file ["hi"; "exit"])))
      (started (loaded (from_file ["hi"; "exit"]))) ∧
  stdout (from_file ["hi"; "exit"]) ++ [Print banner; Print rule] `prefix_of`
    stdout (project_main llm tavily "__main__" (from_file ["hi"; "exit"])).2.
Proof.
  apply (project_main_credentials llm tavily (from_file ["hi"; "exit"]));
    [by_compute | right | left]; vm_compute; by eexists.
Defined.

Lemma project_main_no_credential_witness :
  ∃ key,
    project_main llm tavily "__main__" (process (saved ["first"]) ["hi"] false) =
      (Err (Exn (OtherError "ValidationError") key),
       init_world (loaded (process (saved ["first"]) ["hi"] false))) ∧
    stdout (project_main llm tavily "__main__"
              (process (saved ["first"]) ["hi"] false)).2 =
      stdout (process (saved ["first"]) ["hi"] false) ∧
    stdin (project_main llm tavily "__main__"
             (process (saved ["first"]) ["hi"] false)).2 =
      stdin (process (saved ["first"]) ["hi"] false).
Proof.
  apply (project_main_no_credential llm tavily
           (process (saved ["first"]) ["hi"] false)); [by_compute|].
  left. by_compute.
Defined.

Lemma project_main_answers_witness :
  ∃ c', lookup_collection "vector_store" "conversation_history"
          (project_main llm tavily "__main__" (from_file ["hi"; "boom"; "exit"])).2 =
          Some c' ∧
        ids_wf c' ∧
        coll_count c' + answers (stdout (from_file ["hi"; "boom"; "exit"])) =
          coll_count (default coll_empty
            (lookup_collection "vector_store" "conversation_history"
               (from_file ["hi"; "boom"; "exit"]))) +
          answers (stdout (project_main llm tavily "__main__"
                             (from_file ["hi"; "boom"; "exit"])).2).
Proof.
  apply (project_main_answers llm tavily (from_file ["hi"; "boom"; "exit"]));
    [by_compute|].
  intros c Hc. vm_compute in Hc. injection Hc as <-. by_compute.
Defined.

(** The session of the program, by evaluation: the loop without a bound
    runs. *)
Example project_main_session :
  (project_main llm tavily "__main__" (from_file ["hi"; "boom"; " Exit "; "later"])).1 =
    Ok tt ∧
  stdin (project_main llm tavily "__main__"
           (from_file ["hi"; "boom"; " Exit "; "later"])).2 = ["later"] ∧
  coll_records <$> lookup_collection "vector_store" "conversation_history"
    (project_main llm tavily "__main__"
       (from_file ["hi"; "boom"; " Exit "; "later"])).2 =
    Some [("conv_1", "first"); ("conv_2", turn_document "hi" "Hello, world!")].
Proof. by_compute. Qed.

(** ** Typed and ill-typed runs *)

Definition overloaded : exn := Exn (OtherError "APIError") "overloaded".

(** The run that fails after a fragment is typed: its failure is the raise
    of the agent. *)
Lemma typed_turn_failure_witness :
  ∃ c, rtc (step llm tavily self "boom" "t1") (Start w0) c ∧
       step llm tavily self "boom" "t1" c
         (Failed overloaded (chat llm tavily self "boom" "t1" w0).2) ∧
       failure self "boom" c overloaded.
Proof.
  apply (typed_turn_failure llm tavily self "boom" "t1" w0).
  - vm_compute. repeat constructor.
  - pose proof (chat_steps llm tavily self "boom" "t1" w0) as Hsteps.
    rewrite (run_eq_fst (chat llm tavily self "boom" "t1" w0) (Err overloaded))
      in Hsteps by by_compute.
    exact Hsteps.
Defined.

Lemma chat_typed_error_witness :
  (chat_run llm tavily self "boom" "t1" w0).2 = Some overloaded ∨
  ∃ response,
    save_to_memory self "boom" response (chat llm tavily self "boom" "t1" w0).2 =
    (Err overloaded, (chat llm tavily self "boom" "t1" w0).2).
Proof.
  apply (chat_typed_error llm tavily self "boom" "t1" w0).
  - vm_compute. repeat constructor.
  - by_compute.
Defined.

(** The answer in content blocks is not: the turn fails with [TypeError]. *)
Lemma ill_typed_TypeError_witness :
  ∃ e w', chat llm tavily self "blocks" "t1" w0 = (Err e, w') ∧
          exn_cls e = TypeError ∧ disk w' = disk w0.
Proof.
  apply (ill_typed_TypeError llm tavily self "blocks" "t1" w0).
  vm_compute. by constructor.
Defined.

(** ** Two processes with one view *)

(** A process with the store and the credentials of [w], which has
    printed, has a thread and a directory of its own, and draws other
    bytes. *)
Definition noisy (w : @World ListStore.t) (lines : list string) :
    @World ListStore.t := {|
  disk := <["notes" := ∅]> (disk w);
  checkpoints := {[ "old" := [HumanMessage (CStr "earlier")] ]};
  stdout := [Print "earlier"];
  stdin := lines;
  entropy := λ _, Byte.xff;
  entropy_pos := 7;
  environ := environ w;
  dotenv := ∅;
  modules := ∅
|}.

Lemma chat_noninterference_witness :
  ∃ printed,
    (chat llm tavily self "hi" "t1" w0).1 =
      (chat llm tavily self "hi" "t2" (noisy w0 ["later"])).1 ∧
    view self "t1" (chat llm tavily self "hi" "t1" w0).2 =
      view self "t2" (chat llm tavily self "hi" "t2" (noisy w0 ["later"])).2 ∧
    stdout (chat llm tavily self "hi" "t1" w0).2 = stdout w0 ++ printed ∧
    stdout (chat llm tavily self "hi" "t2" (noisy w0 ["later"])).2 =
      stdout (noisy w0 ["later"]) ++ printed.
Proof.
  apply (chat_noninterference llm tavily self "hi" "t1" "t2" w0 (noisy w0 ["later"])).
  by_compute.
Defined.

Definition two_lines : list string := ["hi"; "boom"; "exit"].

Lemma main_deterministic_witness :
  ∃ printed,
    (main llm tavily (process (saved ["first"]) two_lines true)).1 =
      (main llm tavily (noisy (process (saved ["first"]) two_lines true) two_lines)).1 ∧
    lookup_collection "vector_store" "conversation_history"
      (main llm tavily (process (saved ["first"]) two_lines true)).2 =
    lookup_collection "vector_store" "conversation_history"
      (main llm tavily (noisy (process (saved ["first"]) two_lines true) two_lines)).2 ∧
    stdin (main llm tavily (process (saved ["first"]) two_lines true)).2 =
      stdin (main llm tavily
               (noisy (process (saved ["first"]) two_lines true) two_lines)).2 ∧
    stdout (main llm tavily (process (saved ["first"]) two_lines true)).2 =
      stdout (process (saved ["first"]) two_lines true) ++ printed ∧
    stdout (main llm tavily
              (noisy (process (saved ["first"]) two_lines true) two_lines)).2 =
      stdout (noisy (process (saved ["first"]) two_lines true) two_lines) ++ printed.
Proof.
  by apply (main_deterministic llm tavily (process (saved ["first"]) two_lines true)
              (noisy (process (saved ["first"]) two_lines true) two_lines)).
Defined.

(** ** The memory and the screen *)

(** A session of two messages, the second of which the model fails on: one
    turn is stored, and it is the one whose answer was printed. *)
Lemma main_transcript_witness :
  ∃ c' turns,
    lookup_collection "vector_store" "conversation_history"
      (main llm tavily (process (saved ["first"]) two_lines true)).2 = Some c' ∧
    ids_wf c' ∧
    coll_docs c' =
      coll_docs (default coll_empty
        (lookup_collection "vector_store" "conversation_history"
           (process (saved ["first"]) two_lines true))) ++
      turn_documents turns ∧
    parse_document <$> turn_documents turns = Some <$> turns ∧
    responses (stdout (main llm tavily (process (saved ["first"]) two_lines true)).2) =
      responses (stdout (process (saved ["first"]) two_lines true)) ++ turns.*2 ∧
    turns.*1 `sublist_of`
      Text.strip <$> stdin (process (saved ["first"]) two_lines true).
Proof.
  apply (main_transcript llm tavily (process (saved ["first"]) two_lines true));
    [|by repeat constructor].
  intros c Hc. vm_compute in Hc. injection Hc as <-. by_compute.
Defined.

Example session_transcript :
  coll_docs <$> lookup_collection "vector_store" "conversation_history"
    (main llm tavily (process (saved ["first"]) two_lines true)).2 =
    Some ["first"; turn_document "hi" "Hello, world!"] ∧
  responses (stdout (main llm tavily (process (saved ["first"]) two_lines true)).2) =
    ["Hello, world!"].
Proof. by_compute. Qed.

Lemma parse_turn_document_witness :
  parse_document (turn_document "hi" "Hello, world!") = Some ("hi", "Hello, world!").
Proof. by apply (parse_turn_document "hi" "Hello, world!"). Defined.

(** An answer that quotes the separator is read as part of the message. *)
Example ambiguous_document :
  parse_document (turn_document ("a" +:+ ai_separator +:+ "b") "c") =
    Some ("a", "b" +:+ ai_separator +:+ "c") ∧
  turn_document ("a" +:+ ai_separator +:+ "b") "c" =
    turn_document "a" ("b" +:+ ai_separator +:+ "c").
Proof. by_compute. Qed.

(** The two sessions run in different threads. *)
Example session_threads :
  session_thread (process (saved ["first"]) two_lines true) = "chat_03142536" ∧
  session_thread (noisy (process (saved ["first"]) two_lines true) two_lines) =
    "chat_ffffffff".
Proof. by_compute. Qed.

(** ** Two writers *)

(** Served one after the other, both writers store their turn; when both
    count first, the second turn is not stored, and both return. *)
Example serial_and_racing :
  coll_records <$> lookup_collection "vector_store" "conversation_history"
    (run_schedule self [0; 0; 1; 1] [Saving "a" "b"; Saving "c" "d"] w0).2 =
    Some [("conv_1", "first"); ("conv_2", turn_document "a" "b");
          ("conv_3", turn_document "c" "d")] ∧
  coll_records <$> lookup_collection "vector_store" "conversation_history"
    (run_schedule self [0; 1; 0; 1] [Saving "a" "b"; Saving "c" "d"] w0).2 =
    Some [("conv_1", "first"); ("conv_2", turn_document "a" "b")] ∧
  (run_schedule self [0; 1; 0; 1] [Saving "a" "b"; Saving "c" "d"] w0).1 =
    [Returned; Returned].
Proof. by_compute. Qed.

Lemma run_schedule_wf_witness :
  ∃ c', lookup_collection (chroma_client self) (collection self)
          (run_schedule self [0; 1; 1; 0] [Saving "a" "b"; Saving "c" "d"] w0).2 =
          Some c' ∧
        ids_wf c' ∧ coll_records (saved ["first"]) `prefix_of` coll_records c' ∧
        Forall (id_given (coll_count c'))
          (run_schedule self [0; 1; 1; 0] [Saving "a" "b"; Saving "c" "d"] w0).1.
Proof.
  apply (run_schedule_wf self [0; 1; 1; 0] [Saving "a" "b"; Saving "c" "d"] w0
           (saved ["first"])); [by_compute.. | by repeat constructor].
Defined.

Definition two_turns : list (string * string) := [("a", "b"); ("c", "d")].

Lemma serial_writers_witness :
  run_schedule self (serial (length (@nil writer)) (length two_turns))
    ([] ++ (uncurry Saving <$> two_turns)) w0 =
  ([] ++ replicate (length two_turns) Returned, (save_all self two_turns w0).2).
Proof. apply (serial_writers self two_turns [] w0). by_compute. Defined.

(** Three writers whose calls interleave: the machine says what is
    stored. *)
Definition three_writers : list awriter :=
  [AStart "a" "b"; AStart "c" "d"; AStart "e" "f"].

Lemma run_schedule_refines_witness :
  ∃ c', lookup_collection (chroma_client self) (collection self)
          (run_schedule self [0; 1; 2; 1; 0; 2]
             (writer_of (coll_count (saved ["first"])) <$> three_writers) w0).2 =
          Some c' ∧
        ids_wf c' ∧
        coll_docs c' =
          coll_docs (saved ["first"]) ++ (arun [0; 1; 2; 1; 0; 2] three_writers []).2 ∧
        (run_schedule self [0; 1; 2; 1; 0; 2]
           (writer_of (coll_count (saved ["first"])) <$> three_writers) w0).1 =
          writer_of (coll_count (saved ["first"])) <$>
            (arun [0; 1; 2; 1; 0; 2] three_writers []).1.
Proof.
  apply (run_schedule_refines self [0; 1; 2; 1; 0; 2] three_writers w0
           (saved ["first"])); [by_compute.. | by repeat constructor |].
  vm_compute. by repeat constructor.
Defined.

Example three_writers_one_turn :
  coll_docs <$> lookup_collection (chroma_client self) (collection self)
    (run_schedule self [0; 1; 2; 1; 0; 2]
       (writer_of 1 <$> three_writers) w0).2 =
    Some ["first"; turn_document "c" "d"].
Proof. by_compute. Qed.

Lemma two_writers_classified_witness :
  ∃ c', lookup_collection (chroma_client self) (collection self)
          (run_schedule self [1; 0; 0; 1] [Saving "a" "b"; Saving "c" "d"] w0).2 =
          Some c' ∧
        (run_schedule self [1; 0; 0; 1] [Saving "a" "b"; Saving "c" "d"] w0).1 =
          [Returned; Returned] ∧
        coll_docs (saved ["first"]) `prefix_of` coll_docs c' ∧
        coll_count c' =
          coll_count (saved ["first"]) +
          (if bool_decide ([1; 0; 0; 1] ∈ serial2) then 2 else 1).
Proof.
  apply (two_writers_classified self "a" "b" "c" "d" [1; 0; 0; 1] w0 (saved ["first"]));
    [by_compute.. | by apply (bool_decide_unpack _) |].
  vm_compute. by repeat constructor.
Defined.

Lemma racing_writers_witness :
  ∃ w', run_schedule self [0; 1; 0; 1] [Saving "a" "b"; Saving "c" "d"] w0 =
          ([Returned; Returned], w') ∧
        lookup_collection (chroma_client self) (collection self) w' =
          Some (saved ["first"; turn_document "a" "b"]) ∧
        coll_records (saved ["first"; turn_document "a" "b"]) =
          coll_records (saved ["first"]) ++
          [(conv_id (coll_count (saved ["first"]) + 1), turn_document "a" "b")].
Proof.
  apply (racing_writers self "a" "b" "c" "d" w0 (saved ["first"])
           {| gr_ids := ["conv_1"]; gr_documents := ["first"] |}
           (saved ["first"; turn_document "a" "b"])); by_compute.
Defined.

(** ** The memory under an embedding *)

(** A store whose embedding reads the first twelve characters of a text:
    the prefix [Human: ], three characters of the message and the next
    two. *)
Definition short : Collection ListStore.t :=
  ListStore.collection (embed_dist (codes 12)) 100.

(** Three turns that differ in the answer alone. *)
Definition three_turns : list (string * string) :=
  [("hi", "a"); ("hi", "b"); ("hi", "c")].

Lemma search_finds_embedding_witness :
  ∃ d0 row,
    @search_memory _ short self (turn_document "hi" "b")
      (@save_all _ short self three_turns (world [])).2 =
      (Ok (related_header +:+ Text.join nl (d0 :: row)),
       (@save_all _ short self three_turns (world [])).2) ∧
    embed_dist (codes 12) (turn_document "hi" "b") d0 = 0.
Proof.
  apply (search_finds_embedding (codes 12) 12 (codes_length 12) 100 self
           three_turns "hi" "b" (world []) _ (saved []));
    [by_compute.. | unfold three_turns; rewrite !elem_of_cons; auto].
Defined.

(** The second turn is stored and is not found: the two documents returned
    for it are two others, which have its embedding. *)
Example embedding_hides_turn :
  (@search_memory _ short self (turn_document "hi" "b")
     (@save_all _ short self three_turns (world [])).2).1 =
    Ok (related_header +:+
        Text.join nl [turn_document "hi" "c"; turn_document "hi" "a"]) ∧
  coll_docs <$> lookup_collection "vector_store" "conversation_history"
     (@save_all _ short self three_turns (world [])).2 =
    Some (uncurry turn_document <$> three_turns).
Proof. by vm_compute. Qed.

End Run.
